(** * provision-ble: the BLE provisioning state machine, embedded and verified

    A shallow embedding of the GATT State / Command characteristics
    (src/gatt/state.cpp, src/gatt/command.cpp, src/gatt/characteristic.cpp),
    the Wi-Fi scan and connect helpers (src/wifi/scan.cpp,
    src/wifi/connect.cpp) and the IPv4-ready dispatcher
    (src/wifi/wifi_state_dispatcher.cpp).

    Conventions.
    - [std::string] is [string] (a sequence of 8-bit [ascii]); [size()] is
      [String.length].  Sizes are [size_t] in the source; the sums the code
      forms are sums of lengths of strings held in memory plus small
      constants, which cannot reach 2^64, so they are computed in [nat].
    - A GVariant of type "ay" is a [list ascii].
    - Process globals ([g_state], [g_chars], [g_scan_busy]) are fields of
      one [World] record threaded through every function.
    - NetworkManager is an external collaborator: what it answers is an
      input ([NMEnv]); what the daemon asks of it is recorded in the trace.
    - Logging has no effect on any modelled value and is left out. *)

From Stdlib Require Import String Ascii List ZArith Lia Bool.
From stdpp Require Import gmap strings list fin_maps sorting.
Import ListNotations.

Local Open Scope string_scope.
Local Open Scope list_scope.

(** ** Characters and string helpers *)

Definition DQUOTE : ascii := ascii_of_nat 34.
Definition BACKSLASH : ascii := ascii_of_nat 92.
Definition NEWLINE : ascii := ascii_of_nat 10.
Definition CARRIAGE : ascii := ascii_of_nat 13.
Definition TAB : ascii := ascii_of_nat 9.
Definition NUL : ascii := ascii_of_nat 0.

(** One-character string. *)
Definition chr (c : ascii) : string := String c EmptyString.

(** [std::string::operator+=] and [operator+] are [String.append], written
    [+:+]. *)

(** The text [s] between two double-quote characters. *)
Definition quoted (s : string) : string := chr DQUOTE +:+ s +:+ chr DQUOTE.

(** ** JSON escaping (state.cpp, json_escape) *)

Module Escape.

(** The body of the [switch (c)] inside the loop: what is appended to [out]
    for one input byte. *)
Definition escape_byte (c : ascii) : string :=
  if Ascii.eqb c BACKSLASH then chr BACKSLASH +:+ chr BACKSLASH
  else if Ascii.eqb c DQUOTE then chr BACKSLASH +:+ chr DQUOTE
  else if Ascii.eqb c NEWLINE then chr BACKSLASH +:+ "n"
  else if Ascii.eqb c CARRIAGE then chr BACKSLASH +:+ "r"
  else if Ascii.eqb c TAB then chr BACKSLASH +:+ "t"
  else if (nat_of_ascii c <? 32)%nat then "?"
  else chr c.

(** [for (char c : in) { switch ... }] with the accumulator [out]. *)
Fixpoint json_escape_loop (inp out : string) : string :=
  match inp with
  | EmptyString => out
  | String c rest => json_escape_loop rest (out +:+ escape_byte c)
  end.

Definition json_escape (inp : string) : string :=
  json_escape_loop inp EmptyString.

(** The escaping rule in the words of the specification: the image of one
    input byte. *)
Inductive escapes_to : ascii -> string -> Prop :=
| esc_backslash : escapes_to BACKSLASH (chr BACKSLASH +:+ chr BACKSLASH)
| esc_dquote : escapes_to DQUOTE (chr BACKSLASH +:+ chr DQUOTE)
| esc_newline : escapes_to NEWLINE (chr BACKSLASH +:+ "n")
| esc_carriage : escapes_to CARRIAGE (chr BACKSLASH +:+ "r")
| esc_tab : escapes_to TAB (chr BACKSLASH +:+ "t")
| esc_control c :
    (nat_of_ascii c < 32)%nat ->
    c <> NEWLINE -> c <> CARRIAGE -> c <> TAB ->
    escapes_to c "?"
| esc_plain c :
    (32 <= nat_of_ascii c)%nat ->
    c <> BACKSLASH -> c <> DQUOTE ->
    escapes_to c (chr c).

(** Concatenation of the images, in order. *)
Fixpoint glue (pieces : list string) : string :=
  match pieces with
  | [] => EmptyString
  | p :: ps => p +:+ glue ps
  end.

End Escape.

(** ** Scan-result payload (state.cpp, build_wifi_scan_payload) *)

Module Payload.
Import Escape.

(** Conservative single-chunk payload limit (bytes). *)
Definition MAX_NOTIFY_BYTES : nat := 200.

Definition PAYLOAD_HEAD : string :=
  "{" +:+ quoted "op" +:+ ":" +:+ quoted "wifi_scan" +:+ "," +:+
  quoted "ssids" +:+ ":[".

Definition PAYLOAD_TAIL : string := "]}".

(** The entry for one name: a comma unless it is the first, then the
    escaped name between double quotes. *)
Definition entry_of (first : bool) (ssid : string) : string :=
  (if first then EmptyString else ",") +:+ chr DQUOTE +:+ json_escape ssid +:+ chr DQUOTE.

(** The range-for loop with its [break]; the state is ([payload], [first]). *)
Fixpoint payload_loop (ssids : list string) (payload : string) (first : bool) : string :=
  match ssids with
  | [] => payload
  | ssid :: rest =>
      let entry := entry_of first ssid in
      if (MAX_NOTIFY_BYTES <? String.length payload + String.length entry + 2)%nat
      then payload
      else payload_loop rest (payload +:+ entry) false
  end.

Definition build_wifi_scan_payload (ssids : list string) : string :=
  payload_loop ssids PAYLOAD_HEAD true +:+ PAYLOAD_TAIL.

(** The payload that carries exactly the given entries, whole: the head, the
    quoted escaped names separated by commas, the closing bracket and brace. *)
Definition payload_with (entries : list string) : string :=
  PAYLOAD_HEAD +:+ String.concat "," (map (fun s => quoted (json_escape s)) entries) +:+
  PAYLOAD_TAIL.

(** What the loop has appended after taking the given names, the first of
    them with flag [first]. *)
Fixpoint entries_text (first : bool) (names : list string) : string :=
  match names with
  | [] => EmptyString
  | n :: rest => entry_of first n +:+ entries_text false rest
  end.

End Payload.

(** ** Command parser helpers (command.cpp) *)

Module Parser.

(** Drop the first [n] bytes. *)
Fixpoint skip (n : nat) (s : string) : string :=
  match n, s with
  | O, _ => s
  | S n', String _ s' => skip n' s'
  | S _, EmptyString => EmptyString
  end.

(** First offset, counted from [off], at which [needle] starts in [s]. *)
Fixpoint find_at (needle s : string) (off : nat) : option nat :=
  if String.prefix needle s then Some off
  else match s with
       | EmptyString => None
       | String _ s' => find_at needle s' (S off)
       end.

(** [std::string::find(needle, pos)]: [None] is [npos]; a start position
    past the end finds nothing. *)
Definition find (needle s : string) (pos : nat) : option nat :=
  if (String.length s <? pos)%nat then None
  else find_at needle (skip pos s) pos.

(** Very small JSON string extractor: finds ["<key>" : "<value>"]. *)
Definition json_get_string (payload key : string) : string :=
  let needle := quoted key in
  match find needle payload 0 with
  | None => EmptyString
  | Some k =>
    match find ":" payload (k + String.length needle) with
    | None => EmptyString
    | Some colon =>
      match find (chr DQUOTE) payload (colon + 1) with
      | None => EmptyString
      | Some q1 =>
        match find (chr DQUOTE) payload (q1 + 1) with
        | None => EmptyString
        | Some q2 =>
          if (q2 <=? q1 + 1)%nat then EmptyString
          else String.substring (q1 + 1) (q2 - (q1 + 1)) payload
        end
      end
    end
  end.

End Parser.

(** ** NetworkManager as seen by the daemon *)

(** An access point: [nm_access_point_get_ssid] may return NULL;
    [nm_access_point_get_strength] is a [guint8] cast to [int]. *)
Record NMAccessPoint := {
  ap_ssid : option string;
  ap_strength : Z
}.

Record NMIPConfig := {
  ip_addresses : option (list string)
}.

Record NMDevice := {
  dev_iface : string;
  dev_is_wifi : bool;
  dev_scan_request_error : bool;
  dev_access_points : option (list (option NMAccessPoint));
  dev_active_access_point : option NMAccessPoint;
  dev_ip4_config : option NMIPConfig
}.

(** What NetworkManager answers during one dispatcher callback. *)
Record NMEnv := {
  nm_client_new_ok : bool;
  nm_devices : option (list NMDevice)
}.

(** The profile handed to [nm_client_add_and_activate_connection2]. *)
Record NMProfile := {
  con_id : string;
  con_type : string;
  con_autoconnect : bool;
  wifi_ssid : string;
  wifi_mode : string;
  sec_key_mgmt : string;
  sec_psk : string;
  ip4_method : string
}.

(** Calls into libnm, in the order the daemon makes them. *)
Inductive NMCall :=
| NmClientNew
| NmClientGetDevices
| NmClientGetDeviceByIface (iface : string)
| NmDeviceWifiRequestScan
| NmDeviceWifiGetAccessPoints
| NmDeviceWifiGetActiveAccessPoint
| NmDeviceGetIp4Config
| NmClientAddAndActivateConnection2 (profile : NMProfile).

(** ** GATT characteristics (characteristic.cpp) *)

(** A GVariant of type "ay". *)
Definition ay := list ascii.

(** The callbacks are function pointers to one of the file-local handlers;
    they are named here and run by the interpreters below. *)
Inductive ReadCallback := on_read_device_info_cb | on_read_state_cb.
Inductive NotifyStateCallback := on_state_notify_cb.
Inductive WriteCallback := on_write_command_cb.

Record CharContext := {
  uuid : string;
  object_path : string;
  service_path : string;
  flags : list string;
  read_cb : option ReadCallback;
  notify_cb : option NotifyStateCallback;
  write_cb : option WriteCallback;
  system_bus : bool;            (* [GDBusConnection*], [false] for nullptr *)
  notifying : bool;
  value_ay : option ay          (* cached Value property, [None] for nullptr *)
}.

(** Observable actions of the daemon, oldest first. *)
Inductive Event :=
| EvNotify (path : string) (value : ay)
    (* notify_characteristic_value(path, value) was called *)
| EvPropertiesChanged (path : string) (value : ay)
    (* PropertiesChanged for Value was emitted on the bus *)
| EvNM (call : NMCall).

(** The process globals. *)
Record World := {
  g_state : string;
  g_chars : gmap string CharContext;
  g_scan_busy : bool;
  trace : list Event
}.

Definition set_g_state (s : string) (w : World) : World :=
  {| g_state := s; g_chars := g_chars w; g_scan_busy := g_scan_busy w; trace := trace w |}.
Definition set_g_chars (m : gmap string CharContext) (w : World) : World :=
  {| g_state := g_state w; g_chars := m; g_scan_busy := g_scan_busy w; trace := trace w |}.
Definition set_g_scan_busy (b : bool) (w : World) : World :=
  {| g_state := g_state w; g_chars := g_chars w; g_scan_busy := b; trace := trace w |}.
Definition record (evs : list Event) (w : World) : World :=
  {| g_state := g_state w; g_chars := g_chars w; g_scan_busy := g_scan_busy w;
     trace := trace w ++ evs |}.

Definition set_notifying (b : bool) (ctx : CharContext) : CharContext :=
  {| uuid := uuid ctx; object_path := object_path ctx; service_path := service_path ctx;
     flags := flags ctx; read_cb := read_cb ctx; notify_cb := notify_cb ctx;
     write_cb := write_cb ctx; system_bus := system_bus ctx;
     notifying := b; value_ay := value_ay ctx |}.
Definition set_value_ay (v : option ay) (ctx : CharContext) : CharContext :=
  {| uuid := uuid ctx; object_path := object_path ctx; service_path := service_path ctx;
     flags := flags ctx; read_cb := read_cb ctx; notify_cb := notify_cb ctx;
     write_cb := write_cb ctx; system_bus := system_bus ctx;
     notifying := notifying ctx; value_ay := v |}.

(** Frozen identifiers (service.hpp). *)
Definition SERVICE_UUID : string := "9a7d0000-7c2a-4f8e-9b32-9b3e6d4a0001".
Definition UUID_DEVICEINFO : string := "9a7d0000-7c2a-4f8e-9b32-9b3e6d4a0002".
Definition UUID_STATE : string := "9a7d0000-7c2a-4f8e-9b32-9b3e6d4a0003".
Definition UUID_COMMAND : string := "9a7d0000-7c2a-4f8e-9b32-9b3e6d4a0004".
Definition APP_PATH : string := "/org/bluez/provision".
Definition SERVICE_PATH : string := "/org/bluez/provision/service0".
Definition CHR_DEVINFO : string := "/org/bluez/provision/char0".
Definition CHR_STATE : string := "/org/bluez/provision/char1".
Definition CHR_COMMAND : string := "/org/bluez/provision/char2".

(** [std::string::c_str()] read as a C string: the bytes before the first NUL. *)
Fixpoint c_str (s : string) : string :=
  match s with
  | EmptyString => EmptyString
  | String c rest => if Ascii.eqb c NUL then EmptyString else String c (c_str rest)
  end.

(** [make_ay_from_string(const char* str)]: one "y" per byte up to the NUL. *)
Definition make_ay_from_string (str : string) : ay :=
  list_ascii_of_string (c_str str).

(** [emit_value_changed(ctx)]: the context afterwards and what went on the bus. *)
Definition emit_value_changed (ctx : CharContext) : CharContext * list Event :=
  if negb (system_bus ctx) then (ctx, [])
  else
    let ctx' := match value_ay ctx with
                | None => set_value_ay (Some []) ctx
                | Some _ => ctx
                end in
    match value_ay ctx' with
    | Some v => (ctx', [EvPropertiesChanged (object_path ctx') v])
    | None => (ctx', [])
    end.

(** [notify_characteristic_value(object_path, value_ay)]. *)
Definition notify_characteristic_value (path : string) (value : option ay) (w : World) : World :=
  let w := record (match value with
                   | Some v => [EvNotify path v]
                   | None => []
                   end) w in
  match g_chars w !! path with
  | None => w
  | Some ctx =>
    if negb (notifying ctx) then w
    else match value with
         | None => w
         | Some v =>
           let '(ctx', evs) := emit_value_changed (set_value_ay (Some v) ctx) in
           record evs (set_g_chars (<[path := ctx']> (g_chars w)) w)
         end
  end.

(** ** The daemon: scan, connect, state machine, command dispatch *)

Section Daemon.

(** [std::sort(first, last, comp)].  The standard fixes its result only up
    to the order of the elements that [comp] does not tell apart, so the
    function is a parameter that takes the comparator; the contract the
    standard gives it is assumed where a property needs it. *)
Variable std_sort :
  (string * Z -> string * Z -> bool) -> list (string * Z) -> list (string * Z).

(** *** Wi-Fi scan (scan.cpp) *)

(** [ScanBusyGuard()]: [compare_exchange_strong(expected = false, true)]. *)
Definition ScanBusyGuard_acquire (w : World) : bool * World :=
  if g_scan_busy w then (false, w) else (true, set_g_scan_busy true w).

(** [~ScanBusyGuard()]. *)
Definition ScanBusyGuard_release (acquired : bool) (w : World) : World :=
  if acquired then set_g_scan_busy false w else w.

Definition ssid_to_string (ssid_bytes : option string) : string :=
  match ssid_bytes with
  | None => EmptyString
  | Some data => data
  end.

(** First device for which [NM_IS_DEVICE_WIFI] holds. *)
Fixpoint first_wifi_device (devices : list NMDevice) : option NMDevice :=
  match devices with
  | [] => None
  | dev :: rest => if dev_is_wifi dev then Some dev else first_wifi_device rest
  end.

Definition is_empty (s : string) : bool :=
  match s with
  | EmptyString => true
  | String _ _ => false
  end.

(** The loop over [aps] that fills [std::map<std::string, int> best_strength]. *)
Fixpoint best_strength_loop (aps : list (option NMAccessPoint))
    (best_strength : gmap string Z) : gmap string Z :=
  match aps with
  | [] => best_strength
  | None :: rest => best_strength_loop rest best_strength
  | Some ap :: rest =>
    let ssid := ssid_to_string (ap_ssid ap) in
    if is_empty ssid then best_strength_loop rest best_strength
    else
      let strength := ap_strength ap in
      match best_strength !! ssid with
      | None => best_strength_loop rest (<[ssid := strength]> best_strength)
      | Some old =>
        if (old <? strength)%Z
        then best_strength_loop rest (<[ssid := strength]> best_strength)
        else best_strength_loop rest best_strength
      end
  end.

Definition key_le (a b : string * Z) : Prop := String.le (fst a) (fst b).

(** Iteration over a [std::map]: ascending keys. *)
Definition map_in_key_order (m : gmap string Z) : list (string * Z) :=
  merge_sort key_le (map_to_list m).

(** The comparator handed to [std::sort] (scan.cpp lines 167-169):
    [a.second > b.second]. *)
Definition stronger_first (a b : string * Z) : bool := (snd a >? snd b)%Z.

(** Lines 143-172 of scan.cpp: deduplicate, sort, project the names. *)
Definition rank_access_points (aps : list (option NMAccessPoint)) : list string :=
  let best_strength := best_strength_loop aps ∅ in
  let sorted := std_sort stronger_first (map_in_key_order best_strength) in
  map fst sorted.

(** The body of [scan_ssids] once the guard is held. *)
Definition scan_body (nm : NMEnv) (w : World) : list string * World :=
  let w := record [EvNM NmClientNew] w in
  if negb (nm_client_new_ok nm) then ([], w)
  else
    let w := record [EvNM NmClientGetDevices] w in
    match first_wifi_device (default [] (nm_devices nm)) with
    | None => ([], w)
    | Some wifi =>
      (* a failed scan request ([dev_scan_request_error]) is only logged:
         the cached results are used *)
      let w := record [EvNM NmDeviceWifiRequestScan] w in
      let w := record [EvNM NmDeviceWifiGetAccessPoints] w in
      match dev_access_points wifi with
      | None => ([], w)
      | Some aps => (rank_access_points aps, w)
      end
    end.

Definition scan_ssids (nm : NMEnv) (w : World) : list string * World :=
  let '(acquired, w) := ScanBusyGuard_acquire w in
  if negb acquired then ([], ScanBusyGuard_release acquired w)
  else
    let '(result, w) := scan_body nm w in
    (result, ScanBusyGuard_release acquired w).

(** *** Wi-Fi connect (connect.cpp) *)

Inductive ConnectResult := REQUESTED | FAILED.

Definition ConnectResult_eqb (a b : ConnectResult) : bool :=
  match a, b with
  | REQUESTED, REQUESTED | FAILED, FAILED => true
  | _, _ => false
  end.

Definition connect (ssid psk : string) (nm : NMEnv) (w : World) : ConnectResult * World :=
  let w := record [EvNM NmClientNew] w in
  if negb (nm_client_new_ok nm) then (FAILED, w)
  else
    let w := record [EvNM NmClientGetDevices] w in
    match first_wifi_device (default [] (nm_devices nm)) with
    | None => (FAILED, w)
    | Some wifi =>
      let profile :=
        {| con_id := c_str ssid;
           con_type := "802-11-wireless";
           con_autoconnect := true;
           wifi_ssid := ssid;
           wifi_mode := "infrastructure";
           sec_key_mgmt := "wpa-psk";
           sec_psk := c_str psk;
           ip4_method := "auto" |} in
      (REQUESTED, record [EvNM (NmClientAddAndActivateConnection2 profile)] w)
    end.

(** *** Provisioning state machine (state.cpp) *)

Definition make_state_payload (state : string) : ay :=
  make_ay_from_string ("{" +:+ quoted "state" +:+ ":" +:+ chr DQUOTE +:+ state +:+ chr DQUOTE +:+ "}").

Definition notify_state (w : World) : World :=
  notify_characteristic_value CHR_STATE (Some (make_state_payload (g_state w))) w.

Definition on_read_state (w : World) : ay := make_state_payload (g_state w).

Definition handle_wifi_scan_request (nm : NMEnv) (w : World) : World :=
  (* 1. Notify SCANNING *)
  let w := set_g_state "SCANNING" w in
  let w := notify_state w in
  (* 2. Perform scan *)
  let '(ssids, w) := scan_ssids nm w in
  (* 3. Notify SSID payload *)
  let payload := Payload.build_wifi_scan_payload ssids in
  let w := notify_characteristic_value CHR_STATE (Some (make_ay_from_string payload)) w in
  (* 4. Notify SCAN_COMPLETE *)
  let w := set_g_state "SCAN_COMPLETE" w in
  notify_state w.

Definition connected_payload (ssid ip : string) : string :=
  "{" +:+ quoted "state" +:+ ":" +:+ quoted "CONNECTED" +:+ "," +:+
  quoted "ssid" +:+ ":" +:+ chr DQUOTE +:+ Escape.json_escape ssid +:+ chr DQUOTE +:+ "," +:+
  quoted "ip" +:+ ":" +:+ chr DQUOTE +:+ Escape.json_escape ip +:+ chr DQUOTE +:+
  "}".

Definition notify_state_connected (ssid ip : string) (w : World) : World :=
  let w := set_g_state "CONNECTED" w in
  notify_characteristic_value CHR_STATE
    (Some (make_ay_from_string (connected_payload ssid ip))) w.

Definition handle_wifi_connect_request (ssid psk : string) (nm : NMEnv) (w : World) : World :=
  let w := set_g_state "CONNECTING" w in
  let w := notify_state w in
  let '(result, w) := connect ssid psk nm w in
  if negb (ConnectResult_eqb result REQUESTED)
  then notify_state (set_g_state "UNCONFIGURED" w)
  else w.

(** *** IPv4-ready dispatcher (wifi_state_dispatcher.cpp) *)

Fixpoint device_by_iface (iface : string) (devices : list NMDevice) : option NMDevice :=
  match devices with
  | [] => None
  | dev :: rest =>
    if String.eqb (dev_iface dev) iface then Some dev else device_by_iface iface rest
  end.

(** The SSID the handler reports: "unknown" unless the active access point
    has SSID bytes. *)
Definition active_ssid (dev : NMDevice) : string :=
  match dev_active_access_point dev with
  | Some ap =>
    match ap_ssid ap with
    | Some data => data
    | None => "unknown"
    end
  | None => "unknown"
  end.

(** The first IPv4 address, or the empty string. *)
Definition first_ip4 (dev : NMDevice) : string :=
  match dev_ip4_config dev with
  | Some ip4 =>
    match ip_addresses ip4 with
    | Some (addr :: _) => addr
    | _ => EmptyString
    end
  | None => EmptyString
  end.

Definition on_ipv4_ready (nm : NMEnv) (w : World) : World :=
  let w := record [EvNM NmClientNew] w in
  if negb (nm_client_new_ok nm) then w
  else
    let w := record [EvNM (NmClientGetDeviceByIface "wlan0")] w in
    match device_by_iface "wlan0" (default [] (nm_devices nm)) with
    | None => w
    | Some dev =>
      if negb (dev_is_wifi dev) then w
      else
        let w := record [EvNM NmDeviceWifiGetActiveAccessPoint] w in
        let ssid := active_ssid dev in
        let w := record [EvNM NmDeviceGetIp4Config] w in
        let ip := first_ip4 dev in
        if negb (is_empty ip) then notify_state_connected ssid ip w else w
    end.

(** [notify_ipv4_ready()] hands [on_ipv4_ready] to [g_main_context_invoke]
    on the default context.  Called on the dispatcher, which owns that
    context, the function runs at once; posted from the netlink thread
    while the main loop runs, it runs as a dispatcher callback of its own
    ([Ipv4Ready] below); posted before the main loop runs, it runs at once
    in the netlink thread ([startup] below). *)
Definition notify_ipv4_ready (nm : NMEnv) (w : World) : World := on_ipv4_ready nm w.

Definition on_state_notify (enabled : bool) (nm : NMEnv) (w : World) : World :=
  if negb enabled then w
  else notify_ipv4_ready nm w.

(** *** Command characteristic (command.cpp) *)

Definition ay_to_string (value : ay) : string := string_of_list_ascii value.

(** The op after the legacy alias has been applied. *)
Definition resolve_op (payload : string) : string :=
  let op := Parser.json_get_string payload "op" in
  if is_empty op then
    let cmd := Parser.json_get_string payload "cmd" in
    if String.eqb cmd "wifi.scan" then "wifi_scan"
    else if String.eqb cmd "wifi.connect" then "wifi_connect"
    else op
  else op.

Definition on_write_command (value : ay) (nm : NMEnv) (w : World) : World :=
  let payload := ay_to_string value in
  if is_empty payload then w
  else
    let op := resolve_op payload in
    if String.eqb op "wifi_scan" then handle_wifi_scan_request nm w
    else if String.eqb op "wifi_connect" then
      let ssid := Parser.json_get_string payload "ssid" in
      let psk := Parser.json_get_string payload "psk" in
      if is_empty ssid then w
      else handle_wifi_connect_request ssid psk nm w
    else w.

(** *** DeviceInfo characteristic (device_info.cpp) *)

Definition DEVICEINFO_JSON : string :=
  "{" +:+ quoted "Company" +:+ ":" +:+ quoted "PiDevelop.com" +:+ "," +:+
  quoted "Developer" +:+ ":" +:+ quoted "james@pidevelop.com" +:+ "," +:+
  quoted "project_name" +:+ ":" +:+ quoted "Provision BLE" +:+ "}".

Definition on_read_device_info : ay := make_ay_from_string DEVICEINFO_JSON.

(** *** Method dispatch of one exported characteristic (characteristic.cpp) *)

Definition run_read_cb (cb : ReadCallback) (w : World) : ay :=
  match cb with
  | on_read_device_info_cb => on_read_device_info
  | on_read_state_cb => on_read_state w
  end.

Definition run_notify_cb (cb : NotifyStateCallback) (enabled : bool)
    (nm : NMEnv) (w : World) : World :=
  match cb with
  | on_state_notify_cb => on_state_notify enabled nm w
  end.

Definition run_write_cb (cb : WriteCallback) (value : ay) (nm : NMEnv) (w : World) : World :=
  match cb with
  | on_write_command_cb => on_write_command value nm w
  end.

Inductive Method :=
| ReadValue
| WriteValue (value : ay)
| StartNotify
| StopNotify
| OtherMethod (name : string).

Inductive Reply :=
| ReturnValue (value : ay)
| ReturnEmpty
| ReturnError (name message : string).

(** [ctx->notifying = b] on the context registered at [path]. *)
Definition store_notifying (path : string) (b : bool) (w : World) : World :=
  set_g_chars (alter (set_notifying b) path (g_chars w)) w.

(** [on_method_call] with [user_data] the context exported at [path]; a call
    to a path that is not exported is answered by the bus itself. *)
Definition on_method_call (path : string) (method : Method) (nm : NMEnv) (w : World)
    : World * Reply :=
  match g_chars w !! path with
  | None => (w, ReturnError "org.freedesktop.DBus.Error.UnknownObject" "No such object")
  | Some ctx =>
    match method with
    | ReadValue =>
      match read_cb ctx with
      | None => (w, ReturnError "org.bluez.Error.Failed" "Read not supported")
      | Some cb => (w, ReturnValue (run_read_cb cb w))
      end
    | WriteValue value =>
      match write_cb ctx with
      | None => (w, ReturnError "org.bluez.Error.Failed" "Write not supported")
      | Some cb => (run_write_cb cb value nm w, ReturnEmpty)
      end
    | StartNotify =>
      let w := store_notifying path true w in
      let w := match notify_cb ctx with
               | Some cb => run_notify_cb cb true nm w
               | None => w
               end in
      (w, ReturnEmpty)
    | StopNotify =>
      let w := store_notifying path false w in
      let w := match notify_cb ctx with
               | Some cb => run_notify_cb cb false nm w
               | None => w
               end in
      (w, ReturnEmpty)
    | OtherMethod _ =>
      (w, ReturnError "org.freedesktop.DBus.Error.UnknownMethod" "Unknown method")
    end
  end.

(** *** Export and start-up *)

(** [export_characteristic]; [registered] is whether
    [g_dbus_connection_register_object] returned a non-zero id.  [None] is
    the [std::runtime_error] thrown otherwise. *)
Definition export_characteristic (bus : bool) (uuid_ path service : string)
    (flags_ : list string) (rd : option ReadCallback)
    (nf : option NotifyStateCallback) (wr : option WriteCallback)
    (registered : bool) (w : World) : option World :=
  let ctx := {| uuid := uuid_; object_path := path; service_path := service;
                flags := flags_; read_cb := rd; notify_cb := nf; write_cb := wr;
                system_bus := bus; notifying := false;
                value_ay := match rd with
                            | Some cb => Some (run_read_cb cb w)
                            | None => None
                            end |} in
  if negb registered then None
  else Some (set_g_chars (<[path := ctx]> (g_chars w)) w).

Definition export_device_info (bus registered : bool) (w : World) : option World :=
  export_characteristic bus UUID_DEVICEINFO CHR_DEVINFO SERVICE_PATH ["read"]
    (Some on_read_device_info_cb) None None registered w.

Definition export_state (bus registered : bool) (w : World) : option World :=
  export_characteristic bus UUID_STATE CHR_STATE SERVICE_PATH ["read"; "notify"]
    (Some on_read_state_cb) (Some on_state_notify_cb) None registered w.

Definition export_command (bus registered : bool) (w : World) : option World :=
  export_characteristic bus UUID_COMMAND CHR_COMMAND SERVICE_PATH ["write"]
    None None (Some on_write_command_cb) registered w.

(** The globals as their initialisers leave them. *)
Definition initial_world : World :=
  {| g_state := "UNCONFIGURED"; g_chars := ∅; g_scan_busy := false; trace := [] |}.

(** [main] up to the main loop when no address event arrives meanwhile:
    the three characteristics exported, in the order of the source, on a
    live bus connection. *)
Definition boot : option World :=
  w1 ← export_device_info true true initial_world;
  w2 ← export_state true true w1;
  export_command true true w2.

(** IPv4-ready callbacks run one after the other, each with the answers
    NetworkManager gives at that moment. *)
Definition deliver (early : list NMEnv) (w : World) : World :=
  fold_left (fun w nm => on_ipv4_ready nm w) early w.

(** [main] calls [start_ip_monitor] before the exports.  Until the main loop
    runs nothing owns the default context, so [g_main_context_invoke] runs
    [on_ipv4_ready] at once in the netlink thread: the callback can run
    before DeviceInfo is exported ([e0]), before State is ([e1]) and before
    Command is ([e2]).  After the last export it is a dispatcher step like
    any other.  [state_export_world] is the world in which [export_state]
    is called. *)
Definition state_export_world (e0 e1 : list NMEnv) : option World :=
  w1 ← export_device_info true true (deliver e0 initial_world);
  Some (deliver e1 w1).

Definition startup (e0 e1 e2 : list NMEnv) : option World :=
  w1 ← state_export_world e0 e1;
  w2 ← export_state true true w1;
  export_command true true (deliver e2 w2).

(** *** Dispatcher callbacks *)

(** What the event loop can be asked to run: a method call from the
    Bluetooth stack, or the IPv4-ready callback posted by the netlink
    thread. *)
Inductive Input :=
| MethodCall (path : string) (method : Method)
| Ipv4Ready.

Definition dispatch (i : Input) (nm : NMEnv) (w : World) : World :=
  match i with
  | MethodCall path method => fst (on_method_call path method nm w)
  | Ipv4Ready => on_ipv4_ready nm w
  end.

(** Worlds the running daemon can be in. *)
Inductive reachable : World -> Prop :=
| reachable_boot w e0 e1 e2 : startup e0 e1 e2 = Some w -> reachable w
| reachable_step w i nm : reachable w -> reachable (dispatch i nm w).

(** Worlds the dispatcher reaches from the world [w0]. *)
Inductive reachable_from (w0 : World) : World -> Prop :=
| reachable_from_start : reachable_from w0 w0
| reachable_from_step w i nm :
    reachable_from w0 w -> reachable_from w0 (dispatch i nm w).

(** Events of the trace that are notifications on [path], oldest first. *)
Definition notifications_on (path : string) (evs : list Event) : list ay :=
  omap (fun e => match e with
                 | EvNotify p v => if String.eqb p path then Some v else None
                 | _ => None
                 end) evs.

(** Events of the trace that are bus emissions for [path], oldest first. *)
Definition emissions_on (path : string) (evs : list Event) : list ay :=
  omap (fun e => match e with
                 | EvPropertiesChanged p v => if String.eqb p path then Some v else None
                 | _ => None
                 end) evs.

(** Calls into libnm recorded in the trace. *)
Definition nm_calls (evs : list Event) : list NMCall :=
  omap (fun e => match e with
                 | EvNM c => Some c
                 | _ => None
                 end) evs.

(** Whether a notification on [path] reaches the bus in world [w]. *)
Definition subscribed (path : string) (w : World) : bool :=
  match g_chars w !! path with
  | Some ctx => notifying ctx && system_bus ctx
  | None => false
  end.

End Daemon.

(** ** Vocabulary of the specification *)

(** The (name, strength) pairs NetworkManager reported, null entries skipped. *)
Fixpoint sightings (aps : list (option NMAccessPoint)) : list (string * Z) :=
  match aps with
  | [] => []
  | None :: rest => sightings rest
  | Some ap :: rest => (ssid_to_string (ap_ssid ap), ap_strength ap) :: sightings rest
  end.

(** [v] is the strongest signal observed for the name [s]. *)
Definition strongest (seen : list (string * Z)) (s : string) (v : Z) : Prop :=
  In (s, v) seen /\ forall v', In (s, v') seen -> (v' <= v)%Z.

(** *** The contract of [std::sort] *)

(** [comp] induces a strict weak ordering: it is irreflexive and transitive,
    and so is the relation "neither compares before the other". *)
Record strict_weak_order {A : Type} (comp : A -> A -> bool) : Prop := {
  swo_irreflexive : forall a, comp a a = false;
  swo_transitive : forall a b c, comp a b = true -> comp b c = true -> comp a c = true;
  swo_equivalence : forall a b c,
    comp a b = false -> comp b a = false ->
    comp b c = false -> comp c b = false ->
    comp a c = false /\ comp c a = false
}.

(** A sequence sorted with respect to [comp]: no element compares before an
    element that stands earlier. *)
Definition sorted_by {A : Type} (comp : A -> A -> bool) (l : list A) : Prop :=
  StronglySorted (fun a b => comp b a = false) l.

(** ** Sample inputs *)

(** A sort that meets the contract of [std::sort]: merge sort on the order
    "[b] does not compare before [a]" that the comparator gives. *)
Definition not_after (comp : string * Z -> string * Z -> bool) (a b : string * Z) : Prop :=
  comp b a = false.

#[local] Instance not_after_dec comp a b : Decision (not_after comp a b).
Proof. unfold not_after. apply _. Defined.

Definition sample_sort (comp : string * Z -> string * Z -> bool) :
    list (string * Z) -> list (string * Z) :=
  merge_sort (not_after comp).

Definition sample_ap (name : string) (strength : Z) : option NMAccessPoint :=
  Some {| ap_ssid := Some name; ap_strength := strength |}.

(** Scenario A of the specification, with a hidden network and a null entry
    added. *)
Definition sample_aps : list (option NMAccessPoint) :=
  [sample_ap "HomeNet" 80; sample_ap "HomeNet" 60; sample_ap "Cafe" 40;
   Some {| ap_ssid := None; ap_strength := 99 |}; None].

(** wlan0, associated to HomeNet with address 192.168.1.20. *)
Definition sample_wlan0 : NMDevice :=
  {| dev_iface := "wlan0"; dev_is_wifi := true; dev_scan_request_error := false;
     dev_access_points := Some sample_aps;
     dev_active_access_point := sample_ap "HomeNet" 80;
     dev_ip4_config := Some {| ip_addresses := Some ["192.168.1.20"] |} |}.

Definition sample_nm : NMEnv :=
  {| nm_client_new_ok := true; nm_devices := Some [sample_wlan0] |}.

(** wlan0 present but without an address. *)
Definition sample_nm_offline : NMEnv :=
  {| nm_client_new_ok := true;
     nm_devices := Some [
       {| dev_iface := "wlan0"; dev_is_wifi := true; dev_scan_request_error := false;
          dev_access_points := Some sample_aps;
          dev_active_access_point := None;
          dev_ip4_config := None |}] |}.

(** NetworkManager not reachable. *)
Definition sample_nm_down : NMEnv :=
  {| nm_client_new_ok := false; nm_devices := None |}.

(** ** Worlds of the running daemon *)

(** The world right after start-up. *)
Definition boot_world : World := default initial_world boot.

(** The five provisioning states. *)
Definition STATES : list string :=
  ["UNCONFIGURED"; "SCANNING"; "SCAN_COMPLETE"; "CONNECTING"; "CONNECTED"].

(** A characteristic with its run-time fields blanked: what export fixed. *)
Definition ctx_identity (ctx : CharContext) : CharContext :=
  set_notifying false (set_value_ay None ctx).

Definition identity_view (w : World) : gmap string CharContext :=
  ctx_identity <$> g_chars w.

(** A characteristic without its cached value. *)
Definition ctx_novalue (ctx : CharContext) : CharContext := set_value_ay None ctx.

(** What holds between two dispatcher callbacks: the exported tree is the
    one built at start-up, no scan is in progress, and the state is one of
    the five. *)
Definition world_ok (w : World) : Prop :=
  identity_view w = identity_view boot_world /\
  g_scan_busy w = false /\
  In (g_state w) STATES.

(** The byte sequence [{"state":"S"}]. *)
Definition state_json (S : string) : ay :=
  list_ascii_of_string ("{" +:+ quoted "state" +:+ ":" +:+ quoted S +:+ "}").

(** What one notification on State adds to the trace in world [w]: the call,
    and the bus emission if a central is subscribed. *)
Definition announce (w : World) (value : ay) : list Event :=
  EvNotify CHR_STATE value ::
  (if subscribed CHR_STATE w then [EvPropertiesChanged CHR_STATE value] else []).

(** The Wi-Fi status the IPv4-ready handler acts on: the SSID and first IPv4
    address of wlan0, when NetworkManager answers, wlan0 is a Wi-Fi device
    and it has a non-empty address. *)
Definition live_wifi (nm : NMEnv) : option (string * string) :=
  if nm_client_new_ok nm then
    match device_by_iface "wlan0" (default [] (nm_devices nm)) with
    | Some dev =>
      if dev_is_wifi dev && negb (is_empty (first_ip4 dev))
      then Some (active_ssid dev, first_ip4 dev)
      else None
    | None => None
    end
  else None.

(** [w'] is [w] with the events [evs] appended to the trace and perhaps
    other cached characteristic values; state, subscriptions and busy flag
    are as in [w]. *)
Definition extends_by (evs : list Event) (w w' : World) : Prop :=
  g_state w' = g_state w /\
  ctx_novalue <$> g_chars w' = ctx_novalue <$> g_chars w /\
  g_scan_busy w' = g_scan_busy w /\
  trace w' = trace w ++ evs.

(** ** Scan invocations running side by side *)

(** Where one invocation of [scan_ssids] stands: before the guard is
    constructed, inside the body with the flag held, about to run the
    guard's destructor, or returned. *)
Inductive ScanPhase :=
| Entering
| Scanning
| Leaving (acquired : bool) (result : list string)
| Returned (result : list string).

Record ScanThread := {
  th_nm : NMEnv;
  th_phase : ScanPhase
}.

Definition holds_flag (t : ScanThread) : bool :=
  match th_phase t with
  | Scanning | Leaving true _ => true
  | _ => false
  end.

Definition has_returned (t : ScanThread) : bool :=
  match th_phase t with
  | Returned _ => true
  | _ => false
  end.

Section ScanThreads.

Variable std_sort :
  (string * Z -> string * Z -> bool) -> list (string * Z) -> list (string * Z).

(** One atomic step of one invocation: the compare-exchange of the
    constructor, the body, the store of the destructor. *)
Definition thread_step (t : ScanThread) (w : World) : option (ScanThread * World) :=
  match th_phase t with
  | Entering =>
    let '(acquired, w') := ScanBusyGuard_acquire w in
    Some ({| th_nm := th_nm t;
             th_phase := if acquired then Scanning else Leaving false [] |}, w')
  | Scanning =>
    let '(result, w') := scan_body std_sort (th_nm t) w in
    Some ({| th_nm := th_nm t; th_phase := Leaving true result |}, w')
  | Leaving acquired result =>
    Some ({| th_nm := th_nm t; th_phase := Returned result |},
          ScanBusyGuard_release acquired w)
  | Returned _ => None
  end.

(** Any invocation that can move may move next. *)
Inductive sys_step : list ScanThread * World -> list ScanThread * World -> Prop :=
| sys_step_thread ts w i t t' w' :
    ts !! i = Some t ->
    thread_step t w = Some (t', w') ->
    sys_step (ts, w) (<[i := t']> ts, w').

Inductive sys_run : list ScanThread * World -> list ScanThread * World -> Prop :=
| sys_run_refl s : sys_run s s
| sys_run_step s1 s2 s3 : sys_run s1 s2 -> sys_step s2 s3 -> sys_run s1 s3.

End ScanThreads.

(** The number of invocations between their acquire and their release. *)
Definition holders (ts : list ScanThread) : nat :=
  sum_list_with (fun t => Nat.b2n (holds_flag t)) ts.

(** The flag is set exactly while one invocation is between its acquire and
    its release, and an invocation that lost the compare-exchange carries
    the empty result. *)
Definition guard_inv (s : list ScanThread * World) : Prop :=
  holders (fst s) = Nat.b2n (g_scan_busy (snd s)) /\
  Forall (fun t => forall r, th_phase t = Leaving false r -> r = []) (fst s).


(** ** Sample writes and worlds *)

Definition sample_scan_write : ay :=
  list_ascii_of_string ("{" +:+ quoted "op" +:+ ":" +:+ quoted "wifi_scan" +:+ "}").

Definition sample_legacy_scan_write : ay :=
  list_ascii_of_string ("{" +:+ quoted "cmd" +:+ ":" +:+ quoted "wifi.scan" +:+ "}").

Definition sample_connect_write : ay :=
  list_ascii_of_string
    ("{" +:+ quoted "op" +:+ ":" +:+ quoted "wifi_connect" +:+ "," +:+
     quoted "ssid" +:+ ":" +:+ quoted "HomeNet" +:+ "," +:+
     quoted "psk" +:+ ":" +:+ quoted "secret" +:+ "}").

Definition sample_legacy_connect_write : ay :=
  list_ascii_of_string
    ("{" +:+ quoted "cmd" +:+ ":" +:+ quoted "wifi.connect" +:+ "," +:+
     quoted "ssid" +:+ ":" +:+ quoted "HomeNet" +:+ "," +:+
     quoted "psk" +:+ ":" +:+ quoted "secret" +:+ "}").

(** op and cmd both present: the op wins. *)
Definition sample_mixed_write : ay :=
  list_ascii_of_string
    ("{" +:+ quoted "op" +:+ ":" +:+ quoted "wifi_scan" +:+ "," +:+
     quoted "cmd" +:+ ":" +:+ quoted "wifi.connect" +:+ "}").

Definition sample_connect_no_ssid_write : ay :=
  list_ascii_of_string
    ("{" +:+ quoted "op" +:+ ":" +:+ quoted "wifi_connect" +:+ "," +:+
     quoted "ssid" +:+ ":" +:+ quoted EmptyString +:+ "," +:+
     quoted "psk" +:+ ":" +:+ quoted "secret" +:+ "}").

(** The daemon after a central subscribed to State while Wi-Fi was down. *)
Definition subscribed_world : World :=
  dispatch sample_sort (MethodCall CHR_STATE StartNotify) sample_nm_down boot_world.

(** The daemon after an IPv4-ready event with wlan0 associated, nobody
    subscribed. *)
Definition connected_world : World :=
  dispatch sample_sort Ipv4Ready sample_nm boot_world.

(** A world in which another invocation holds the scan flag. *)
Definition scanning_world : World := set_g_scan_busy true boot_world.

(** The byte [c] does not occur in [s]. *)
Fixpoint lacks (c : ascii) (s : string) : Prop :=
  match s with
  | EmptyString => True
  | String x rest => x <> c /\ lacks c rest
  end.

(** A byte that JSON allows unescaped inside a string. *)
Definition plain_byte (c : ascii) : Prop :=
  (32 <= nat_of_ascii c)%nat /\ c <> DQUOTE /\ c <> BACKSLASH.

(** The content of a JSON string, byte by byte: plain bytes and two-byte
    escapes of backslash, double quote, n, r, t. *)
Inductive json_string_body : string -> Prop :=
| body_empty : json_string_body EmptyString
| body_plain c rest :
    plain_byte c -> json_string_body rest -> json_string_body (String c rest)
| body_escape e rest :
    In e [BACKSLASH; DQUOTE; ascii_of_nat 110; ascii_of_nat 114; ascii_of_nat 116] ->
    json_string_body rest ->
    json_string_body (String BACKSLASH (String e rest)).

(** Every byte of [s] is plain. *)
Fixpoint all_plain (s : string) : Prop :=
  match s with
  | EmptyString => True
  | String c rest => plain_byte c /\ all_plain rest
  end.

(** ** Property getters (characteristic.cpp, on_get_property) *)

(** The GVariant a property getter returns. *)
Inductive PropValue :=
| PString (s : string)
| PObjectPath (s : string)
| PBool (b : bool)
| PStringArray (l : list string)
| PPathArray (l : list string)
| PBytes (v : ay).

(** [empty_ay()]. *)
Definition empty_ay : ay := [].

(** [on_get_property] with [user_data] the context [ctx]; [None] is the
    nullptr returned for an unknown property. *)
Definition char_get_property (ctx : CharContext) (prop : string) : option PropValue :=
  if String.eqb prop "UUID" then Some (PString (c_str (uuid ctx)))
  else if String.eqb prop "Service" then Some (PObjectPath (c_str (service_path ctx)))
  else if String.eqb prop "Flags" then Some (PStringArray (flags ctx))
  else if String.eqb prop "Value" then
    Some (PBytes (match value_ay ctx with
                  | Some v => v
                  | None => empty_ay
                  end))
  else None.

(** A property read on the object exported at [path]. *)
Definition on_get_property (path prop : string) (w : World) : option PropValue :=
  ctx ← g_chars w !! path; char_get_property ctx prop.

(** ** What the daemon puts on the bus *)

(** The four states announced by a bare state payload. *)
Definition ANNOUNCED_STATES : list string :=
  ["UNCONFIGURED"; "SCANNING"; "SCAN_COMPLETE"; "CONNECTING"].

(** The three shapes of payload the state machine builds. *)
Definition known_payload (v : ay) : Prop :=
  (exists S, In S ANNOUNCED_STATES /\ v = state_json S) \/
  (exists names, v = list_ascii_of_string (Payload.payload_with names) /\
                 String.length (Payload.payload_with names) <= 200) \/
  (exists ssid ip, v = list_ascii_of_string (connected_payload ssid ip)).

Definition bus_event_ok (e : Event) : Prop :=
  match e with
  | EvPropertiesChanged p v => p = CHR_STATE /\ known_payload v
  | _ => True
  end.

(** The provisioning state at the moment State is exported. *)
Definition exported_state (e0 e1 : list NMEnv) : string :=
  match state_export_world e0 e1 with
  | Some w1 => g_state w1
  | None => "UNCONFIGURED"
  end.

(** The cached value of State is the last payload emitted, or [seed]. *)
Definition cache_inv (seed : ay) (w : World) : Prop :=
  (ctx ← g_chars w !! CHR_STATE; value_ay ctx) =
  Some (List.last (emissions_on CHR_STATE (trace w)) seed).

(** Whether an IPv4-ready callback run with these answers finds an address. *)
Definition finds_address (nm : NMEnv) : bool :=
  match live_wifi nm with
  | Some _ => true
  | None => false
  end.

(** No event of [evs] is a bus emission. *)
Definition silent (evs : list Event) : Prop :=
  Forall (fun e => match e with
                   | EvPropertiesChanged _ _ => False
                   | _ => True
                   end) evs.

(** No central is subscribed to State: it is not exported yet, or its flag
    is down. *)
Definition state_unsubscribed (w : World) : Prop :=
  forall ctx, g_chars w !! CHR_STATE = Some ctx -> notifying ctx = false.

(** The cached values of DeviceInfo and Command are the ones they were
    exported with: the static text, and none. *)
Definition other_caches_inv (w : World) : Prop :=
  (ctx ← g_chars w !! CHR_DEVINFO; value_ay ctx) =
    Some (list_ascii_of_string DEVICEINFO_JSON) /\
  (ctx ← g_chars w !! CHR_COMMAND; value_ay ctx) = None.

Definition good (seed : ay) (w : World) : Prop :=
  identity_view w = identity_view boot_world /\
  cache_inv seed w /\
  Forall bus_event_ok (trace w) /\
  other_caches_inv w.

(** What [scan_ssids] returns when it holds the guard, as a function of
    what NetworkManager answers. *)
Definition scan_outcome
    (std_sort : (string * Z -> string * Z -> bool) ->
                list (string * Z) -> list (string * Z))
    (nm : NMEnv) : list string :=
  if nm_client_new_ok nm then
    match first_wifi_device (default [] (nm_devices nm)) with
    | Some wifi =>
      match dev_access_points wifi with
      | Some aps => rank_access_points std_sort aps
      | None => []
      end
    | None => []
    end
  else [].

(** ** Object manager and service (object_manager.cpp, service.cpp) *)

#[local] Instance PropValue_eq_dec : EqDecision PropValue.
Proof. solve_decision. Defined.

(** An a{sv} dictionary, in the order it is built. *)
Definition PropDict := list (string * PropValue).

(** First value stored under [key]. *)
Fixpoint assoc {V} (key : string) (l : list (string * V)) : option V :=
  match l with
  | [] => None
  | (k, v) :: rest => if String.eqb k key then Some v else assoc key rest
  end.

Definition GATT_SERVICE_IFACE : string := "org.bluez.GattService1".
Definition GATT_CHRC_IFACE : string := "org.bluez.GattCharacteristic1".

Definition make_service_props : PropDict :=
  [("UUID", PString SERVICE_UUID);
   ("Primary", PBool true);
   ("Includes", PPathArray [])].

Definition make_char_props (uuid_ service : string) (flags_ : list string) : PropDict :=
  [("UUID", PString uuid_);
   ("Service", PObjectPath service);
   ("Flags", PStringArray flags_);
   ("Descriptors", PPathArray [])].

(** The a{oa{sa{sv}}} tree built by GetManagedObjects. *)
Definition managed_objects : list (string * list (string * PropDict)) :=
  [(SERVICE_PATH, [(GATT_SERVICE_IFACE, make_service_props)]);
   (CHR_DEVINFO,
    [(GATT_CHRC_IFACE, make_char_props UUID_DEVICEINFO SERVICE_PATH ["read"])]);
   (CHR_STATE,
    [(GATT_CHRC_IFACE, make_char_props UUID_STATE SERVICE_PATH ["read"; "notify"])]);
   (CHR_COMMAND,
    [(GATT_CHRC_IFACE, make_char_props UUID_COMMAND SERVICE_PATH ["write"])])].

Inductive OMReply :=
| OMObjects (tree : list (string * list (string * PropDict)))
| OMError (name message : string).

(** [on_method_call] of the object manager. *)
Definition om_on_method_call (method_name : string) : OMReply :=
  if negb (String.eqb method_name "GetManagedObjects")
  then OMError "org.freedesktop.DBus.Error.UnknownMethod" "Unknown method"
  else OMObjects managed_objects.

(** [on_get_property] of the service object. *)
Definition service_get_property (prop : string) : option PropValue :=
  if String.eqb prop "UUID" then Some (PString SERVICE_UUID)
  else if String.eqb prop "Primary" then Some (PBool true)
  else if String.eqb prop "Includes" then Some (PPathArray [])
  else None.

(** The tree advertises for [path] what the characteristic [ctx] answers
    itself for UUID, Service and Flags, and no descriptors. *)
Definition om_agrees (path : string) (ctx : CharContext) : bool :=
  bool_decide
    (assoc path managed_objects =
     Some [(GATT_CHRC_IFACE,
            [("UUID", PString (c_str (uuid ctx)));
             ("Service", PObjectPath (c_str (service_path ctx)));
             ("Flags", PStringArray (flags ctx));
             ("Descriptors", PPathArray [])])]).

(** ** Adapter discovery (bluez_client.cpp) *)

(** A value or a thrown [std::runtime_error] with its message. *)
Inductive Except (A : Type) :=
| Ok (a : A)
| Throw (message : string).
Arguments Ok {A} a.
Arguments Throw {A} message.

Definition GATT_MGR_IFACE : string := "org.bluez.GattManager1".
Definition ADV_MGR_IFACE : string := "org.bluez.LEAdvertisingManager1".

(** [has_interface]: walk the dictionary, stop at the first key that matches. *)
Fixpoint has_interface (iface_dict : list (string * PropDict)) (iface_name : string) : bool :=
  match iface_dict with
  | [] => false
  | (key, _) :: rest =>
    if String.eqb key iface_name then true else has_interface rest iface_name
  end.

(** The loop over the managed objects with its [break]; the result is
    [result.adapter_path], empty when nothing was selected. *)
Fixpoint select_adapter (objects : list (string * list (string * PropDict))) : string :=
  match objects with
  | [] => EmptyString
  | (obj_path, iface_dict) :: rest =>
    let has_gatt := has_interface iface_dict GATT_MGR_IFACE in
    let has_adv := has_interface iface_dict ADV_MGR_IFACE in
    if has_gatt && has_adv then obj_path else select_adapter rest
  end.

(** [make_error(prefix, err)], [err] given by its message if it has one. *)
Definition make_error (prefix : string) (err : option string) : string :=
  prefix +:+ default "unknown error" err.

(** [find_adapter]; [reply] is what the GetManagedObjects call on BlueZ
    gave: the objects, or the error of a failed call. *)
Definition find_adapter (system_bus : bool)
    (reply : option string + list (string * list (string * PropDict))) : Except string :=
  if negb system_bus then Throw "find_adapter: system_bus is null"
  else match reply with
       | inl err => Throw (make_error "GetManagedObjects failed: " err)
       | inr objects =>
         let adapter_path := select_adapter objects in
         if is_empty adapter_path
         then Throw "No adapter found exposing GattManager1 and LEAdvertisingManager1"
         else Ok adapter_path
       end.

(** An object that offers both GATT and advertising management. *)
Definition is_adapter (obj : string * list (string * PropDict)) : bool :=
  has_interface (snd obj) GATT_MGR_IFACE && has_interface (snd obj) ADV_MGR_IFACE.

(** ** Sample BlueZ objects and scan invocations *)

Definition sample_bluez_objects : list (string * list (string * PropDict)) :=
  [("/org/bluez", [("org.bluez.AgentManager1", [])]);
   ("/org/bluez/hci0",
    [("org.bluez.Adapter1", []); (GATT_MGR_IFACE, []); (ADV_MGR_IFACE, [])]);
   ("/org/bluez/hci1",
    [("org.bluez.Adapter1", []); (GATT_MGR_IFACE, []); (ADV_MGR_IFACE, [])])].

(** Two invocations of the scan, none of which has entered yet. *)
Definition sample_threads : list ScanThread :=
  [{| th_nm := sample_nm; th_phase := Entering |};
   {| th_nm := sample_nm_down; th_phase := Entering |}].

(** The first has taken the flag, the second has lost the compare-exchange. *)
Definition sample_threads_contended : list ScanThread :=
  [{| th_nm := sample_nm; th_phase := Scanning |};
   {| th_nm := sample_nm_down; th_phase := Leaving false [] |}].

(** An op the daemon does not know. *)
Definition sample_unknown_write : ay :=
  list_ascii_of_string ("{" +:+ quoted "op" +:+ ":" +:+ quoted "reboot" +:+ "}").

(** The start-up world when wlan0 got its address before State was exported,
    and the same daemon after a central subscribed while NetworkManager
    was down. *)
Definition early_world : World :=
  default initial_world (startup [] [sample_nm] []).

Definition early_subscribed_world : World :=
  dispatch sample_sort (MethodCall CHR_STATE StartNotify) sample_nm_down early_world.

(** The subscribed daemon after one scan. *)
Definition scanned_world : World :=
  dispatch sample_sort (MethodCall CHR_COMMAND (WriteValue sample_scan_write))
    sample_nm subscribed_world.

(** * Properties *)

(** ** Strings *)

Lemma append_nil_l (s : string) : EmptyString +:+ s = s.
Proof. reflexivity. Qed.

Lemma append_cons (c : ascii) (a b : string) : String c a +:+ b = String c (a +:+ b).
Proof. reflexivity. Qed.

Lemma append_nil_r (s : string) : s +:+ EmptyString = s.
Proof.
  induction s as [|c s IH]; [reflexivity |].
  now rewrite append_cons, IH.
Qed.

Lemma append_assoc (a b c : string) : (a +:+ b) +:+ c = a +:+ (b +:+ c).
Proof.
  induction a as [|x a IH]; [reflexivity |].
  now rewrite !append_cons, IH.
Qed.

Lemma length_append (a b : string) :
  String.length (a +:+ b) = String.length a + String.length b.
Proof.
  induction a as [|x a IH]; [reflexivity |].
  rewrite append_cons. simpl. now rewrite IH.
Qed.

Lemma list_ascii_of_string_append (a b : string) :
  list_ascii_of_string (a +:+ b) = list_ascii_of_string a ++ list_ascii_of_string b.
Proof.
  induction a as [|x a IH]; [reflexivity |].
  rewrite append_cons. simpl. now rewrite IH.
Qed.

(** ** JSON escaping *)

Module EscapeFacts.
Import Escape.

Lemma json_escape_loop_out (inp out : string) :
  json_escape_loop inp out = out +:+ json_escape_loop inp EmptyString.
Proof.
  revert out. induction inp as [|c rest IH]; intros out; simpl.
  - now rewrite append_nil_r.
  - rewrite IH, (IH (EmptyString +:+ escape_byte c)).
    now rewrite append_nil_l, append_assoc.
Qed.

Lemma json_escape_cons (c : ascii) (rest : string) :
  json_escape (String c rest) = escape_byte c +:+ json_escape rest.
Proof. unfold json_escape. simpl. apply json_escape_loop_out. Qed.

Lemma ascii_eqb_false_ne (a b : ascii) : Ascii.eqb a b = false -> a <> b.
Proof. intros H. now apply Ascii.eqb_neq. Qed.

(** The switch implements the rule of the specification. *)
Lemma escape_byte_rule (c : ascii) : escapes_to c (escape_byte c).
Proof.
  unfold escape_byte.
  destruct (Ascii.eqb c BACKSLASH) eqn:Eb.
  { apply Ascii.eqb_eq in Eb. subst. constructor. }
  destruct (Ascii.eqb c DQUOTE) eqn:Eq.
  { apply Ascii.eqb_eq in Eq. subst. constructor. }
  destruct (Ascii.eqb c NEWLINE) eqn:En.
  { apply Ascii.eqb_eq in En. subst. constructor. }
  destruct (Ascii.eqb c CARRIAGE) eqn:Er.
  { apply Ascii.eqb_eq in Er. subst. constructor. }
  destruct (Ascii.eqb c TAB) eqn:Et.
  { apply Ascii.eqb_eq in Et. subst. constructor. }
  destruct (nat_of_ascii c <? 32)%nat eqn:El.
  - apply Nat.ltb_lt in El. apply esc_control; auto using ascii_eqb_false_ne.
  - apply Nat.ltb_ge in El. apply esc_plain; auto using ascii_eqb_false_ne.
Qed.

(** The rule assigns one image to each byte. *)
Lemma escapes_to_functional (c : ascii) (p q : string) :
  escapes_to c p -> escapes_to c q -> p = q.
Proof.
  intros Hp Hq.
  destruct Hp; inversion Hq; subst; try reflexivity;
    try congruence;
    repeat match goal with
           | H : (nat_of_ascii _ < _)%nat |- _ => vm_compute in H
           | H : (_ <= nat_of_ascii _)%nat |- _ => vm_compute in H
           end; try lia.
Qed.

(** C7. For every 8-bit byte sequence, [json_escape] is the concatenation,
    in order, of the images of its bytes, where backslash, double quote,
    newline, carriage return and tab become the two-byte escapes, every
    other byte below 0x20 becomes [?], and every other byte is itself. *)
Theorem json_escape_bytewise (s : string) :
  exists pieces : list string,
    Forall2 escapes_to (list_ascii_of_string s) pieces /\
    json_escape s = glue pieces.
Proof.
  induction s as [|c rest [pieces [Hall Heq]]].
  - exists []. split; [constructor | reflexivity].
  - exists (escape_byte c :: pieces). split.
    + simpl. constructor; [apply escape_byte_rule | exact Hall].
    + rewrite json_escape_cons. simpl. now rewrite Heq.
Qed.

End EscapeFacts.

(** ** Scan-result payload *)

Module PayloadFacts.
Import Escape Payload.

Lemma concat_entries (n : string) (rest : list string) :
  String.concat "," (map (fun s => quoted (json_escape s)) (n :: rest)) =
  quoted (json_escape n) +:+ entries_text false rest.
Proof.
  revert n. induction rest as [|m rest IH]; intros n.
  - simpl. now rewrite append_nil_r.
  - change (String.concat "," (map (fun s => quoted (json_escape s)) (n :: m :: rest)))
      with (quoted (json_escape n) +:+ "," +:+
            String.concat "," (map (fun s => quoted (json_escape s)) (m :: rest))).
    rewrite IH. reflexivity.
Qed.

(** The loop's text is the comma-separated list of quoted escaped names. *)
Lemma entries_text_concat (names : list string) :
  entries_text true names = String.concat "," (map (fun s => quoted (json_escape s)) names).
Proof.
  destruct names as [|n rest]; [reflexivity |].
  rewrite concat_entries. reflexivity.
Qed.

Lemma payload_with_length (names : list string) :
  String.length (payload_with names) =
  String.length PAYLOAD_HEAD + String.length (entries_text true names) + 2.
Proof.
  unfold payload_with. rewrite <- entries_text_concat.
  rewrite !length_append. simpl. lia.
Qed.

Lemma entries_text_firstn_mono (first : bool) (names : list string) (j k : nat) :
  j <= k ->
  String.length (entries_text first (firstn j names)) <=
  String.length (entries_text first (firstn k names)).
Proof.
  revert first j k. induction names as [|n rest IH]; intros first j k Hjk.
  - now rewrite !firstn_nil.
  - destruct j as [|j]; [simpl; lia |].
    destruct k as [|k]; [lia |].
    simpl. rewrite !length_append.
    specialize (IH false j k ltac:(lia)). lia.
Qed.

(** The loop invariant: starting from [payload] with flag [first], the loop
    appends the entries of the first [k] names and stops either at the end
    of the list or in front of a name whose entry does not fit. *)
Lemma payload_loop_takes (ssids : list string) (payload : string) (first : bool) :
  exists k,
    k <= length ssids /\
    payload_loop ssids payload first = payload +:+ entries_text first (firstn k ssids) /\
    (String.length payload + 2 <= MAX_NOTIFY_BYTES ->
     String.length (payload_loop ssids payload first) + 2 <= MAX_NOTIFY_BYTES) /\
    (k < length ssids ->
     MAX_NOTIFY_BYTES <
     String.length (payload +:+ entries_text first (firstn (S k) ssids)) + 2).
Proof.
  revert payload first. induction ssids as [|ssid rest IH]; intros payload first.
  - exists 0. simpl. rewrite append_nil_r. repeat split; auto; lia.
  - simpl payload_loop.
    destruct (MAX_NOTIFY_BYTES <?
              String.length payload + String.length (entry_of first ssid) + 2)%nat eqn:Hfit.
    + apply Nat.ltb_lt in Hfit.
      exists 0. simpl. rewrite !append_nil_r. repeat split; auto; try lia.
      intros _. rewrite length_append. lia.
    + apply Nat.ltb_ge in Hfit.
      destruct (IH (payload +:+ entry_of first ssid) false) as (k & Hk & Heq & Hcap & Hstop).
      exists (S k). repeat split.
      * simpl. lia.
      * rewrite Heq. simpl. now rewrite append_assoc.
      * intros _. apply Hcap. rewrite length_append. lia.
      * intros Hlt. simpl in Hlt.
        specialize (Hstop ltac:(lia)).
        change (firstn (S (S k)) (ssid :: rest)) with (ssid :: firstn (S k) rest).
        simpl entries_text. rewrite <- append_assoc. exact Hstop.
Qed.

(** What the scan flow needs of the payload: whole leading entries, within
    the cap. *)
Lemma build_wifi_scan_payload_shape (ssids : list string) :
  exists k,
    build_wifi_scan_payload ssids = payload_with (firstn k ssids) /\
    String.length (payload_with (firstn k ssids)) <= 200.
Proof.
  destruct (payload_loop_takes ssids PAYLOAD_HEAD true) as (k & _ & Heq & Hcap & _).
  exists k.
  assert (Hbuild : build_wifi_scan_payload ssids = payload_with (firstn k ssids)).
  { unfold build_wifi_scan_payload, payload_with.
    rewrite Heq, <- entries_text_concat. now rewrite append_assoc. }
  split; [exact Hbuild |].
  rewrite <- Hbuild. unfold build_wifi_scan_payload. rewrite length_append.
  specialize (Hcap ltac:(vm_compute; lia)).
  change (String.length PAYLOAD_TAIL) with 2. unfold MAX_NOTIFY_BYTES in Hcap. lia.
Qed.

(** C3. The scan-result payload never exceeds 200 bytes, closing bracket and
    brace included; it carries the first [k] names of the list, whole and in
    order, every shorter selection fits as well, and if a name is left out
    then the payload with that next name added would exceed 200 bytes. *)
Theorem build_wifi_scan_payload_capped (ssids : list string) :
  exists k,
    k <= length ssids /\
    build_wifi_scan_payload ssids = payload_with (firstn k ssids) /\
    String.length (build_wifi_scan_payload ssids) <= 200 /\
    (forall j, j <= k -> String.length (payload_with (firstn j ssids)) <= 200) /\
    (k < length ssids -> 200 < String.length (payload_with (firstn (S k) ssids))).
Proof.
  destruct (payload_loop_takes ssids PAYLOAD_HEAD true) as (k & Hk & Heq & Hcap & Hstop).
  assert (Hlen : String.length (build_wifi_scan_payload ssids) <= 200).
  { unfold build_wifi_scan_payload. rewrite length_append.
    specialize (Hcap ltac:(vm_compute; lia)).
    change (String.length PAYLOAD_TAIL) with 2. unfold MAX_NOTIFY_BYTES in Hcap. lia. }
  assert (Hbuild : build_wifi_scan_payload ssids = payload_with (firstn k ssids)).
  { unfold build_wifi_scan_payload, payload_with.
    rewrite Heq, <- entries_text_concat. now rewrite append_assoc. }
  exists k. repeat split; auto.
  - intros j Hj. rewrite Hbuild, payload_with_length in Hlen.
    rewrite payload_with_length.
    pose proof (entries_text_firstn_mono true ssids j k Hj). lia.
  - intros Hlt. specialize (Hstop Hlt).
    rewrite payload_with_length.
    rewrite length_append in Hstop. unfold MAX_NOTIFY_BYTES in Hstop. lia.
Qed.

End PayloadFacts.

(** ** Wi-Fi scan: deduplication and ranking *)

Lemma is_empty_true s : is_empty s = true <-> s = EmptyString.
Proof. destruct s; simpl; split; congruence. Qed.

Lemma best_strength_loop_sound aps : forall (m : gmap string Z) s v,
  best_strength_loop aps m !! s = Some v ->
  m !! s = Some v \/ (s <> EmptyString /\ In (s, v) (sightings aps)).
Proof.
  induction aps as [|[ap|] rest IH]; intros m s v H; simpl in *; auto.
  destruct (is_empty (ssid_to_string (ap_ssid ap))) eqn:He.
    { destruct (IH _ _ _ H) as [|[? ?]]; auto. }
    assert (Hne : ssid_to_string (ap_ssid ap) <> EmptyString).
    { intros E. apply is_empty_true in E. congruence. }
    destruct (m !! ssid_to_string (ap_ssid ap)) as [old|] eqn:Hold.
    + destruct (old <? ap_strength ap)%Z.
      * destruct (IH _ _ _ H) as [Hm|[? ?]]; auto.
        destruct (decide (ssid_to_string (ap_ssid ap) = s)) as [<-|Hd].
        -- rewrite lookup_insert_eq in Hm. inversion Hm; subst. right. auto.
        -- rewrite lookup_insert_ne in Hm by done. auto.
      * destruct (IH _ _ _ H) as [|[? ?]]; auto.
    + destruct (IH _ _ _ H) as [Hm|[? ?]]; auto.
      destruct (decide (ssid_to_string (ap_ssid ap) = s)) as [<-|Hd].
      -- rewrite lookup_insert_eq in Hm. inversion Hm; subst. right. auto.
      -- rewrite lookup_insert_ne in Hm by done. auto.
Qed.

Lemma best_strength_loop_complete aps : forall (m : gmap string Z) s v',
  m !! s = Some v' \/ (s <> EmptyString /\ In (s, v') (sightings aps)) ->
  exists v, best_strength_loop aps m !! s = Some v /\ (v' <= v)%Z.
Proof.
  induction aps as [|[ap|] rest IH]; intros m s v' H; simpl in *.
  - destruct H as [H|[_ []]]. exists v'. split; [done | lia].
  - destruct (is_empty (ssid_to_string (ap_ssid ap))) eqn:He.
    { apply IH. destruct H as [H|[Hne [Heq|Hin]]]; auto.
      inversion Heq; subst. apply is_empty_true in He. congruence. }
    destruct (m !! ssid_to_string (ap_ssid ap)) as [old|] eqn:Hold.
    + destruct (old <? ap_strength ap)%Z eqn:Hlt.
      * apply Z.ltb_lt in Hlt.
        destruct H as [H|[Hne [Heq|Hin]]].
        -- destruct (decide (ssid_to_string (ap_ssid ap) = s)) as [<-|Hd].
           ++ assert (v' = old) by congruence. subst.
              destruct (IH (<[ssid_to_string (ap_ssid ap) := ap_strength ap]> m)
                          (ssid_to_string (ap_ssid ap)) (ap_strength ap)) as (v & Hv & Hle).
              { left. apply lookup_insert_eq. }
              exists v. split; [done | lia].
           ++ apply IH. left. rewrite lookup_insert_ne by done. done.
        -- inversion Heq; subst. apply IH. left. apply lookup_insert_eq.
        -- apply IH. auto.
      * apply Z.ltb_ge in Hlt.
        destruct H as [H|[Hne [Heq|Hin]]].
        -- apply IH. auto.
        -- inversion Heq; subst.
           destruct (IH m (ssid_to_string (ap_ssid ap)) old) as (v & Hv & Hle); auto.
           exists v. split; [done | lia].
        -- apply IH. auto.
    + destruct H as [H|[Hne [Heq|Hin]]].
      * apply IH. left.
        destruct (decide (ssid_to_string (ap_ssid ap) = s)) as [<-|Hd]; [congruence |].
        rewrite lookup_insert_ne by done. done.
      * inversion Heq; subst. apply IH. left. apply lookup_insert_eq.
      * apply IH. auto.
  - apply IH. auto.
Qed.

(** After the loop, the map holds for each non-empty name its strongest
    sighting and nothing else. *)
Lemma best_strength_loop_strongest aps s v :
  best_strength_loop aps ∅ !! s = Some v <->
  s <> EmptyString /\ strongest (sightings aps) s v.
Proof.
  split.
  - intros H.
    destruct (best_strength_loop_sound aps ∅ s v H) as [He|[Hne Hin]].
    { rewrite lookup_empty in He. discriminate. }
    split; [done |]. split; [done |].
    intros v' Hin'.
    destruct (best_strength_loop_complete aps ∅ s v') as (v2 & Hv2 & Hle); auto.
    congruence.
  - intros [Hne [Hin Hmax]].
    destruct (best_strength_loop_complete aps ∅ s v) as (v2 & Hv2 & Hle); auto.
    destruct (best_strength_loop_sound aps ∅ s v2 Hv2) as [He|[_ Hin2]].
    { rewrite lookup_empty in He. discriminate. }
    specialize (Hmax v2 Hin2). assert (v2 = v) by lia. congruence.
Qed.

Lemma StronglySorted_weaken {A} (R S : A -> A -> Prop) (l : list A) :
  (forall a b, R a b -> S a b) -> StronglySorted R l -> StronglySorted S l.
Proof.
  intros HRS H. induction H as [|a l Hl IH Hall]; constructor; auto.
  eapply Forall_impl; eauto.
Qed.

(** The comparator of the scan is a strict weak ordering, as [std::sort]
    requires of it. *)
Lemma stronger_first_strict_weak : strict_weak_order stronger_first.
Proof.
  unfold stronger_first. split.
  - intros a. rewrite Z.gtb_ltb. apply Z.ltb_irrefl.
  - intros a b c. rewrite !Z.gtb_ltb, !Z.ltb_lt. lia.
  - intros a b c. rewrite !Z.gtb_ltb, !Z.ltb_ge. lia.
Qed.

(** Sorted with respect to the comparator of the scan: strengths never
    increase. *)
Lemma sorted_by_stronger_first (l : list (string * Z)) :
  sorted_by stronger_first l -> StronglySorted (fun a b => (snd b <= snd a)%Z) l.
Proof.
  apply StronglySorted_weaken. intros a b H. unfold stronger_first in H.
  rewrite Z.gtb_ltb in H. now apply Z.ltb_ge in H.
Qed.

Section ScanRanking.

Variable std_sort :
  (string * Z -> string * Z -> bool) -> list (string * Z) -> list (string * Z).

(** The contract of [std::sort(first, last, comp)], for whatever comparator
    it is called with: if [comp] induces a strict weak ordering, the result
    is a rearrangement of the input that is sorted with respect to [comp]. *)
Hypothesis std_sort_permutes :
  forall comp l, strict_weak_order comp -> std_sort comp l ≡ₚ l.
Hypothesis std_sort_sorts :
  forall comp l, strict_weak_order comp -> sorted_by comp (std_sort comp l).

Lemma rank_access_points_ranked (aps : list (option NMAccessPoint)) :
  exists ranked : list (string * Z),
    rank_access_points std_sort aps = map fst ranked /\
    NoDup (map fst ranked) /\
    (forall s v, In (s, v) ranked <-> s <> EmptyString /\ strongest (sightings aps) s v) /\
    StronglySorted (fun a b => (snd b <= snd a)%Z) ranked.
Proof.
  set (best := best_strength_loop aps ∅).
  exists (std_sort stronger_first (map_in_key_order best)).
  assert (Hperm : std_sort stronger_first (map_in_key_order best) ≡ₚ map_to_list best).
  { rewrite std_sort_permutes by exact stronger_first_strict_weak.
    apply merge_sort_Permutation. }
  split; [reflexivity |]. split; [| split].
  - change (map fst) with (fmap (M := list) (@fst string Z)).
    rewrite Hperm. apply NoDup_fst_map_to_list.
  - intros s v. rewrite <- list_elem_of_In, Hperm, elem_of_map_to_list.
    apply best_strength_loop_strongest.
  - apply sorted_by_stronger_first, std_sort_sorts, stronger_first_strict_weak.
Qed.

(** C5. When the scan reaches the enumeration and NetworkManager reports the
    access points [aps], the returned names are the first components of a
    ranking in which every name occurs once, a pair (name, strength) occurs
    exactly when the name is non-empty and the strength is the strongest one
    observed for that name, and strengths never increase along the list.
    The order comes from the comparator the scan hands to [std::sort],
    [stronger_first], under the contract the standard gives [std::sort]
    for any comparator. *)
Theorem scan_ssids_ranked (nm : NMEnv) (w : World) (wifi : NMDevice)
    (aps : list (option NMAccessPoint)) :
  g_scan_busy w = false ->
  nm_client_new_ok nm = true ->
  first_wifi_device (default [] (nm_devices nm)) = Some wifi ->
  dev_access_points wifi = Some aps ->
  exists ranked : list (string * Z),
    fst (scan_ssids std_sort nm w) = map fst ranked /\
    NoDup (map fst ranked) /\
    (forall s v, In (s, v) ranked <-> s <> EmptyString /\ strongest (sightings aps) s v) /\
    StronglySorted (fun a b => (snd b <= snd a)%Z) ranked.
Proof.
  intros Hbusy Hclient Hwifi Haps.
  destruct (rank_access_points_ranked aps) as (ranked & Heq & Hrest).
  exists ranked. split; [| exact Hrest].
  unfold scan_ssids, ScanBusyGuard_acquire. rewrite Hbusy. simpl.
  unfold scan_body. rewrite Hclient. simpl. rewrite Hwifi, Haps. simpl. exact Heq.
Qed.

End ScanRanking.


(** Merge sort on [not_after comp] meets the contract of [std::sort]. *)
Lemma not_after_total (comp : string * Z -> string * Z -> bool) :
  strict_weak_order comp -> Total (not_after comp).
Proof.
  intros [Hirr Htr _] a b. unfold not_after.
  destruct (comp b a) eqn:Hba; [| now left].
  destruct (comp a b) eqn:Hab; [| now right].
  pose proof (Htr a b a Hab Hba) as H. rewrite Hirr in H. discriminate.
Qed.

Lemma not_after_transitive (comp : string * Z -> string * Z -> bool) :
  strict_weak_order comp -> Transitive (not_after comp).
Proof.
  intros [Hirr Htr Heq] a b c. unfold not_after. intros Hba Hcb.
  destruct (comp c a) eqn:Hca; [| reflexivity].
  destruct (comp a b) eqn:Hab.
  { pose proof (Htr c a b Hca Hab). congruence. }
  destruct (comp b c) eqn:Hbc.
  { pose proof (Htr b c a Hbc Hca). congruence. }
  destruct (Heq a b c Hab Hba Hbc Hcb) as [_ H]. congruence.
Qed.

Lemma sample_sort_permutes comp l : strict_weak_order comp -> sample_sort comp l ≡ₚ l.
Proof. intros _. apply merge_sort_Permutation. Qed.

Lemma sample_sort_sorts comp l :
  strict_weak_order comp -> sorted_by comp (sample_sort comp l).
Proof.
  intros Hswo. unfold sorted_by, sample_sort.
  pose proof (not_after_total comp Hswo) as Htot.
  pose proof (not_after_transitive comp Hswo) as Htrans.
  apply (StronglySorted_merge_sort (not_after comp)).
Qed.

Lemma scan_ssids_ranked_witness :
  exists ranked : list (string * Z),
    fst (scan_ssids sample_sort sample_nm initial_world) = map fst ranked /\
    NoDup (map fst ranked) /\
    (forall s v, In (s, v) ranked <->
                 s <> EmptyString /\ strongest (sightings sample_aps) s v) /\
    StronglySorted (fun a b => (snd b <= snd a)%Z) ranked.
Proof.
  apply (scan_ssids_ranked sample_sort sample_sort_permutes sample_sort_sorts
           sample_nm initial_world sample_wlan0 sample_aps); reflexivity.
Defined.

Example scan_ssids_scenario_A :
  fst (scan_ssids sample_sort sample_nm initial_world) = ["HomeNet"; "Cafe"].
Proof. vm_compute. reflexivity. Qed.

(** ** C strings *)

Lemma c_str_append (a b : string) : c_str a = a -> c_str (a +:+ b) = a +:+ c_str b.
Proof.
  induction a as [|x a IH]; intros H; [reflexivity |].
  rewrite append_cons. simpl in *.
  destruct (Ascii.eqb x NUL); [discriminate |].
  injection H as H. now rewrite IH.
Qed.

Lemma c_str_append_free (a b : string) :
  c_str a = a -> c_str b = b -> c_str (a +:+ b) = a +:+ b.
Proof. intros Ha Hb. now rewrite c_str_append, Hb. Qed.

Lemma escape_byte_nul_free (c : ascii) : c_str (Escape.escape_byte c) = Escape.escape_byte c.
Proof.
  unfold Escape.escape_byte.
  repeat match goal with
         | |- context [if ?b then _ else _] => destruct b eqn:?; try reflexivity
         end.
  simpl. destruct (Ascii.eqb c NUL) eqn:E; [| reflexivity].
  apply Ascii.eqb_eq in E. subst. discriminate.
Qed.

Lemma json_escape_nul_free (s : string) :
  c_str (Escape.json_escape s) = Escape.json_escape s.
Proof.
  induction s as [|c rest IH]; [reflexivity |].
  rewrite EscapeFacts.json_escape_cons.
  apply c_str_append_free; [apply escape_byte_nul_free | exact IH].
Qed.

Create HintDb nul.
#[local] Hint Resolve json_escape_nul_free c_str_append_free : nul.

Lemma entries_text_nul_free (first : bool) (names : list string) :
  c_str (Payload.entries_text first names) = Payload.entries_text first names.
Proof.
  revert first. induction names as [|n rest IH]; intros first; [reflexivity |].
  simpl. unfold Payload.entry_of.
  repeat apply c_str_append_free; auto with nul; destruct first; reflexivity.
Qed.

Lemma payload_with_nul_free (names : list string) :
  c_str (Payload.payload_with names) = Payload.payload_with names.
Proof.
  unfold Payload.payload_with. rewrite <- PayloadFacts.entries_text_concat.
  repeat apply c_str_append_free; auto using entries_text_nul_free; reflexivity.
Qed.

Lemma connected_payload_nul_free (ssid ip : string) :
  c_str (connected_payload ssid ip) = connected_payload ssid ip.
Proof.
  unfold connected_payload.
  repeat apply c_str_append_free; auto with nul; reflexivity.
Qed.

Lemma make_state_payload_json (S : string) :
  In S STATES -> make_state_payload S = state_json S.
Proof.
  intros H. simpl in H.
  repeat (destruct H as [<-|H]; [reflexivity |]). destruct H.
Qed.

(** ** notify_characteristic_value *)

Lemma ctx_novalue_emit (ctx : CharContext) :
  ctx_novalue (fst (emit_value_changed ctx)) = ctx_novalue ctx.
Proof.
  destruct ctx as [? ? ? ? ? ? ? bus ? [v|]]; destruct bus; reflexivity.
Qed.

Lemma fmap_insert_same {A B} (f : A -> B) (m : gmap string A) (p : string) (x y : A) :
  m !! p = Some x -> f y = f x -> f <$> <[p := y]> m = f <$> m.
Proof.
  intros Hp Hf. rewrite fmap_insert, Hf.
  apply insert_id. now rewrite lookup_fmap, Hp.
Qed.

Section Notify.

Variables (path : string) (value : ay) (w : World).

Let w' := notify_characteristic_value path (Some value) w.

Lemma notify_g_state : g_state w' = g_state w.
Proof.
  subst w'. unfold notify_characteristic_value. simpl.
  destruct (g_chars w !! path) as [ctx|]; [| reflexivity].
  destruct (notifying ctx); [| reflexivity]. simpl.
  destruct (emit_value_changed _). reflexivity.
Qed.

Lemma notify_g_scan_busy : g_scan_busy w' = g_scan_busy w.
Proof.
  subst w'. unfold notify_characteristic_value. simpl.
  destruct (g_chars w !! path) as [ctx|]; [| reflexivity].
  destruct (notifying ctx); [| reflexivity]. simpl.
  destruct (emit_value_changed _). reflexivity.
Qed.

Lemma notify_novalue : ctx_novalue <$> g_chars w' = ctx_novalue <$> g_chars w.
Proof.
  subst w'. unfold notify_characteristic_value. simpl.
  destruct (g_chars w !! path) as [ctx|] eqn:Hp; [| reflexivity].
  destruct (notifying ctx); [| reflexivity]. simpl.
  pose proof (ctx_novalue_emit (set_value_ay (Some value) ctx)) as He.
  destruct (emit_value_changed _) as [ctx' evs]. simpl in *.
  eapply fmap_insert_same; eauto.
Qed.

Lemma notify_trace :
  trace w' =
  trace w ++ EvNotify path value ::
    match g_chars w !! path with
    | Some ctx => if notifying ctx && system_bus ctx
                  then [EvPropertiesChanged (object_path ctx) value]
                  else []
    | None => []
    end.
Proof.
  subst w'. unfold notify_characteristic_value. simpl.
  destruct (g_chars w !! path) as [ctx|] eqn:Hp; [| reflexivity].
  destruct (notifying ctx); [| reflexivity]. simpl.
  unfold emit_value_changed. simpl.
  destruct (system_bus ctx); simpl.
  - now rewrite <- app_assoc.
  - now rewrite app_nil_r.
Qed.

End Notify.

(** ** Views of the characteristic table *)

Lemma novalue_lookup (w w' : World) (p : string) :
  ctx_novalue <$> g_chars w' = ctx_novalue <$> g_chars w ->
  ctx_novalue <$> (g_chars w' !! p) = ctx_novalue <$> (g_chars w !! p).
Proof. intros H. rewrite <- !lookup_fmap. now rewrite H. Qed.

Lemma subscribed_novalue (p : string) (w w' : World) :
  ctx_novalue <$> g_chars w' = ctx_novalue <$> g_chars w ->
  subscribed p w' = subscribed p w.
Proof.
  intros H. apply (novalue_lookup _ _ p) in H. unfold subscribed.
  destruct (g_chars w' !! p) as [c'|], (g_chars w !! p) as [c|]; simpl in H;
    try discriminate; [| reflexivity].
  assert (Hc : ctx_novalue c' = ctx_novalue c) by congruence.
  change (notifying c') with (notifying (ctx_novalue c')).
  change (system_bus c') with (system_bus (ctx_novalue c')).
  now rewrite Hc.
Qed.

Lemma identity_view_novalue (w w' : World) :
  ctx_novalue <$> g_chars w' = ctx_novalue <$> g_chars w ->
  identity_view w' = identity_view w.
Proof.
  intros H. unfold identity_view.
  change ctx_identity with (set_notifying false ∘ ctx_novalue).
  rewrite !(map_fmap_compose ctx_novalue (set_notifying false)). now rewrite H.
Qed.

Lemma announce_novalue (w w' : World) (v : ay) :
  ctx_novalue <$> g_chars w' = ctx_novalue <$> g_chars w ->
  announce w' v = announce w v.
Proof. intros H. unfold announce. now rewrite (subscribed_novalue _ _ _ H). Qed.

(** The State characteristic in any world whose tree is the exported one. *)
Lemma exported_state_char (w : World) :
  identity_view w = identity_view boot_world ->
  exists ctx, g_chars w !! CHR_STATE = Some ctx /\
    object_path ctx = CHR_STATE /\ system_bus ctx = true /\
    read_cb ctx = Some on_read_state_cb /\
    notify_cb ctx = Some on_state_notify_cb /\
    write_cb ctx = None.
Proof.
  intros H. apply (f_equal (fun m => m !! CHR_STATE)) in H.
  unfold identity_view at 1 in H. rewrite lookup_fmap in H.
  set (rhs := identity_view boot_world !! CHR_STATE) in H.
  vm_compute in rhs. subst rhs.
  destruct (g_chars w !! CHR_STATE) as [ctx|]; [| discriminate].
  exists ctx. split; [reflexivity |].
  destruct ctx. simpl in H. injection H as -> -> -> -> -> -> -> ->.
  repeat split; reflexivity.
Qed.

Lemma exported_command_char (w : World) :
  identity_view w = identity_view boot_world ->
  exists ctx, g_chars w !! CHR_COMMAND = Some ctx /\
    read_cb ctx = None /\ notify_cb ctx = None /\
    write_cb ctx = Some on_write_command_cb.
Proof.
  intros H. apply (f_equal (fun m => m !! CHR_COMMAND)) in H.
  unfold identity_view at 1 in H. rewrite lookup_fmap in H.
  set (rhs := identity_view boot_world !! CHR_COMMAND) in H.
  vm_compute in rhs. subst rhs.
  destruct (g_chars w !! CHR_COMMAND) as [ctx|]; [| discriminate].
  exists ctx. split; [reflexivity |].
  destruct ctx. simpl in H. injection H as -> -> -> -> -> -> -> ->.
  repeat split; reflexivity.
Qed.

(** ** Frames *)

Lemma extends_by_refl (w : World) : extends_by [] w w.
Proof. unfold extends_by. now rewrite app_nil_r. Qed.

Lemma extends_by_trans (e1 e2 : list Event) (w w1 w2 : World) :
  extends_by e1 w w1 -> extends_by e2 w1 w2 -> extends_by (e1 ++ e2) w w2.
Proof.
  intros (Hs1 & Hc1 & Hb1 & Ht1) (Hs2 & Hc2 & Hb2 & Ht2).
  unfold extends_by. rewrite Hs2, Hc2, Hb2, Ht2, Hs1, Hc1, Hb1, Ht1.
  now rewrite app_assoc.
Qed.

(** One notification on State, in a world with the exported tree. *)
Lemma notify_state_char (w : World) (v : ay) :
  identity_view w = identity_view boot_world ->
  extends_by (announce w v) w (notify_characteristic_value CHR_STATE (Some v) w).
Proof.
  intros Hid. destruct (exported_state_char w Hid) as (ctx & Hctx & Hpath & Hbus & _).
  repeat split.
  - apply notify_g_state.
  - apply notify_novalue.
  - apply notify_g_scan_busy.
  - rewrite notify_trace. unfold announce, subscribed. rewrite Hctx, Hpath. reflexivity.
Qed.

Section Flows.

Variable std_sort :
  (string * Z -> string * Z -> bool) -> list (string * Z) -> list (string * Z).

Lemma scan_ssids_frame (nm : NMEnv) (w : World) :
  exists calls, extends_by (map EvNM calls) w (snd (scan_ssids std_sort nm w)).
Proof.
  unfold scan_ssids, ScanBusyGuard_acquire.
  destruct (g_scan_busy w) eqn:Hb; simpl.
  { exists []. apply extends_by_refl. }
  unfold scan_body. simpl.
  destruct (nm_client_new_ok nm); simpl.
  2:{ exists [NmClientNew]. unfold extends_by. simpl. auto. }
  destruct (first_wifi_device _) as [wifi|]; simpl.
  2:{ exists [NmClientNew; NmClientGetDevices]. unfold extends_by. simpl.
      rewrite <- app_assoc. auto. }
  exists [NmClientNew; NmClientGetDevices; NmDeviceWifiRequestScan;
          NmDeviceWifiGetAccessPoints].
  destruct (dev_access_points wifi); unfold extends_by; simpl;
    rewrite <- !app_assoc; auto.
Qed.

Lemma connect_frame (ssid psk : string) (nm : NMEnv) (w : World) :
  exists calls, extends_by (map EvNM calls) w (snd (connect ssid psk nm w)).
Proof.
  unfold connect.
  destruct (nm_client_new_ok nm); simpl.
  2:{ exists [NmClientNew]. unfold extends_by. simpl. auto. }
  destruct (first_wifi_device _) as [wifi|]; simpl.
  - eexists [NmClientNew; NmClientGetDevices; NmClientAddAndActivateConnection2 _].
    unfold extends_by. simpl. rewrite <- !app_assoc. auto.
  - exists [NmClientNew; NmClientGetDevices]. unfold extends_by. simpl.
    rewrite <- app_assoc. auto.
Qed.

Lemma connect_result_world (ssid psk : string) (nm : NMEnv) (w w0 : World) :
  fst (connect ssid psk nm w) = fst (connect ssid psk nm w0).
Proof.
  unfold connect. destruct (nm_client_new_ok nm); simpl; [| reflexivity].
  destruct (first_wifi_device _); reflexivity.
Qed.

Lemma extends_by_identity (evs : list Event) (w w' : World) :
  extends_by evs w w' -> identity_view w' = identity_view w.
Proof. intros (_ & H & _). now apply identity_view_novalue. Qed.

Lemma extends_by_announce (evs : list Event) (w w' : World) (v : ay) :
  extends_by evs w w' -> announce w' v = announce w v.
Proof. intros (_ & H & _). now apply announce_novalue. Qed.

(** The scan flow, event by event. *)
Lemma handle_wifi_scan_request_trace (nm : NMEnv) (w : World) :
  identity_view w = identity_view boot_world ->
  exists (ssids : list string) (calls : list NMCall),
    let w' := handle_wifi_scan_request std_sort nm w in
    g_state w' = "SCAN_COMPLETE" /\
    ctx_novalue <$> g_chars w' = ctx_novalue <$> g_chars w /\
    g_scan_busy w' = g_scan_busy w /\
    trace w' = trace w ++
      announce w (state_json "SCANNING") ++
      map EvNM calls ++
      announce w (list_ascii_of_string (Payload.payload_with ssids)) ++
      announce w (state_json "SCAN_COMPLETE") /\
    String.length (Payload.payload_with ssids) <= 200.
Proof.
  intros Hid. unfold handle_wifi_scan_request, notify_state.
  set (w1 := set_g_state "SCANNING" w).
  assert (H1 : identity_view w1 = identity_view boot_world) by exact Hid.
  pose proof (notify_state_char w1 (make_state_payload (g_state w1)) H1) as E2.
  set (w2 := notify_characteristic_value CHR_STATE _ w1) in *.
  destruct (scan_ssids_frame nm w2) as (calls & E3).
  destruct (scan_ssids std_sort nm w2) as [found w3] eqn:Hscan. simpl in E3.
  destruct (PayloadFacts.build_wifi_scan_payload_shape found) as (k & Hpay & Hlen).
  assert (H3 : identity_view w3 = identity_view boot_world).
  { rewrite (extends_by_identity _ _ _ E3), (extends_by_identity _ _ _ E2). exact H1. }
  pose proof (notify_state_char w3
                (make_ay_from_string (Payload.build_wifi_scan_payload found)) H3) as E4.
  set (w4 := notify_characteristic_value CHR_STATE _ w3) in *.
  set (w5 := set_g_state "SCAN_COMPLETE" w4).
  assert (H5 : identity_view w5 = identity_view boot_world).
  { change (identity_view w5) with (identity_view w4).
    rewrite (extends_by_identity _ _ _ E4). exact H3. }
  pose proof (notify_state_char w5 (make_state_payload (g_state w5)) H5) as E6.
  set (w6 := notify_characteristic_value CHR_STATE _ w5) in *.
  exists (firstn k found), calls. lazy zeta.
  pose proof (extends_by_trans _ _ _ _ _ E2 E3) as E23.
  pose proof (extends_by_trans _ _ _ _ _ E23 E4) as E234.
  destruct E234 as (Hs4 & Hc4 & Hb4 & Ht4).
  destruct E6 as (Hs6 & Hc6 & Hb6 & Ht6).
  repeat split.
  - rewrite Hs6. reflexivity.
  - rewrite Hc6. exact Hc4.
  - rewrite Hb6. exact Hb4.
  - rewrite Ht6. change (trace w5) with (trace w4). rewrite Ht4.
    change (trace w1) with (trace w).
    change (announce w5) with (announce w4).
    rewrite (announce_novalue w w4) by exact Hc4.
    rewrite (extends_by_announce _ _ _ _ (extends_by_trans _ _ _ _ _ E2 E3)).
    change (announce w1) with (announce w).
    unfold make_ay_from_string. rewrite Hpay, payload_with_nul_free.
    change (make_state_payload (g_state w1)) with (state_json "SCANNING").
    change (make_state_payload (g_state w5)) with (state_json "SCAN_COMPLETE").
    rewrite <- !app_assoc. reflexivity.
  - exact Hlen.
Qed.

(** The connect flow, event by event. *)
Lemma handle_wifi_connect_request_trace (ssid psk : string) (nm : NMEnv) (w : World) :
  identity_view w = identity_view boot_world ->
  exists calls : list NMCall,
    let w' := handle_wifi_connect_request ssid psk nm w in
    let accepted := ConnectResult_eqb (fst (connect ssid psk nm w)) REQUESTED in
    g_state w' = (if accepted then "CONNECTING" else "UNCONFIGURED") /\
    ctx_novalue <$> g_chars w' = ctx_novalue <$> g_chars w /\
    g_scan_busy w' = g_scan_busy w /\
    trace w' = trace w ++
      announce w (state_json "CONNECTING") ++
      map EvNM calls ++
      (if accepted then [] else announce w (state_json "UNCONFIGURED")).
Proof.
  intros Hid. unfold handle_wifi_connect_request, notify_state.
  set (w1 := set_g_state "CONNECTING" w).
  assert (H1 : identity_view w1 = identity_view boot_world) by exact Hid.
  pose proof (notify_state_char w1 (make_state_payload (g_state w1)) H1) as E2.
  set (w2 := notify_characteristic_value CHR_STATE _ w1) in *.
  destruct (connect_frame ssid psk nm w2) as (calls & E3).
  rewrite (connect_result_world ssid psk nm w w2).
  destruct (connect ssid psk nm w2) as [result w3]. simpl in E3.
  exists calls. lazy zeta. simpl fst.
  pose proof (extends_by_trans _ _ _ _ _ E2 E3) as (Hs3 & Hc3 & Hb3 & Ht3).
  change (make_state_payload (g_state w1)) with (state_json "CONNECTING") in *.
  change (announce w1) with (announce w) in *.
  destruct (ConnectResult_eqb result REQUESTED); cbn [negb].
  - repeat split; auto. rewrite Ht3. now rewrite app_nil_r.
  - set (w4 := set_g_state "UNCONFIGURED" w3).
    assert (H4 : identity_view w4 = identity_view boot_world).
    { change (identity_view w4) with (identity_view w3).
      rewrite (identity_view_novalue _ _ Hc3). exact H1. }
    destruct (notify_state_char w4 (make_state_payload (g_state w4)) H4)
      as (Hs5 & Hc5 & Hb5 & Ht5).
    repeat split.
    + rewrite Hs5. reflexivity.
    + rewrite Hc5. exact Hc3.
    + rewrite Hb5. exact Hb3.
    + rewrite Ht5. change (trace w4) with (trace w3). rewrite Ht3.
      change (announce w4) with (announce w3).
      rewrite (announce_novalue w w3) by exact Hc3.
      change (make_state_payload (g_state w4)) with (state_json "UNCONFIGURED").
      rewrite <- !app_assoc. reflexivity.
Qed.

Lemma notify_state_connected_trace (ssid ip : string) (w : World) :
  identity_view w = identity_view boot_world ->
  let w' := notify_state_connected ssid ip w in
  g_state w' = "CONNECTED" /\
  ctx_novalue <$> g_chars w' = ctx_novalue <$> g_chars w /\
  g_scan_busy w' = g_scan_busy w /\
  trace w' = trace w ++ announce w (list_ascii_of_string (connected_payload ssid ip)).
Proof.
  intros Hid. unfold notify_state_connected.
  set (w1 := set_g_state "CONNECTED" w).
  assert (H1 : identity_view w1 = identity_view boot_world) by exact Hid.
  destruct (notify_state_char w1
              (make_ay_from_string (connected_payload ssid ip)) H1)
    as (Hs & Hc & Hb & Ht).
  lazy zeta. repeat split; auto.
  rewrite Ht. unfold make_ay_from_string. now rewrite connected_payload_nul_free.
Qed.

(** The IPv4-ready handler acts on the live Wi-Fi status alone. *)
Lemma on_ipv4_ready_trace (nm : NMEnv) (w : World) :
  identity_view w = identity_view boot_world ->
  exists calls : list NMCall,
    let w' := on_ipv4_ready nm w in
    ctx_novalue <$> g_chars w' = ctx_novalue <$> g_chars w /\
    g_scan_busy w' = g_scan_busy w /\
    match live_wifi nm with
    | Some (ssid, ip) =>
      g_state w' = "CONNECTED" /\
      trace w' = trace w ++ map EvNM calls ++
                 announce w (list_ascii_of_string (connected_payload ssid ip))
    | None =>
      g_state w' = g_state w /\ trace w' = trace w ++ map EvNM calls
    end.
Proof.
  intros Hid. unfold on_ipv4_ready, live_wifi.
  destruct (nm_client_new_ok nm); simpl.
  2:{ exists [NmClientNew]. simpl. auto. }
  destruct (device_by_iface "wlan0" _) as [dev|]; simpl.
  2:{ exists [NmClientNew; NmClientGetDeviceByIface "wlan0"]. simpl.
      rewrite <- app_assoc. auto. }
  destruct (dev_is_wifi dev); simpl.
  2:{ exists [NmClientNew; NmClientGetDeviceByIface "wlan0"]. simpl.
      rewrite <- app_assoc. auto. }
  exists [NmClientNew; NmClientGetDeviceByIface "wlan0";
          NmDeviceWifiGetActiveAccessPoint; NmDeviceGetIp4Config].
  destruct (is_empty (first_ip4 dev)); simpl.
  - rewrite <- !app_assoc. auto.
  - match goal with
    | |- context [notify_state_connected ?s ?i ?w0] =>
      destruct (notify_state_connected_trace s i w0 Hid) as (Hs & Hc & Hb & Ht)
    end.
    repeat split; auto. rewrite Ht. simpl. rewrite <- !app_assoc. reflexivity.
Qed.

(** ** The invariant of the running daemon *)

Lemma in_STATES_dec (S : string) :
  In S STATES <-> bool_decide (S ∈ STATES) = true.
Proof.
  rewrite bool_decide_eq_true. symmetry. apply list_elem_of_In.
Qed.

Lemma handle_wifi_scan_request_ok (nm : NMEnv) (w : World) :
  world_ok w -> world_ok (handle_wifi_scan_request std_sort nm w).
Proof.
  intros (Hid & Hbusy & _).
  destruct (handle_wifi_scan_request_trace nm w Hid)
    as (ssids & calls & Hs & Hc & Hb & _).
  repeat split.
  - rewrite (identity_view_novalue _ _ Hc). exact Hid.
  - rewrite Hb. exact Hbusy.
  - rewrite Hs. apply in_STATES_dec. reflexivity.
Qed.

Lemma handle_wifi_connect_request_ok (ssid psk : string) (nm : NMEnv) (w : World) :
  world_ok w -> world_ok (handle_wifi_connect_request ssid psk nm w).
Proof.
  intros (Hid & Hbusy & _).
  destruct (handle_wifi_connect_request_trace ssid psk nm w Hid)
    as (calls & Hs & Hc & Hb & _).
  repeat split.
  - rewrite (identity_view_novalue _ _ Hc). exact Hid.
  - rewrite Hb. exact Hbusy.
  - rewrite Hs. destruct (ConnectResult_eqb _ _); apply in_STATES_dec; reflexivity.
Qed.

Lemma on_ipv4_ready_ok (nm : NMEnv) (w : World) :
  world_ok w -> world_ok (on_ipv4_ready nm w).
Proof.
  intros (Hid & Hbusy & Hst).
  destruct (on_ipv4_ready_trace nm w Hid) as (calls & Hc & Hb & Hlive).
  repeat split.
  - rewrite (identity_view_novalue _ _ Hc). exact Hid.
  - rewrite Hb. exact Hbusy.
  - destruct (live_wifi nm) as [[ssid ip]|]; destruct Hlive as [Hs _]; rewrite Hs.
    + apply in_STATES_dec. reflexivity.
    + exact Hst.
Qed.

Lemma on_write_command_ok (value : ay) (nm : NMEnv) (w : World) :
  world_ok w -> world_ok (on_write_command std_sort value nm w).
Proof.
  intros Hok. unfold on_write_command.
  destruct (is_empty (ay_to_string value)); [exact Hok |].
  destruct (String.eqb (resolve_op _) "wifi_scan").
  { now apply handle_wifi_scan_request_ok. }
  destruct (String.eqb (resolve_op _) "wifi_connect"); [| exact Hok].
  destruct (is_empty (Parser.json_get_string _ "ssid")); [exact Hok |].
  now apply handle_wifi_connect_request_ok.
Qed.

Lemma store_notifying_identity (path : string) (b : bool) (w : World) :
  identity_view (store_notifying path b w) = identity_view w.
Proof.
  unfold identity_view, store_notifying. simpl.
  apply map_eq. intros p. rewrite !lookup_fmap.
  destruct (decide (path = p)) as [<-|Hne].
  - rewrite lookup_alter_eq. destruct (g_chars w !! path); reflexivity.
  - now rewrite lookup_alter_ne.
Qed.

Lemma store_notifying_ok (path : string) (b : bool) (w : World) :
  world_ok w -> world_ok (store_notifying path b w).
Proof.
  intros (Hid & Hbusy & Hst). repeat split; auto.
  rewrite store_notifying_identity. exact Hid.
Qed.

Lemma on_method_call_ok (path : string) (method : Method) (nm : NMEnv) (w : World) :
  world_ok w -> world_ok (fst (on_method_call std_sort path method nm w)).
Proof.
  intros Hok. unfold on_method_call.
  destruct (g_chars w !! path) as [ctx|]; [| exact Hok].
  destruct method as [|value| | |name]; simpl.
  - destruct (read_cb ctx); exact Hok.
  - destruct (write_cb ctx) as [[]|]; [| exact Hok].
    simpl. now apply on_write_command_ok.
  - destruct (notify_cb ctx) as [[]|]; simpl.
    + apply on_ipv4_ready_ok. now apply store_notifying_ok.
    + now apply store_notifying_ok.
  - destruct (notify_cb ctx) as [[]|]; simpl; now apply store_notifying_ok.
  - exact Hok.
Qed.

Lemma boot_is_boot_world : boot = Some boot_world.
Proof. reflexivity. Qed.

(** The undisturbed start-up is the one in which no callback runs early. *)
Lemma boot_is_startup : startup [] [] [] = boot.
Proof. reflexivity. Qed.

Lemma boot_world_ok : world_ok boot_world.
Proof. repeat split. apply in_STATES_dec. reflexivity. Qed.

(** An IPv4-ready callback that runs while nobody is subscribed to State
    changes the provisioning state at most, and emits nothing. *)
Lemma on_ipv4_ready_unsubscribed (nm : NMEnv) (w : World) :
  state_unsubscribed w ->
  let w' := on_ipv4_ready nm w in
  g_chars w' = g_chars w /\
  g_scan_busy w' = g_scan_busy w /\
  g_state w' = (if finds_address nm then "CONNECTED" else g_state w) /\
  exists evs, trace w' = trace w ++ evs /\ silent evs.
Proof.
  intros Hun. unfold on_ipv4_ready, finds_address, live_wifi.
  destruct (nm_client_new_ok nm); simpl.
  2:{ repeat split. eexists. split; [reflexivity |]. repeat constructor. }
  destruct (device_by_iface "wlan0" _) as [dev|]; simpl.
  2:{ repeat split. eexists. rewrite <- app_assoc. split; [reflexivity |].
      repeat constructor. }
  destruct (dev_is_wifi dev); simpl.
  2:{ repeat split. eexists. rewrite <- app_assoc. split; [reflexivity |].
      repeat constructor. }
  destruct (is_empty (first_ip4 dev)); simpl.
  { repeat split. eexists. rewrite <- !app_assoc. split; [reflexivity |].
    repeat constructor. }
  unfold notify_state_connected, notify_characteristic_value. simpl.
  destruct (g_chars w !! CHR_STATE) as [ctx|] eqn:Hctx.
  - rewrite (Hun ctx Hctx). simpl. repeat split.
    eexists. rewrite <- !app_assoc. split; [reflexivity |]. repeat constructor.
  - repeat split.
    eexists. simpl. rewrite <- !app_assoc. split; [reflexivity |]. repeat constructor.
Qed.

Lemma deliver_unsubscribed (early : list NMEnv) (w : World) :
  state_unsubscribed w ->
  let w' := deliver early w in
  g_chars w' = g_chars w /\
  g_scan_busy w' = g_scan_busy w /\
  g_state w' = (if existsb finds_address early then "CONNECTED" else g_state w) /\
  exists evs, trace w' = trace w ++ evs /\ silent evs.
Proof.
  revert w. induction early as [|nm early IH]; intros w Hun.
  { repeat split. exists []. rewrite app_nil_r. split; [reflexivity | constructor]. }
  destruct (on_ipv4_ready_unsubscribed nm w Hun) as (Hc & Hb & Hs & evs & Ht & Hq).
  assert (Hun1 : state_unsubscribed (on_ipv4_ready nm w)).
  { unfold state_unsubscribed. rewrite Hc. exact Hun. }
  destruct (IH _ Hun1) as (Hc2 & Hb2 & Hs2 & evs2 & Ht2 & Hq2).
  cbn [deliver fold_left existsb] in *. fold (deliver early (on_ipv4_ready nm w)) in *.
  rewrite Hc2, Hb2, Hs2, Ht2, Hc, Hb, Hs, Ht.
  repeat split.
  - destruct (finds_address nm); simpl; [| reflexivity].
    destruct (existsb finds_address early); reflexivity.
  - exists (evs ++ evs2). rewrite app_assoc. split; [reflexivity |].
    apply Forall_app; split; assumption.
Qed.

(** The state in which State is exported: CONNECTED exactly when a callback
    that ran before found an address. *)
Lemma exported_state_cases (e0 e1 : list NMEnv) :
  exported_state e0 e1 =
  (if existsb finds_address (e0 ++ e1) then "CONNECTED" else "UNCONFIGURED").
Proof.
  unfold exported_state, state_export_world, export_device_info, export_characteristic.
  simpl.
  assert (H0 : state_unsubscribed initial_world) by (intros ctx H; discriminate).
  destruct (deliver_unsubscribed e0 initial_world H0) as (Hc0 & _ & Hs0 & _).
  match goal with |- g_state (deliver e1 ?w) = _ => set (w1 := w) end.
  assert (H1 : state_unsubscribed w1).
  { intros ctx H. unfold w1 in H. simpl in H. rewrite Hc0 in H. discriminate. }
  destruct (deliver_unsubscribed e1 w1 H1) as (_ & _ & Hs1 & _).
  rewrite Hs1. unfold w1. simpl. rewrite Hs0, existsb_app.
  destruct (existsb finds_address e0), (existsb finds_address e1); reflexivity.
Qed.

(** The world the dispatcher starts from, whatever ran before the loop: the
    tree is the one of the undisturbed start-up, State holds the payload of
    the state it was exported in, nobody is subscribed and nothing was
    emitted. *)
Lemma startup_shape (e0 e1 e2 : list NMEnv) (w0 : World) :
  startup e0 e1 e2 = Some w0 ->
  identity_view w0 = identity_view boot_world /\
  g_scan_busy w0 = false /\
  g_state w0 =
    (if existsb finds_address (e0 ++ e1 ++ e2) then "CONNECTED" else "UNCONFIGURED") /\
  (ctx ← g_chars w0 !! CHR_STATE; value_ay ctx) =
    Some (state_json (exported_state e0 e1)) /\
  other_caches_inv w0 /\
  silent (trace w0).
Proof.
  intros Hstart.
  pose proof (exported_state_cases e0 e1) as Hexp.
  unfold exported_state in *.
  unfold startup, state_export_world, export_state, export_device_info, export_command,
    export_characteristic in *.
  simpl in *.
  assert (H0 : state_unsubscribed initial_world) by (intros ctx H; discriminate).
  destruct (deliver_unsubscribed e0 initial_world H0) as (Hc0 & Hb0 & Hs0 & ev0 & Ht0 & Hq0).
  match type of Hexp with g_state (deliver e1 ?w) = _ => set (w1 := w) in * end.
  assert (H1 : state_unsubscribed w1).
  { intros ctx H. unfold w1 in H. simpl in H. rewrite Hc0 in H. discriminate. }
  destruct (deliver_unsubscribed e1 w1 H1) as (Hc1 & Hb1 & Hs1 & ev1 & Ht1 & Hq1).
  set (w1' := deliver e1 w1) in *.
  match type of Hstart with context [deliver e2 ?w] => set (w2 := w) in * end.
  assert (H2 : state_unsubscribed w2).
  { intros ctx H. unfold w2 in H. simpl in H.
    rewrite lookup_insert_eq in H. injection H as <-. reflexivity. }
  destruct (deliver_unsubscribed e2 w2 H2) as (Hc2 & Hb2 & Hs2 & ev2 & Ht2 & Hq2).
  injection Hstart as <-. unfold other_caches_inv, identity_view. simpl.
  rewrite Hc2, Hb2, Hs2, Ht2. unfold w2. simpl.
  fold w1'. rewrite Hc1, Hb1, Ht1. unfold w1. simpl. rewrite Hc0, Hb0, Ht0. simpl.
  split; [| split; [| split; [| split; [| split]]]].
  - rewrite !fmap_insert. reflexivity.
  - reflexivity.
  - rewrite Hs1. unfold w1. simpl. rewrite Hs0. simpl. rewrite !existsb_app.
    destruct (existsb finds_address e0), (existsb finds_address e1),
      (existsb finds_address e2); reflexivity.
  - rewrite lookup_insert_ne by discriminate. rewrite lookup_insert_eq. simpl.
    unfold on_read_state. f_equal. apply make_state_payload_json.
    rewrite Hexp. destruct (existsb _ _); simpl; tauto.
  - split.
    + rewrite lookup_insert_ne by discriminate. rewrite lookup_insert_ne by discriminate.
      rewrite lookup_insert_eq. reflexivity.
    + rewrite lookup_insert_eq. reflexivity.
  - unfold silent in *. rewrite !Forall_app. auto.
Qed.

Lemma startup_ok (e0 e1 e2 : list NMEnv) (w : World) :
  startup e0 e1 e2 = Some w -> world_ok w.
Proof.
  intros H. destruct (startup_shape e0 e1 e2 w H) as (Hid & Hb & Hs & _).
  split; [exact Hid |]. split; [exact Hb |].
  rewrite Hs. destruct (existsb _ _); simpl; tauto.
Qed.

(** Every world the daemon can be in satisfies the invariant. *)
Lemma reachable_ok (w : World) : reachable std_sort w -> world_ok w.
Proof.
  induction 1 as [w e0 e1 e2 Hstart | w i nm _ IH].
  - exact (startup_ok e0 e1 e2 w Hstart).
  - destruct i as [path method|]; simpl.
    + now apply on_method_call_ok.
    + now apply on_ipv4_ready_ok.
Qed.

End Flows.

(** ** Trace projections *)

Lemma notifications_on_app (p : string) (a b : list Event) :
  notifications_on p (a ++ b) = notifications_on p a ++ notifications_on p b.
Proof. apply omap_app. Qed.

Lemma emissions_on_app (p : string) (a b : list Event) :
  emissions_on p (a ++ b) = emissions_on p a ++ emissions_on p b.
Proof. apply omap_app. Qed.

Lemma notifications_on_nm (p : string) (calls : list NMCall) :
  notifications_on p (map EvNM calls) = [].
Proof. induction calls; [reflexivity | exact IHcalls]. Qed.

Lemma emissions_on_nm (p : string) (calls : list NMCall) :
  emissions_on p (map EvNM calls) = [].
Proof. induction calls; [reflexivity | exact IHcalls]. Qed.

Lemma notifications_on_announce (w : World) (v : ay) :
  notifications_on CHR_STATE (announce w v) = [v].
Proof. unfold announce. destruct (subscribed CHR_STATE w); reflexivity. Qed.

Lemma emissions_on_announce (w : World) (v : ay) :
  emissions_on CHR_STATE (announce w v) = if subscribed CHR_STATE w then [v] else [].
Proof. unfold announce. destruct (subscribed CHR_STATE w); reflexivity. Qed.

(** ** Command parsing *)

Lemma is_empty_false (s : string) : is_empty s = false <-> s <> EmptyString.
Proof. destruct s; simpl; split; intros; congruence. Qed.

Lemma resolve_op_primary (payload : string) :
  Parser.json_get_string payload "op" <> EmptyString ->
  resolve_op payload = Parser.json_get_string payload "op".
Proof.
  intros H. unfold resolve_op. apply is_empty_false in H. now rewrite H.
Qed.

Lemma resolve_op_legacy (payload : string) :
  Parser.json_get_string payload "op" = EmptyString ->
  resolve_op payload =
    (if String.eqb (Parser.json_get_string payload "cmd") "wifi.scan" then "wifi_scan"
     else if String.eqb (Parser.json_get_string payload "cmd") "wifi.connect"
          then "wifi_connect"
          else EmptyString).
Proof. intros H. unfold resolve_op. rewrite H. reflexivity. Qed.

Lemma resolve_op_nonempty_payload (payload : string) :
  resolve_op payload <> EmptyString -> is_empty payload = false.
Proof.
  intros H. destruct payload; [| reflexivity]. exfalso. apply H. reflexivity.
Qed.

Section Commands.

Variable std_sort :
  (string * Z -> string * Z -> bool) -> list (string * Z) -> list (string * Z).

(** What a write does is fixed by the resolved op and, for a connect, by the
    extracted ssid and psk. *)
Lemma on_write_command_by_op (a b : ay) (nm : NMEnv) (w : World) :
  resolve_op (ay_to_string a) = resolve_op (ay_to_string b) ->
  resolve_op (ay_to_string a) <> EmptyString ->
  (resolve_op (ay_to_string a) = "wifi_connect" ->
   Parser.json_get_string (ay_to_string a) "ssid" =
   Parser.json_get_string (ay_to_string b) "ssid" /\
   Parser.json_get_string (ay_to_string a) "psk" =
   Parser.json_get_string (ay_to_string b) "psk") ->
  on_write_command std_sort a nm w = on_write_command std_sort b nm w.
Proof.
  intros Hop Hne Hargs. unfold on_write_command.
  rewrite (resolve_op_nonempty_payload _ Hne).
  rewrite Hop in Hne. rewrite (resolve_op_nonempty_payload _ Hne).
  rewrite <- Hop.
  destruct (String.eqb (resolve_op (ay_to_string a)) "wifi_scan"); [reflexivity |].
  destruct (String.eqb (resolve_op (ay_to_string a)) "wifi_connect") eqn:Hc;
    [| reflexivity].
  apply String.eqb_eq in Hc. destruct (Hargs Hc) as [-> ->]. reflexivity.
Qed.

(** C9. With an absent or empty op, [cmd = "wifi.scan"] is dispatched exactly
    as [op = "wifi_scan"] is and [cmd = "wifi.connect"] exactly as
    [op = "wifi_connect"] with the same ssid and psk is; and two writes with
    the same non-empty op (and the same ssid and psk) are dispatched alike
    whatever their cmd fields say. *)
Theorem legacy_cmd_alias :
  (forall (legacy modern : ay) (nm : NMEnv) (w : World),
     Parser.json_get_string (ay_to_string legacy) "op" = EmptyString ->
     Parser.json_get_string (ay_to_string legacy) "cmd" = "wifi.scan" ->
     Parser.json_get_string (ay_to_string modern) "op" = "wifi_scan" ->
     on_write_command std_sort legacy nm w = on_write_command std_sort modern nm w) /\
  (forall (legacy modern : ay) (nm : NMEnv) (w : World),
     Parser.json_get_string (ay_to_string legacy) "op" = EmptyString ->
     Parser.json_get_string (ay_to_string legacy) "cmd" = "wifi.connect" ->
     Parser.json_get_string (ay_to_string modern) "op" = "wifi_connect" ->
     Parser.json_get_string (ay_to_string legacy) "ssid" =
     Parser.json_get_string (ay_to_string modern) "ssid" ->
     Parser.json_get_string (ay_to_string legacy) "psk" =
     Parser.json_get_string (ay_to_string modern) "psk" ->
     on_write_command std_sort legacy nm w = on_write_command std_sort modern nm w) /\
  (forall (a b : ay) (nm : NMEnv) (w : World),
     Parser.json_get_string (ay_to_string a) "op" <> EmptyString ->
     Parser.json_get_string (ay_to_string a) "op" =
     Parser.json_get_string (ay_to_string b) "op" ->
     Parser.json_get_string (ay_to_string a) "ssid" =
     Parser.json_get_string (ay_to_string b) "ssid" ->
     Parser.json_get_string (ay_to_string a) "psk" =
     Parser.json_get_string (ay_to_string b) "psk" ->
     on_write_command std_sort a nm w = on_write_command std_sort b nm w).
Proof.
  split; [| split].
  - intros legacy modern nm w Hop Hcmd Hmod.
    assert (Hl : resolve_op (ay_to_string legacy) = "wifi_scan").
    { rewrite resolve_op_legacy, Hcmd by exact Hop. reflexivity. }
    assert (Hm : resolve_op (ay_to_string modern) = "wifi_scan").
    { rewrite resolve_op_primary; rewrite Hmod; [reflexivity | discriminate]. }
    apply on_write_command_by_op.
    + now rewrite Hl, Hm.
    + rewrite Hl. discriminate.
    + rewrite Hl. discriminate.
  - intros legacy modern nm w Hop Hcmd Hmod Hssid Hpsk.
    assert (Hl : resolve_op (ay_to_string legacy) = "wifi_connect").
    { rewrite resolve_op_legacy, Hcmd by exact Hop. reflexivity. }
    assert (Hm : resolve_op (ay_to_string modern) = "wifi_connect").
    { rewrite resolve_op_primary; rewrite Hmod; [reflexivity | discriminate]. }
    apply on_write_command_by_op.
    + now rewrite Hl, Hm.
    + rewrite Hl. discriminate.
    + intros _. now split.
  - intros a b nm w Hne Hop Hssid Hpsk.
    assert (Ha : resolve_op (ay_to_string a) = Parser.json_get_string (ay_to_string a) "op")
      by now apply resolve_op_primary.
    assert (Hb : resolve_op (ay_to_string b) = Parser.json_get_string (ay_to_string b) "op").
    { apply resolve_op_primary. now rewrite <- Hop. }
    apply on_write_command_by_op.
    + now rewrite Ha, Hb.
    + now rewrite Ha.
    + intros _. now split.
Qed.

(** C8. A write whose op resolves to wifi_connect while the extracted ssid
    is empty leaves the world as it was: the connect handler is not entered,
    the provisioning state keeps its value, and the trace gains no
    notification, bus emission or NetworkManager call. *)
Theorem wifi_connect_without_ssid (value : ay) (nm : NMEnv) (w : World) :
  resolve_op (ay_to_string value) = "wifi_connect" ->
  Parser.json_get_string (ay_to_string value) "ssid" = EmptyString ->
  on_write_command std_sort value nm w = w.
Proof.
  intros Hop Hssid. unfold on_write_command.
  destruct (is_empty (ay_to_string value)); [reflexivity |].
  rewrite Hop, Hssid. reflexivity.
Qed.

(** A write to Command in a running daemon runs [on_write_command]. *)
Lemma write_command_dispatch (value : ay) (nm : NMEnv) (w : World) :
  reachable std_sort w ->
  on_method_call std_sort CHR_COMMAND (WriteValue value) nm w =
  (on_write_command std_sort value nm w, ReturnEmpty).
Proof.
  intros Hr. destruct (reachable_ok std_sort w Hr) as (Hid & _).
  destruct (exported_command_char w Hid) as (ctx & Hctx & _ & _ & Hwr).
  unfold on_method_call. rewrite Hctx, Hwr. reflexivity.
Qed.

(** C1, with the subscription guard of the code.  A write to Command whose
    op is wifi_scan makes the handler notify State three times, in this
    order: [{"state":"SCANNING"}], one SSID-list payload of at most 200
    bytes, [{"state":"SCAN_COMPLETE"}].  While a central is subscribed to
    State exactly these three are emitted on the bus, in that order; while
    none is subscribed nothing is emitted.  The provisioning state
    afterwards is SCAN_COMPLETE either way. *)
Theorem wifi_scan_flow (value : ay) (nm : NMEnv) (w : World) :
  reachable std_sort w ->
  Parser.json_get_string (ay_to_string value) "op" = "wifi_scan" ->
  let w' := dispatch std_sort (MethodCall CHR_COMMAND (WriteValue value)) nm w in
  exists ssids : list string,
    let three := [state_json "SCANNING";
                  list_ascii_of_string (Payload.payload_with ssids);
                  state_json "SCAN_COMPLETE"] in
    String.length (Payload.payload_with ssids) <= 200 /\
    notifications_on CHR_STATE (trace w') = notifications_on CHR_STATE (trace w) ++ three /\
    emissions_on CHR_STATE (trace w') =
      emissions_on CHR_STATE (trace w) ++ (if subscribed CHR_STATE w then three else []) /\
    g_state w' = "SCAN_COMPLETE".
Proof.
  intros Hr Hop. simpl. rewrite write_command_dispatch by exact Hr. simpl.
  assert (Hres : resolve_op (ay_to_string value) = "wifi_scan").
  { rewrite resolve_op_primary; rewrite Hop; [reflexivity | discriminate]. }
  unfold on_write_command.
  rewrite resolve_op_nonempty_payload by (rewrite Hres; discriminate).
  rewrite Hres. change (String.eqb "wifi_scan" "wifi_scan") with true. cbv iota.
  destruct (reachable_ok std_sort w Hr) as (Hid & _).
  destruct (handle_wifi_scan_request_trace std_sort nm w Hid)
    as (ssids & calls & Hs & _ & _ & Ht & Hlen).
  exists ssids. repeat split.
  - exact Hlen.
  - rewrite Ht. rewrite !notifications_on_app, !notifications_on_announce,
      notifications_on_nm. reflexivity.
  - rewrite Ht. rewrite !emissions_on_app, !emissions_on_announce, emissions_on_nm.
    destruct (subscribed CHR_STATE w); reflexivity.
  - exact Hs.
Qed.

(** C4, with the subscription guard of the code.  A wifi_connect write with
    a non-empty ssid first sets the state to CONNECTING and notifies
    [{"state":"CONNECTING"}], then submits the request to NetworkManager; if
    [connect] returns anything other than REQUESTED the state goes back to
    UNCONFIGURED and [{"state":"UNCONFIGURED"}] is notified, otherwise the
    state stays CONNECTING and nothing more is notified.  Each of these
    notifications is emitted on the bus while a central is subscribed to
    State, and none is while no central is subscribed. *)
Theorem wifi_connect_flow (value : ay) (nm : NMEnv) (w : World) :
  reachable std_sort w ->
  resolve_op (ay_to_string value) = "wifi_connect" ->
  Parser.json_get_string (ay_to_string value) "ssid" <> EmptyString ->
  let ssid := Parser.json_get_string (ay_to_string value) "ssid" in
  let psk := Parser.json_get_string (ay_to_string value) "psk" in
  let w' := dispatch std_sort (MethodCall CHR_COMMAND (WriteValue value)) nm w in
  let accepted := ConnectResult_eqb (fst (connect ssid psk nm w)) REQUESTED in
  exists calls : list NMCall,
    trace w' = trace w ++
      announce w (state_json "CONNECTING") ++
      map EvNM calls ++
      (if accepted then [] else announce w (state_json "UNCONFIGURED")) /\
    notifications_on CHR_STATE (trace w') =
      notifications_on CHR_STATE (trace w) ++
      state_json "CONNECTING" :: (if accepted then [] else [state_json "UNCONFIGURED"]) /\
    emissions_on CHR_STATE (trace w') =
      emissions_on CHR_STATE (trace w) ++
      (if subscribed CHR_STATE w
       then state_json "CONNECTING" :: (if accepted then [] else [state_json "UNCONFIGURED"])
       else []) /\
    g_state w' = (if accepted then "CONNECTING" else "UNCONFIGURED").
Proof.
  intros Hr Hop Hssid. simpl. rewrite write_command_dispatch by exact Hr. simpl.
  unfold on_write_command.
  rewrite resolve_op_nonempty_payload by (rewrite Hop; discriminate).
  rewrite Hop. change (String.eqb "wifi_connect" "wifi_scan") with false.
  change (String.eqb "wifi_connect" "wifi_connect") with true. cbv iota.
  apply is_empty_false in Hssid. rewrite Hssid.
  destruct (reachable_ok std_sort w Hr) as (Hid & _).
  destruct (handle_wifi_connect_request_trace
              (Parser.json_get_string (ay_to_string value) "ssid")
              (Parser.json_get_string (ay_to_string value) "psk") nm w Hid)
    as (calls & Hs & _ & _ & Ht).
  exists calls. repeat split.
  - exact Ht.
  - rewrite Ht. rewrite !notifications_on_app, notifications_on_announce,
      notifications_on_nm.
    destruct (ConnectResult_eqb _ _); [reflexivity |].
    now rewrite notifications_on_announce.
  - rewrite Ht. rewrite !emissions_on_app, emissions_on_announce, emissions_on_nm.
    destruct (ConnectResult_eqb _ _).
    + destruct (subscribed CHR_STATE w); reflexivity.
    + rewrite emissions_on_announce. destruct (subscribed CHR_STATE w); reflexivity.
  - exact Hs.
Qed.

(** ** Subscription and reads *)

Lemma store_notifying_subscribed (w : World) :
  identity_view w = identity_view boot_world ->
  subscribed CHR_STATE (store_notifying CHR_STATE true w) = true.
Proof.
  intros Hid. destruct (exported_state_char w Hid) as (ctx & Hctx & _ & Hbus & _).
  unfold subscribed, store_notifying. simpl.
  rewrite lookup_alter_eq, Hctx. simpl. now rewrite Hbus.
Qed.

(** StartNotify on State in a running daemon: set the flag, then run the
    IPv4-ready handler. *)
Lemma start_notify_dispatch (nm : NMEnv) (w : World) :
  reachable std_sort w ->
  on_method_call std_sort CHR_STATE StartNotify nm w =
  (on_ipv4_ready nm (store_notifying CHR_STATE true w), ReturnEmpty).
Proof.
  intros Hr. destruct (reachable_ok std_sort w Hr) as (Hid & _).
  destruct (exported_state_char w Hid) as (ctx & Hctx & _ & _ & _ & Hnf & _).
  unfold on_method_call. rewrite Hctx, Hnf. reflexivity.
Qed.

(** C2, as the code has it.  StartNotify on State subscribes the central and
    then acts on the live Wi-Fi status, not on the stored provisioning
    state: if wlan0 has a non-empty first IPv4 address, the state becomes
    CONNECTED and exactly one CONNECTED notification with the SSID and
    address read at that moment is emitted; otherwise the state is left
    unchanged and nothing is emitted. *)
Theorem start_notify_reports_live_wifi (nm : NMEnv) (w : World) :
  reachable std_sort w ->
  let w' := dispatch std_sort (MethodCall CHR_STATE StartNotify) nm w in
  subscribed CHR_STATE w' = true /\
  match live_wifi nm with
  | Some (ssid, ip) =>
    g_state w' = "CONNECTED" /\
    notifications_on CHR_STATE (trace w') =
      notifications_on CHR_STATE (trace w) ++
      [list_ascii_of_string (connected_payload ssid ip)] /\
    emissions_on CHR_STATE (trace w') =
      emissions_on CHR_STATE (trace w) ++
      [list_ascii_of_string (connected_payload ssid ip)]
  | None =>
    g_state w' = g_state w /\
    notifications_on CHR_STATE (trace w') = notifications_on CHR_STATE (trace w) /\
    emissions_on CHR_STATE (trace w') = emissions_on CHR_STATE (trace w)
  end.
Proof.
  intros Hr. simpl. rewrite start_notify_dispatch by exact Hr. simpl.
  destruct (reachable_ok std_sort w Hr) as (Hid & _).
  set (w1 := store_notifying CHR_STATE true w).
  assert (H1 : identity_view w1 = identity_view boot_world).
  { unfold w1. rewrite store_notifying_identity. exact Hid. }
  assert (Hsub : subscribed CHR_STATE w1 = true) by now apply store_notifying_subscribed.
  destruct (on_ipv4_ready_trace nm w1 H1) as (calls & Hc & _ & Hlive).
  split.
  { rewrite (subscribed_novalue _ _ _ Hc). exact Hsub. }
  change (trace w1) with (trace w) in Hlive.
  change (g_state w1) with (g_state w) in Hlive.
  destruct (live_wifi nm) as [[ssid ip]|]; destruct Hlive as [Hs Ht];
    (split; [exact Hs |]); rewrite Ht.
  - rewrite !notifications_on_app, !emissions_on_app, notifications_on_nm,
      emissions_on_nm, notifications_on_announce, emissions_on_announce, Hsub.
    split; reflexivity.
  - rewrite !notifications_on_app, !emissions_on_app, notifications_on_nm,
      emissions_on_nm, !app_nil_r.
    split; reflexivity.
Qed.

(** C10. In every reachable world the provisioning state is one of the five
    and ReadValue on State returns exactly [{"state":"S"}] for the current
    state S, leaving the world as it was; the CONNECTED notification, which
    carries ssid and ip, is never equal to what a read returns. *)
Theorem read_state_returns_state_json (nm : NMEnv) (w : World) :
  reachable std_sort w ->
  In (g_state w) STATES /\
  on_method_call std_sort CHR_STATE ReadValue nm w =
    (w, ReturnValue (state_json (g_state w))) /\
  (forall ssid ip : string,
     list_ascii_of_string (connected_payload ssid ip) <> state_json "CONNECTED").
Proof.
  intros Hr. destruct (reachable_ok std_sort w Hr) as (Hid & _ & Hst).
  destruct (exported_state_char w Hid) as (ctx & Hctx & _ & _ & Hrd & _).
  split; [exact Hst |]. split.
  - unfold on_method_call. rewrite Hctx, Hrd. simpl. unfold on_read_state.
    now rewrite make_state_payload_json.
  - intros ssid ip H. unfold connected_payload, state_json in H.
    rewrite !list_ascii_of_string_append in H.
    apply (f_equal (fun l => nth_error l 20)) in H.
    vm_compute in H. discriminate.
Qed.

End Commands.

(** ** The scan busy guard *)

Section BusyGuard.

Variable std_sort :
  (string * Z -> string * Z -> bool) -> list (string * Z) -> list (string * Z).

Lemma scan_body_keeps_flag (nm : NMEnv) (w : World) :
  g_scan_busy (snd (scan_body std_sort nm w)) = g_scan_busy w.
Proof.
  unfold scan_body. destruct (nm_client_new_ok nm); simpl; [| reflexivity].
  destruct (first_wifi_device _) as [wifi|]; simpl; [| reflexivity].
  destruct (dev_access_points wifi); reflexivity.
Qed.

(** C6. An invocation of [scan_ssids] that finds the busy flag held returns
    the empty list and leaves the world untouched: no call into
    NetworkManager, the flag still held by its owner.  An invocation that
    finds the flag free holds it throughout its body and, whatever
    NetworkManager answers, has released it when it returns, so that the
    next invocation acquires it. *)
Theorem scan_busy_guard (nm : NMEnv) (w : World) :
  (g_scan_busy w = true ->
   scan_ssids std_sort nm w = ([], w) /\
   nm_calls (trace (snd (scan_ssids std_sort nm w))) = nm_calls (trace w)) /\
  (g_scan_busy w = false ->
   let held := snd (ScanBusyGuard_acquire w) in
   let after := snd (scan_ssids std_sort nm w) in
   g_scan_busy held = true /\
   g_scan_busy (snd (scan_body std_sort nm held)) = true /\
   g_scan_busy after = false /\
   fst (ScanBusyGuard_acquire after) = true).
Proof.
  split; intros Hb.
  - unfold scan_ssids, ScanBusyGuard_acquire. rewrite Hb. split; reflexivity.
  - unfold scan_ssids, ScanBusyGuard_acquire. rewrite Hb. simpl.
    rewrite scan_body_keeps_flag. simpl.
    destruct (scan_body std_sort nm (set_g_scan_busy true w)) as [result w1].
    simpl. auto.
Qed.

(** *** Invocations side by side *)

Lemma holders_insert (ts : list ScanThread) (i : nat) (t t' : ScanThread) :
  ts !! i = Some t ->
  holders (<[i := t']> ts) + Nat.b2n (holds_flag t) =
  holders ts + Nat.b2n (holds_flag t').
Proof.
  revert i. induction ts as [|x ts IH]; intros [|i] H; simpl in *; try discriminate.
  - injection H as ->. unfold holders. simpl. lia.
  - specialize (IH i H). unfold holders in *. simpl. lia.
Qed.

Lemma holders_none (ts : list ScanThread) :
  Forall (fun t => holds_flag t = false) ts -> holders ts = 0.
Proof.
  induction 1 as [|t ts Ht _ IH]; [reflexivity |].
  unfold holders in *. simpl. rewrite Ht, IH. reflexivity.
Qed.

Lemma guard_inv_step (s s' : list ScanThread * World) :
  guard_inv s -> sys_step std_sort s s' -> guard_inv s'.
Proof.
  intros [Hcount Hlost] Hstep.
  destruct Hstep as [ts w i t t' w' Hi Ht]. simpl in *.
  pose proof (holders_insert ts i t t' Hi) as Hins.
  assert (Hlost_t : forall r, th_phase t = Leaving false r -> r = []).
  { rewrite Forall_forall in Hlost. eapply Hlost, list_elem_of_lookup_2, Hi. }
  unfold thread_step in Ht. unfold holds_flag in Hins at 1.
  destruct (th_phase t) as [| |acquired result|result] eqn:Hph.
  - unfold ScanBusyGuard_acquire in Ht.
    destruct (g_scan_busy w) eqn:Hb; injection Ht as <- <-; split; simpl in *;
      rewrite ?Hb in *.
    + unfold holds_flag in Hins. simpl in Hins. unfold Nat.b2n in *. lia.
    + apply Forall_insert; [exact Hlost |]. simpl. intros r [= <-]. reflexivity.
    + unfold holds_flag in Hins. simpl in Hins. unfold Nat.b2n in *. lia.
    + apply Forall_insert; [exact Hlost |]. simpl. discriminate.
  - pose proof (scan_body_keeps_flag (th_nm t) w) as Hkeep.
    destruct (scan_body std_sort (th_nm t) w) as [result w1].
    injection Ht as <- <-. simpl in *. split; simpl.
    + unfold holds_flag in Hins. simpl in Hins. rewrite Hkeep. lia.
    + apply Forall_insert; [exact Hlost |]. simpl. discriminate.
  - injection Ht as <- <-. split; simpl.
    + unfold holds_flag in Hins. simpl in Hins.
      destruct acquired; simpl in *.
      * destruct (g_scan_busy w); simpl in *; lia.
      * lia.
    + apply Forall_insert; [exact Hlost |]. simpl. discriminate.
  - discriminate.
Qed.

(** X7. From a start in which nobody has entered and the flag is free, at most
    one invocation holds the flag at any time, the flag is set exactly
    then, and it is free again once all have returned. *)
Lemma scan_threads_exclusive (ts0 ts : list ScanThread) (w0 w : World) :
  Forall (fun t => th_phase t = Entering) ts0 ->
  g_scan_busy w0 = false ->
  sys_run std_sort (ts0, w0) (ts, w) ->
  holders ts = Nat.b2n (g_scan_busy w) /\
  holders ts <= 1 /\
  (Forall (fun t => has_returned t = true) ts -> g_scan_busy w = false).
Proof.
  intros Hall Hfree Hrun.
  assert (Hinv : guard_inv (ts, w)).
  { remember (ts0, w0) as s0 eqn:E0. remember (ts, w) as s eqn:E.
    clear E. clear ts w. induction Hrun as [s|s1 s2 s3 _ IH Hstep].
    - subst s. split; simpl.
      + rewrite Hfree. apply holders_none.
        eapply Forall_impl; [exact Hall |]. intros t Ht. unfold holds_flag.
        now rewrite Ht.
      + eapply Forall_impl; [exact Hall |]. intros t Ht r Hr. congruence.
    - eapply guard_inv_step; eauto. }
  destruct Hinv as [Hcount _]. simpl in Hcount.
  split; [exact Hcount |]. split.
  - rewrite Hcount. destruct (g_scan_busy w); simpl; lia.
  - intros Hret. assert (H0 : holders ts = 0).
    { apply holders_none. eapply Forall_impl; [exact Hret |].
      intros t Ht. unfold has_returned, holds_flag in *.
      destruct (th_phase t); try discriminate. reflexivity. }
    rewrite H0 in Hcount. destruct (g_scan_busy w); [discriminate | reflexivity].
Qed.

(** One invocation run alone through its three steps is [scan_ssids]. *)
Lemma scan_ssids_steps (nm : NMEnv) (w : World) :
  exists t1 w1 t2 w2 t3 w3,
    thread_step std_sort {| th_nm := nm; th_phase := Entering |} w = Some (t1, w1) /\
    (th_phase t1 = Scanning /\ thread_step std_sort t1 w1 = Some (t2, w2) \/
     th_phase t1 = Leaving false [] /\ (t2, w2) = (t1, w1)) /\
    thread_step std_sort t2 w2 = Some (t3, w3) /\
    th_phase t3 = Returned (fst (scan_ssids std_sort nm w)) /\
    w3 = snd (scan_ssids std_sort nm w).
Proof.
  unfold scan_ssids, thread_step. simpl.
  unfold ScanBusyGuard_acquire.
  destruct (g_scan_busy w); simpl.
  - do 6 eexists. split; [reflexivity |]. split; [right; split; reflexivity |].
    simpl. split; [reflexivity |]. split; reflexivity.
  - destruct (scan_body std_sort nm (set_g_scan_busy true w)) as [result w1] eqn:Hbody.
    do 6 eexists. split; [reflexivity |]. split.
    { left. split; [reflexivity |]. simpl. rewrite Hbody. reflexivity. }
    simpl. split; [reflexivity |]. split; reflexivity.
Qed.

End BusyGuard.

(** ** Concrete runs *)

Lemma boot_world_reachable : reachable sample_sort boot_world.
Proof. apply (reachable_boot sample_sort boot_world [] [] []). reflexivity. Qed.

Lemma subscribed_world_reachable : reachable sample_sort subscribed_world.
Proof. apply reachable_step, boot_world_reachable. Qed.

Lemma connected_world_reachable : reachable sample_sort connected_world.
Proof. apply reachable_step, boot_world_reachable. Qed.

(** Scenario A of the specification, for a subscribed central. *)
Example scenario_A_fresh_scan :
  let w' := dispatch sample_sort (MethodCall CHR_COMMAND (WriteValue sample_scan_write))
              sample_nm subscribed_world in
  emissions_on CHR_STATE (trace w') =
    [state_json "SCANNING";
     list_ascii_of_string (Payload.payload_with ["HomeNet"; "Cafe"]);
     state_json "SCAN_COMPLETE"] /\
  g_state w' = "SCAN_COMPLETE".
Proof. vm_compute. split; reflexivity. Qed.

(** Scenario F: the legacy field gives the same run. *)
Example scenario_F_legacy_scan :
  dispatch sample_sort (MethodCall CHR_COMMAND (WriteValue sample_legacy_scan_write))
    sample_nm subscribed_world =
  dispatch sample_sort (MethodCall CHR_COMMAND (WriteValue sample_scan_write))
    sample_nm subscribed_world.
Proof. vm_compute. reflexivity. Qed.

(** Scenario B: the second long name does not fit and is left out whole. *)
Example scenario_B_truncation :
  let long := String.concat EmptyString (repeat "A" 150) in
  Payload.build_wifi_scan_payload [long; long; "Cafe"] = Payload.payload_with [long].
Proof. vm_compute. reflexivity. Qed.

(** Scenarios C and D: accepted and rejected connect, subscribed central. *)
Example scenario_C_connect :
  let w1 := dispatch sample_sort (MethodCall CHR_COMMAND (WriteValue sample_connect_write))
              sample_nm subscribed_world in
  let w2 := dispatch sample_sort Ipv4Ready sample_nm w1 in
  emissions_on CHR_STATE (trace w1) = [state_json "CONNECTING"] /\
  g_state w1 = "CONNECTING" /\
  emissions_on CHR_STATE (trace w2) =
    [state_json "CONNECTING";
     list_ascii_of_string (connected_payload "HomeNet" "192.168.1.20")] /\
  g_state w2 = "CONNECTED".
Proof. vm_compute. repeat split; reflexivity. Qed.

Example scenario_D_connect_rejected :
  let w1 := dispatch sample_sort (MethodCall CHR_COMMAND (WriteValue sample_connect_write))
              sample_nm_down subscribed_world in
  emissions_on CHR_STATE (trace w1) = [state_json "CONNECTING"; state_json "UNCONFIGURED"] /\
  g_state w1 = "UNCONFIGURED".
Proof. vm_compute. split; reflexivity. Qed.

(** C1 as stated fails when no central is subscribed: the write runs the
    whole scan flow, the state ends as SCAN_COMPLETE, and nothing is emitted
    on State. *)
Lemma wifi_scan_unsubscribed_counterexample :
  let w' := dispatch sample_sort (MethodCall CHR_COMMAND (WriteValue sample_scan_write))
              sample_nm boot_world in
  reachable sample_sort boot_world /\
  Parser.json_get_string (ay_to_string sample_scan_write) "op" = "wifi_scan" /\
  g_state w' = "SCAN_COMPLETE" /\
  emissions_on CHR_STATE (trace w') = [] /\
  ~ (exists a b c : ay,
       emissions_on CHR_STATE (trace w') =
       emissions_on CHR_STATE (trace boot_world) ++ [a; b; c]).
Proof.
  split; [exact boot_world_reachable |].
  split; [reflexivity |]. split; [reflexivity |]. split; [reflexivity |].
  intros (a & b & c & H). vm_compute in H. discriminate.
Qed.

(** C4 as stated fails when no central is subscribed: the state becomes
    CONNECTING and nothing is emitted on State. *)
Lemma wifi_connect_unsubscribed_counterexample :
  let w' := dispatch sample_sort (MethodCall CHR_COMMAND (WriteValue sample_connect_write))
              sample_nm boot_world in
  reachable sample_sort boot_world /\
  resolve_op (ay_to_string sample_connect_write) = "wifi_connect" /\
  Parser.json_get_string (ay_to_string sample_connect_write) "ssid" = "HomeNet" /\
  g_state w' = "CONNECTING" /\
  emissions_on CHR_STATE (trace w') = [] /\
  ~ In (state_json "CONNECTING") (emissions_on CHR_STATE (trace w')).
Proof.
  split; [exact boot_world_reachable |].
  split; [reflexivity |]. split; [reflexivity |]. split; [reflexivity |].
  split; [reflexivity |]. intros H. vm_compute in H. exact H.
Qed.

(** C2 as stated fails in both directions.  From UNCONFIGURED with wlan0
    associated, StartNotify changes the state to CONNECTED and emits a
    CONNECTED notification; from CONNECTED with wlan0 without an address,
    StartNotify emits nothing. *)
Lemma start_notify_counterexample :
  let w1 := dispatch sample_sort (MethodCall CHR_STATE StartNotify) sample_nm boot_world in
  let w2 := dispatch sample_sort (MethodCall CHR_STATE StartNotify) sample_nm_offline
              connected_world in
  (reachable sample_sort boot_world /\
   g_state boot_world = "UNCONFIGURED" /\
   g_state w1 = "CONNECTED" /\
   emissions_on CHR_STATE (trace w1) =
     [list_ascii_of_string (connected_payload "HomeNet" "192.168.1.20")]) /\
  (reachable sample_sort connected_world /\
   g_state connected_world = "CONNECTED" /\
   g_state w2 = "CONNECTED" /\
   emissions_on CHR_STATE (trace w2) = emissions_on CHR_STATE (trace connected_world) /\
   notifications_on CHR_STATE (trace w2) =
     notifications_on CHR_STATE (trace connected_world)).
Proof.
  split.
  - split; [exact boot_world_reachable |]. vm_compute. repeat split; reflexivity.
  - split; [exact connected_world_reachable |]. vm_compute. repeat split; reflexivity.
Qed.

(** ** The theorems at concrete inputs *)

Lemma wifi_scan_flow_witness :
  let w' := dispatch sample_sort (MethodCall CHR_COMMAND (WriteValue sample_scan_write))
              sample_nm subscribed_world in
  exists ssids : list string,
    let three := [state_json "SCANNING";
                  list_ascii_of_string (Payload.payload_with ssids);
                  state_json "SCAN_COMPLETE"] in
    String.length (Payload.payload_with ssids) <= 200 /\
    notifications_on CHR_STATE (trace w') =
      notifications_on CHR_STATE (trace subscribed_world) ++ three /\
    emissions_on CHR_STATE (trace w') =
      emissions_on CHR_STATE (trace subscribed_world) ++
      (if subscribed CHR_STATE subscribed_world then three else []) /\
    g_state w' = "SCAN_COMPLETE".
Proof.
  apply (wifi_scan_flow sample_sort sample_scan_write sample_nm subscribed_world).
  - exact subscribed_world_reachable.
  - reflexivity.
Defined.

Lemma wifi_connect_flow_witness :
  let w' := dispatch sample_sort (MethodCall CHR_COMMAND (WriteValue sample_connect_write))
              sample_nm_down subscribed_world in
  exists calls : list NMCall,
    trace w' = trace subscribed_world ++
      announce subscribed_world (state_json "CONNECTING") ++
      map EvNM calls ++
      announce subscribed_world (state_json "UNCONFIGURED") /\
    notifications_on CHR_STATE (trace w') =
      notifications_on CHR_STATE (trace subscribed_world) ++
      [state_json "CONNECTING"; state_json "UNCONFIGURED"] /\
    emissions_on CHR_STATE (trace w') =
      emissions_on CHR_STATE (trace subscribed_world) ++
      (if subscribed CHR_STATE subscribed_world
       then [state_json "CONNECTING"; state_json "UNCONFIGURED"]
       else []) /\
    g_state w' = "UNCONFIGURED".
Proof.
  apply (wifi_connect_flow sample_sort sample_connect_write sample_nm_down
           subscribed_world).
  - exact subscribed_world_reachable.
  - reflexivity.
  - discriminate.
Defined.

Lemma start_notify_reports_live_wifi_witness :
  let w' := dispatch sample_sort (MethodCall CHR_STATE StartNotify) sample_nm boot_world in
  subscribed CHR_STATE w' = true /\
  g_state w' = "CONNECTED" /\
  notifications_on CHR_STATE (trace w') =
    notifications_on CHR_STATE (trace boot_world) ++
    [list_ascii_of_string (connected_payload "HomeNet" "192.168.1.20")] /\
  emissions_on CHR_STATE (trace w') =
    emissions_on CHR_STATE (trace boot_world) ++
    [list_ascii_of_string (connected_payload "HomeNet" "192.168.1.20")].
Proof.
  apply (start_notify_reports_live_wifi sample_sort sample_nm boot_world).
  exact boot_world_reachable.
Defined.

Lemma wifi_connect_without_ssid_witness :
  on_write_command sample_sort sample_connect_no_ssid_write sample_nm subscribed_world
  = subscribed_world.
Proof.
  apply (wifi_connect_without_ssid sample_sort sample_connect_no_ssid_write sample_nm
           subscribed_world); reflexivity.
Defined.

Lemma legacy_cmd_alias_witness :
  on_write_command sample_sort sample_legacy_scan_write sample_nm subscribed_world =
  on_write_command sample_sort sample_scan_write sample_nm subscribed_world /\
  on_write_command sample_sort sample_legacy_connect_write sample_nm subscribed_world =
  on_write_command sample_sort sample_connect_write sample_nm subscribed_world /\
  on_write_command sample_sort sample_mixed_write sample_nm subscribed_world =
  on_write_command sample_sort sample_scan_write sample_nm subscribed_world.
Proof.
  destruct (legacy_cmd_alias sample_sort) as (Hscan & Hconnect & Hop).
  split; [| split].
  - apply Hscan; reflexivity.
  - apply Hconnect; reflexivity.
  - apply Hop; [discriminate | reflexivity | reflexivity | reflexivity].
Defined.

Lemma read_state_returns_state_json_witness :
  In (g_state connected_world) STATES /\
  on_method_call sample_sort CHR_STATE ReadValue sample_nm connected_world =
    (connected_world, ReturnValue (state_json (g_state connected_world))) /\
  (forall ssid ip : string,
     list_ascii_of_string (connected_payload ssid ip) <> state_json "CONNECTED").
Proof.
  apply (read_state_returns_state_json sample_sort sample_nm connected_world).
  exact connected_world_reachable.
Defined.

Lemma scan_busy_guard_witness :
  (scan_ssids sample_sort sample_nm scanning_world = ([], scanning_world) /\
   nm_calls (trace (snd (scan_ssids sample_sort sample_nm scanning_world))) =
   nm_calls (trace scanning_world)) /\
  (let held := snd (ScanBusyGuard_acquire boot_world) in
   let after := snd (scan_ssids sample_sort sample_nm_down boot_world) in
   g_scan_busy held = true /\
   g_scan_busy (snd (scan_body sample_sort sample_nm_down held)) = true /\
   g_scan_busy after = false /\
   fst (ScanBusyGuard_acquire after) = true).
Proof.
  split.
  - apply (proj1 (scan_busy_guard sample_sort sample_nm scanning_world)). reflexivity.
  - apply (proj2 (scan_busy_guard sample_sort sample_nm_down boot_world)). reflexivity.
Defined.

(** ** The command parser *)

Module ParserFacts.
Import Parser.

Lemma prefix_append (n r : string) : String.prefix n (n +:+ r) = true.
Proof.
  induction n as [|c n IH]; [destruct r; reflexivity |].
  rewrite append_cons. simpl. destruct (ascii_dec c c); [exact IH | congruence].
Qed.

Lemma prefix_split (n s : string) :
  String.prefix n s = true -> exists r, s = n +:+ r.
Proof.
  revert s. induction n as [|c n IH]; intros s H.
  - exists s. reflexivity.
  - destruct s as [|x s]; [discriminate |]. simpl in H.
    destruct (ascii_dec c x) as [->|]; [| discriminate].
    destruct (IH s H) as [r ->]. exists r. reflexivity.
Qed.

Lemma skip_append (a b : string) : skip (String.length a) (a +:+ b) = b.
Proof. induction a as [|c a IH]; [reflexivity | exact IH]. Qed.

Lemma skip_split (n : nat) (s : string) :
  n <= String.length s ->
  exists a, s = a +:+ skip n s /\ String.length a = n.
Proof.
  revert s. induction n as [|n IH]; intros s Hn.
  - exists EmptyString. split; reflexivity.
  - destruct s as [|c s]; [simpl in Hn; lia |]. simpl in Hn.
    destruct (IH s ltac:(lia)) as (a & Ha & Hl).
    exists (String c a). split; [| simpl; lia].
    rewrite append_cons. simpl. now rewrite <- Ha.
Qed.

Lemma substring_skip (n m : nat) (s : string) :
  String.substring n m s = String.substring 0 m (skip n s).
Proof.
  revert s. induction n as [|n IH]; intros s; [reflexivity |].
  destruct s as [|c s]; [destruct m; reflexivity |]. simpl. apply IH.
Qed.

Lemma substring_append (a b : string) :
  String.substring 0 (String.length a) (a +:+ b) = a.
Proof.
  induction a as [|c a IH]; [destruct b; reflexivity |].
  rewrite append_cons. simpl. now rewrite IH.
Qed.

Lemma find_at_unfold (needle s : string) (off : nat) :
  find_at needle s off =
  if String.prefix needle s then Some off
  else match s with
       | EmptyString => None
       | String _ s' => find_at needle s' (S off)
       end.
Proof. destruct s; reflexivity. Qed.

(** [find_at] returns the first place where the needle starts. *)
Lemma find_at_Some (needle s : string) (off k : nat) :
  find_at needle s off = Some k ->
  exists pre post,
    s = pre +:+ needle +:+ post /\ k = off + String.length pre /\
    forall pre' post', s = pre' +:+ needle +:+ post' ->
                       String.length pre <= String.length pre'.
Proof.
  revert off. induction s as [|c s IH]; intros off H; rewrite find_at_unfold in H.
  - destruct (String.prefix needle EmptyString) eqn:Hp; [| discriminate].
    injection H as <-. destruct (prefix_split _ _ Hp) as [r Hr].
    exists EmptyString, r. repeat split; [exact Hr | simpl; lia | simpl; lia].
  - destruct (String.prefix needle (String c s)) eqn:Hp.
    + injection H as <-. destruct (prefix_split _ _ Hp) as [r Hr].
      exists EmptyString, r. repeat split; [exact Hr | simpl; lia | simpl; lia].
    + destruct (IH _ H) as (pre & post & Hs & Hk & Hmin).
      exists (String c pre), post. split; [| split].
      * rewrite append_cons. now rewrite <- Hs.
      * simpl. lia.
      * intros pre' post' E. destruct pre' as [|x pre'].
        { rewrite append_nil_l in E. rewrite E, prefix_append in Hp. discriminate. }
        rewrite append_cons in E. injection E as _ E.
        specialize (Hmin _ _ E). simpl. lia.
Qed.

Lemma find_at_None (needle s : string) (off : nat) :
  find_at needle s off = None ->
  forall pre post, s <> pre +:+ needle +:+ post.
Proof.
  revert off. induction s as [|c s IH]; intros off H pre post E;
    rewrite find_at_unfold in H.
  - destruct (String.prefix needle EmptyString) eqn:Hp; [discriminate |].
    destruct pre; [| discriminate]. rewrite append_nil_l in E.
    rewrite E, prefix_append in Hp. discriminate.
  - destruct (String.prefix needle (String c s)) eqn:Hp; [discriminate |].
    destruct pre as [|x pre].
    + rewrite append_nil_l in E. rewrite E, prefix_append in Hp. discriminate.
    + rewrite append_cons in E. injection E as _ E. exact (IH _ H _ _ E).
Qed.

(** Searching for one byte: what is skipped does not contain it. *)
Lemma find_at_byte_Some (c : ascii) (s : string) (off k : nat) :
  find_at (chr c) s off = Some k ->
  exists b rest, s = b +:+ String c rest /\ k = off + String.length b /\ lacks c b.
Proof.
  revert off. induction s as [|x s IH]; intros off H; simpl in H; [discriminate |].
  destruct (ascii_dec c x) as [->|Hne].
  - assert (Hp : String.prefix EmptyString s = true) by (destruct s; reflexivity).
    rewrite Hp in H. injection H as <-.
    exists EmptyString, s. repeat split. simpl. lia.
  - destruct (IH _ H) as (b & rest & -> & -> & Hb).
    exists (String x b), rest. repeat split; auto; simpl; lia.
Qed.

Lemma find_at_byte (c : ascii) (b rest : string) (off : nat) :
  lacks c b ->
  find_at (chr c) (b +:+ String c rest) off = Some (off + String.length b).
Proof.
  revert off. induction b as [|x b IH]; intros off Hb.
  - rewrite append_nil_l. simpl. destruct (ascii_dec c c); [| congruence].
    destruct rest; f_equal; lia.
  - destruct Hb as [Hx Hb]. rewrite append_cons. simpl.
    destruct (ascii_dec c x); [congruence |].
    rewrite IH by exact Hb. f_equal. lia.
Qed.

Lemma find_byte (c : ascii) (a b rest : string) :
  lacks c b ->
  find (chr c) (a +:+ b +:+ String c rest) (String.length a) =
  Some (String.length a + String.length b).
Proof.
  intros Hb. unfold find.
  assert (Hlen : (String.length (a +:+ b +:+ String c rest) <? String.length a)%nat = false).
  { apply Nat.ltb_ge. rewrite length_append. lia. }
  rewrite Hlen, skip_append. now apply find_at_byte.
Qed.

Lemma find_needle (pre needle post : string) :
  (forall pre' post', pre +:+ needle +:+ post = pre' +:+ needle +:+ post' ->
                      String.length pre <= String.length pre') ->
  find needle (pre +:+ needle +:+ post) 0 = Some (String.length pre).
Proof.
  intros Hfirst. unfold find. simpl.
  destruct (find_at needle (pre +:+ needle +:+ post) 0) as [k|] eqn:Hk.
  - destruct (find_at_Some _ _ _ _ Hk) as (p & q & E & -> & Hmin).
    f_equal. simpl. pose proof (Hfirst _ _ E). pose proof (Hmin _ _ eq_refl). lia.
  - exfalso. exact (find_at_None _ _ _ Hk _ _ eq_refl).
Qed.

Lemma lacks_length_pos (s : string) : s <> EmptyString -> 0 < String.length s.
Proof. destruct s; [congruence | simpl; lia]. Qed.

(** X1. Extraction inverts the encoding of one field: from a payload in
    which ["key"], optional filler, a colon, optional filler and ["value"]
    follow one another, the first occurrence of ["key"] being this one, the
    extractor returns [value], provided the value is non-empty and holds no
    double quote. *)
Theorem json_get_string_extracts (pre key ws1 ws2 value rest : string) :
  let payload := pre +:+ quoted key +:+ ws1 +:+ ":" +:+ ws2 +:+ quoted value +:+ rest in
  (forall pre' post', payload = pre' +:+ quoted key +:+ post' ->
                      String.length pre <= String.length pre') ->
  lacks ":" ws1 ->
  lacks DQUOTE ws2 ->
  lacks DQUOTE value ->
  value <> EmptyString ->
  json_get_string payload key = value.
Proof.
  intros payload Hfirst Hws1 Hws2 Hval Hne.
  set (a1 := pre +:+ quoted key).
  set (a2 := a1 +:+ ws1 +:+ ":").
  set (a3 := a2 +:+ ws2 +:+ chr DQUOTE).
  assert (E1 : payload = a1 +:+ ws1 +:+ String ":" (ws2 +:+ quoted value +:+ rest)).
  { unfold payload, a1. now rewrite !append_assoc. }
  assert (E2 : payload = a2 +:+ ws2 +:+
                         String DQUOTE (value +:+ chr DQUOTE +:+ rest)).
  { unfold payload, a2, a1, quoted. now rewrite !append_assoc. }
  assert (E3 : payload = a3 +:+ value +:+ String DQUOTE rest).
  { unfold payload, a3, a2, a1, quoted. now rewrite !append_assoc. }
  assert (L1 : String.length a1 = String.length pre + String.length (quoted key)).
  { unfold a1. apply length_append. }
  assert (L2 : String.length a2 = String.length a1 + String.length ws1 + 1).
  { unfold a2. rewrite !length_append. simpl. lia. }
  assert (L3 : String.length a3 = String.length a2 + String.length ws2 + 1).
  { unfold a3. rewrite !length_append. simpl. lia. }
  assert (F0 : find (quoted key) payload 0 = Some (String.length pre)).
  { apply find_needle. exact Hfirst. }
  assert (F1 : find ":" payload (String.length pre + String.length (quoted key)) =
               Some (String.length a1 + String.length ws1)).
  { rewrite <- L1, E1. apply find_byte. exact Hws1. }
  assert (F2 : find (chr DQUOTE) payload (String.length a1 + String.length ws1 + 1) =
               Some (String.length a2 + String.length ws2)).
  { rewrite <- L2, E2. apply find_byte. exact Hws2. }
  assert (F3 : find (chr DQUOTE) payload (String.length a2 + String.length ws2 + 1) =
               Some (String.length a3 + String.length value)).
  { rewrite <- L3, E3. apply find_byte. exact Hval. }
  unfold json_get_string. rewrite F0, F1, F2, F3.
  pose proof (lacks_length_pos value Hne) as Hpos.
  destruct (String.length a3 + String.length value <=?
            String.length a2 + String.length ws2 + 1)%nat eqn:Hle.
  { apply Nat.leb_le in Hle. lia. }
  replace (String.length a3 + String.length value -
           (String.length a2 + String.length ws2 + 1))
    with (String.length value) by lia.
  rewrite <- L3.
  rewrite E3, substring_skip, skip_append. apply substring_append.
Qed.

(** X2. Whatever the payload and the key, the extracted value holds no
    double quote, and when it is not empty it stands in the payload between
    two double quotes. *)
Theorem json_get_string_between_quotes (payload key : string) :
  lacks DQUOTE (json_get_string payload key) /\
  (json_get_string payload key <> EmptyString ->
   exists pre post,
     payload = pre +:+ quoted (json_get_string payload key) +:+ post).
Proof.
  unfold json_get_string.
  destruct (find (quoted key) payload 0) as [k|]; [| split; [exact I | congruence]].
  destruct (find ":" payload _) as [colon|]; [| split; [exact I | congruence]].
  destruct (find (chr DQUOTE) payload (colon + 1)) as [q1|] eqn:Hq1;
    [| split; [exact I | congruence]].
  destruct (find (chr DQUOTE) payload (q1 + 1)) as [q2|] eqn:Hq2;
    [| split; [exact I | congruence]].
  destruct (q2 <=? q1 + 1)%nat; [split; [exact I | congruence] |].
  unfold find in Hq2.
  destruct (String.length payload <? q1 + 1)%nat eqn:Hlen; [discriminate |].
  apply Nat.ltb_ge in Hlen.
  destruct (find_at_byte_Some _ _ _ _ Hq2) as (b & post & Hskip & -> & Hb).
  replace (q1 + 1 + String.length b - (q1 + 1)) with (String.length b) by lia.
  rewrite substring_skip, Hskip, substring_append.
  split; [exact Hb |]. intros _.
  unfold find in Hq1.
  destruct (String.length payload <? colon + 1)%nat eqn:Hlen1; [discriminate |].
  apply Nat.ltb_ge in Hlen1.
  destruct (find_at_byte_Some _ _ _ _ Hq1) as (b1 & post1 & Hskip1 & Hq1eq & _).
  destruct (skip_split (colon + 1) payload Hlen1) as (a & Ha & Hla).
  rewrite Hskip1 in Ha.
  assert (Hsk : skip (q1 + 1) payload = post1).
  { rewrite Ha. replace (q1 + 1) with (String.length (a +:+ b1 +:+ chr DQUOTE)).
    - replace (a +:+ b1 +:+ String DQUOTE post1)
        with ((a +:+ b1 +:+ chr DQUOTE) +:+ post1) by now rewrite !append_assoc.
      apply skip_append.
    - rewrite !length_append. simpl. lia. }
  rewrite Hsk in Hskip. exists (a +:+ b1), post.
  rewrite Ha, Hskip. unfold quoted. now rewrite !append_assoc.
Qed.

(** X3. A key that does not occur in the payload, quoted, extracts to the
    empty string. *)
Theorem json_get_string_absent_key (payload key : string) :
  (forall pre post, payload <> pre +:+ quoted key +:+ post) ->
  json_get_string payload key = EmptyString.
Proof.
  intros Habsent. unfold json_get_string, find. simpl.
  destruct (find_at (quoted key) payload 0) as [k|] eqn:Hk; [| reflexivity].
  destruct (find_at_Some _ _ _ _ Hk) as (pre & post & E & _). now apply Habsent in E.
Qed.

End ParserFacts.

(** ** More on JSON escaping *)

Module EscapeMore.
Import Escape.

Lemma escape_byte_cases (c : ascii) :
  (plain_byte c /\ escape_byte c = chr c) \/
  ((nat_of_ascii c < 32)%nat /\ escape_byte c = "?") \/
  (exists e, In e [BACKSLASH; DQUOTE; ascii_of_nat 110; ascii_of_nat 114; ascii_of_nat 116] /\
             (c = BACKSLASH \/ c = DQUOTE \/ (nat_of_ascii c < 32)%nat) /\
             escape_byte c = String BACKSLASH (chr e)).
Proof.
  unfold escape_byte.
  destruct (Ascii.eqb c BACKSLASH) eqn:Eb.
  { apply Ascii.eqb_eq in Eb. right. right. exists BACKSLASH. simpl. auto 6. }
  destruct (Ascii.eqb c DQUOTE) eqn:Eq.
  { apply Ascii.eqb_eq in Eq. right. right. exists DQUOTE. simpl. auto 6. }
  destruct (Ascii.eqb c NEWLINE) eqn:En.
  { apply Ascii.eqb_eq in En. subst. right. right. exists (ascii_of_nat 110).
    simpl. split; [auto 6 |]. split; [| reflexivity]. right. right. vm_compute. lia. }
  destruct (Ascii.eqb c CARRIAGE) eqn:Er.
  { apply Ascii.eqb_eq in Er. subst. right. right. exists (ascii_of_nat 114).
    simpl. split; [auto 6 |]. split; [| reflexivity]. right. right. vm_compute. lia. }
  destruct (Ascii.eqb c TAB) eqn:Et.
  { apply Ascii.eqb_eq in Et. subst. right. right. exists (ascii_of_nat 116).
    simpl. split; [auto 8 |]. split; [| reflexivity]. right. right. vm_compute. lia. }
  destruct (nat_of_ascii c <? 32)%nat eqn:El.
  - apply Nat.ltb_lt in El. right. left. auto.
  - apply Nat.ltb_ge in El. left. split; [| reflexivity].
    apply Ascii.eqb_neq in Eb, Eq. repeat split; auto.
Qed.

Lemma question_mark_plain : plain_byte "?".
Proof. repeat split; [vm_compute; lia | discriminate | discriminate]. Qed.

(** Escaping never shortens a text and at most doubles it. *)
Lemma json_escape_length (s : string) :
  String.length s <= String.length (json_escape s) <= 2 * String.length s.
Proof.
  induction s as [|c rest IH]; [simpl; lia |].
  rewrite EscapeFacts.json_escape_cons, length_append.
  destruct (escape_byte_cases c) as [[_ ->]|[[_ ->]|(e & _ & _ & ->)]]; simpl; lia.
Qed.

(** X4. Whatever the input bytes, the escaped text is the content of a JSON
    string: plain bytes and the two-byte escapes only, so no raw control
    byte and no bare double quote or backslash; and it is at least as long
    as the input and at most twice as long. *)
Theorem json_escape_is_json (s : string) :
  json_string_body (json_escape s) /\
  String.length s <= String.length (json_escape s) <= 2 * String.length s.
Proof.
  split; [| apply json_escape_length].
  induction s as [|c rest IHb]; [constructor |].
  rewrite EscapeFacts.json_escape_cons.
  destruct (escape_byte_cases c) as [[Hp ->]|[[Hc ->]|(e & He & _ & ->)]].
  - now constructor.
  - constructor; [apply question_mark_plain | exact IHb].
  - now constructor.
Qed.

(** X5. Escaping leaves a text unchanged exactly when every byte of it is
    plain: at least 0x20 and neither a double quote nor a backslash. *)
Theorem json_escape_fixed_iff_plain (s : string) :
  json_escape s = s <-> all_plain s.
Proof.
  induction s as [|c rest IH]; [split; [intros _; exact I | reflexivity] |].
  rewrite EscapeFacts.json_escape_cons.
  pose proof (json_escape_length rest) as Hlen.
  destruct (escape_byte_cases c) as [[Hp ->]|[[Hc ->]|(e & He & Hsp & ->)]].
  - split.
    + intros E. injection E as E. split; [exact Hp | now apply IH].
    + intros [_ Hr]. apply IH in Hr.
      change (chr c +:+ json_escape rest) with (String c (json_escape rest)).
      now rewrite Hr.
  - split.
    + intros E. injection E as <- _. vm_compute in Hc. lia.
    + intros [[Hge _] _]. lia.
  - split.
    + intros E. apply (f_equal String.length) in E.
      rewrite length_append in E. simpl in E. lia.
    + intros [(Hge & Hq & Hb) _]. destruct Hsp as [->|[->|Hlt]]; [congruence | congruence | lia].
Qed.

End EscapeMore.

(** ** More on the scan-result payload *)

Module PayloadMore.
Import Payload.

(** X6. The list is cut only when it has to be: the payload carries every
    name exactly when the payload with every name is at most 200 bytes
    long. *)
Theorem build_wifi_scan_payload_complete_iff (ssids : list string) :
  build_wifi_scan_payload ssids = payload_with ssids <->
  String.length (payload_with ssids) <= 200.
Proof.
  destruct (PayloadFacts.payload_loop_takes ssids PAYLOAD_HEAD true)
    as (k & Hk & Heq & Hcap & Hstop).
  assert (Hbuild : build_wifi_scan_payload ssids = payload_with (firstn k ssids)).
  { unfold build_wifi_scan_payload, payload_with.
    rewrite Heq, <- PayloadFacts.entries_text_concat. now rewrite append_assoc. }
  assert (Hlen : String.length (build_wifi_scan_payload ssids) <= 200).
  { unfold build_wifi_scan_payload. rewrite length_append.
    specialize (Hcap ltac:(vm_compute; lia)).
    change (String.length PAYLOAD_TAIL) with 2. unfold MAX_NOTIFY_BYTES in Hcap. lia. }
  split.
  - intros E. now rewrite <- E.
  - intros Hfit. rewrite Hbuild.
    destruct (decide (k < length ssids)) as [Hlt|Hge].
    + exfalso. specialize (Hstop Hlt).
      rewrite length_append in Hstop. unfold MAX_NOTIFY_BYTES in Hstop.
      rewrite PayloadFacts.payload_with_length in Hfit.
      pose proof (PayloadFacts.entries_text_firstn_mono true ssids (S k) (length ssids)
                    ltac:(lia)) as Hmono.
      rewrite firstn_all in Hmono. lia.
    + now rewrite firstn_all2 by lia.
Qed.

End PayloadMore.

(** ** The cached value and the payloads on the bus *)

Section CacheInvariant.

Variable std_sort :
  (string * Z -> string * Z -> bool) -> list (string * Z) -> list (string * Z).

(** The value State was exported with. *)
Variable seed : ay.

Lemma good_set_g_state (s : string) (w : World) : good seed w -> good seed (set_g_state s w).
Proof. intros H. exact H. Qed.

Lemma good_set_g_scan_busy (b : bool) (w : World) : good seed w -> good seed (set_g_scan_busy b w).
Proof. intros H. exact H. Qed.

Lemma good_record_nm (c : NMCall) (w : World) : good seed w -> good seed (record [EvNM c] w).
Proof.
  intros (Hid & Hc & Ht & Ho). split; [exact Hid |]. split; [| split; [| exact Ho]].
  - unfold cache_inv in *. simpl. rewrite emissions_on_app. simpl.
    now rewrite app_nil_r.
  - simpl. apply Forall_app. split; [exact Ht |]. repeat constructor.
Qed.

Lemma lookup_alter_value (path p : string) (b : bool) (m : gmap string CharContext) :
  (ctx ← alter (set_notifying b) path m !! p; value_ay ctx) = (ctx ← m !! p; value_ay ctx).
Proof.
  destruct (decide (path = p)) as [->|Hne].
  - rewrite lookup_alter_eq. destruct (m !! p); reflexivity.
  - now rewrite lookup_alter_ne.
Qed.

Lemma good_store_notifying (path : string) (b : bool) (w : World) :
  good seed w -> good seed (store_notifying path b w).
Proof.
  intros (Hid & Hc & Ht & Ho1 & Ho2). split; [| split; [| split]].
  - rewrite store_notifying_identity. exact Hid.
  - unfold cache_inv in *. simpl. now rewrite lookup_alter_value.
  - exact Ht.
  - unfold other_caches_inv, store_notifying. simpl.
    now rewrite !lookup_alter_value.
Qed.

(** A notification on State leaves the other characteristics alone. *)
Lemma notify_other_lookup (v : ay) (w : World) (p : string) :
  p <> CHR_STATE ->
  g_chars (notify_characteristic_value CHR_STATE (Some v) w) !! p = g_chars w !! p.
Proof.
  intros Hne. unfold notify_characteristic_value. simpl.
  destruct (g_chars w !! CHR_STATE) as [ctx|]; [| reflexivity].
  destruct (notifying ctx); [| reflexivity]. simpl.
  destruct (emit_value_changed _) as [ctx' evs]. simpl.
  now rewrite lookup_insert_ne by congruence.
Qed.

Lemma last_snoc {A} (l : list A) (x d : A) : List.last (l ++ [x]) d = x.
Proof. apply List.last_last. Qed.

(** One notification on State: the cache follows the bus. *)
Lemma good_notify (v : ay) (w : World) :
  known_payload v ->
  good seed w -> good seed (notify_characteristic_value CHR_STATE (Some v) w).
Proof.
  intros Hv (Hid & Hc & Ht & Ho1 & Ho2).
  destruct (exported_state_char w Hid) as (ctx & Hctx & Hpath & Hbus & _).
  split; [| split; [| split]].
  4:{ unfold other_caches_inv. rewrite !notify_other_lookup by discriminate.
      split; assumption. }
  - rewrite (identity_view_novalue _ _ (notify_novalue CHR_STATE v w)). exact Hid.
  - unfold cache_inv in *. rewrite notify_trace, Hctx, Hpath, Hbus, andb_true_r.
    unfold notify_characteristic_value. simpl. rewrite Hctx. rewrite Hctx in Hc.
    destruct (notifying ctx); simpl.
    + unfold emit_value_changed. simpl. rewrite Hbus. simpl.
      rewrite lookup_insert_eq. simpl.
      rewrite emissions_on_app. simpl. now rewrite last_snoc.
    + rewrite Hctx. simpl. rewrite emissions_on_app. simpl.
      rewrite app_nil_r. exact Hc.
  - rewrite notify_trace, Hctx, Hpath, Hbus, andb_true_r.
    apply Forall_app. split; [exact Ht |].
    destruct (notifying ctx); simpl.
    + constructor; [exact I |]. constructor; [| constructor].
      split; [reflexivity | exact Hv].
    + constructor; [exact I | constructor].
Qed.

Lemma known_state (S : string) :
  In S ANNOUNCED_STATES -> known_payload (make_state_payload S).
Proof.
  intros H. left. exists S. split; [exact H |].
  apply make_state_payload_json. simpl in *. intuition.
Qed.

Lemma known_scan (found : list string) :
  known_payload (make_ay_from_string (Payload.build_wifi_scan_payload found)).
Proof.
  destruct (PayloadFacts.build_wifi_scan_payload_shape found) as (k & Hpay & Hlen).
  right. left. exists (firstn k found). split; [| exact Hlen].
  unfold make_ay_from_string. now rewrite Hpay, payload_with_nul_free.
Qed.

Lemma known_connected (ssid ip : string) :
  known_payload (make_ay_from_string (connected_payload ssid ip)).
Proof.
  right. right. exists ssid, ip.
  unfold make_ay_from_string. now rewrite connected_payload_nul_free.
Qed.

Ltac good_steps :=
  repeat first
    [ assumption
    | apply good_set_g_state
    | apply good_set_g_scan_busy
    | apply good_record_nm
    | apply good_store_notifying
    | apply good_notify;
      [ first [ apply known_scan | apply known_connected
              | apply known_state; simpl; tauto ] | ] ].

Lemma good_scan_ssids (nm : NMEnv) (w : World) :
  good seed w -> good seed (snd (scan_ssids std_sort nm w)).
Proof.
  intros H. unfold scan_ssids, ScanBusyGuard_acquire, ScanBusyGuard_release, scan_body.
  destruct (g_scan_busy w); simpl; [exact H |].
  destruct (nm_client_new_ok nm); simpl; [| good_steps].
  destruct (first_wifi_device _) as [wifi|]; simpl; [| good_steps].
  destruct (dev_access_points wifi); simpl; good_steps.
Qed.

Lemma good_connect (ssid psk : string) (nm : NMEnv) (w : World) :
  good seed w -> good seed (snd (connect ssid psk nm w)).
Proof.
  intros H. unfold connect.
  destruct (nm_client_new_ok nm); simpl; [| good_steps].
  destruct (first_wifi_device _) as [wifi|]; simpl; good_steps.
Qed.

Lemma good_handle_wifi_scan_request (nm : NMEnv) (w : World) :
  good seed w -> good seed (handle_wifi_scan_request std_sort nm w).
Proof.
  intros H. unfold handle_wifi_scan_request, notify_state.
  match goal with
  | |- context [scan_ssids std_sort nm ?w0] =>
    assert (H0 : good seed w0) by (simpl g_state; good_steps);
    pose proof (good_scan_ssids nm w0 H0) as H1;
    destruct (scan_ssids std_sort nm w0) as [found w1]
  end.
  simpl in H1. simpl g_state. good_steps.
Qed.

Lemma good_handle_wifi_connect_request (ssid psk : string) (nm : NMEnv) (w : World) :
  good seed w -> good seed (handle_wifi_connect_request ssid psk nm w).
Proof.
  intros H. unfold handle_wifi_connect_request, notify_state.
  match goal with
  | |- context [connect ssid psk nm ?w0] =>
    assert (H0 : good seed w0) by (simpl g_state; good_steps);
    pose proof (good_connect ssid psk nm w0 H0) as H1;
    destruct (connect ssid psk nm w0) as [result w1]
  end.
  simpl in H1. destruct (negb _); [simpl g_state; good_steps | exact H1].
Qed.

Lemma good_on_ipv4_ready (nm : NMEnv) (w : World) :
  good seed w -> good seed (on_ipv4_ready nm w).
Proof.
  intros H. unfold on_ipv4_ready, notify_state_connected.
  destruct (nm_client_new_ok nm); simpl; [| good_steps].
  destruct (device_by_iface _ _) as [dev|]; simpl; [| good_steps].
  destruct (dev_is_wifi dev); simpl; [| good_steps].
  destruct (is_empty (first_ip4 dev)); simpl; good_steps.
Qed.

Lemma good_on_write_command (value : ay) (nm : NMEnv) (w : World) :
  good seed w -> good seed (on_write_command std_sort value nm w).
Proof.
  intros H. unfold on_write_command.
  destruct (is_empty (ay_to_string value)); [exact H |].
  destruct (String.eqb (resolve_op _) "wifi_scan").
  { now apply good_handle_wifi_scan_request. }
  destruct (String.eqb (resolve_op _) "wifi_connect"); [| exact H].
  destruct (is_empty (Parser.json_get_string _ "ssid")); [exact H |].
  now apply good_handle_wifi_connect_request.
Qed.

Lemma good_on_method_call (path : string) (method : Method) (nm : NMEnv) (w : World) :
  good seed w -> good seed (fst (on_method_call std_sort path method nm w)).
Proof.
  intros H. unfold on_method_call.
  destruct (g_chars w !! path) as [ctx|]; [| exact H].
  destruct method as [|value| | |name]; simpl.
  - destruct (read_cb ctx); exact H.
  - destruct (write_cb ctx) as [[]|]; [| exact H].
    simpl. now apply good_on_write_command.
  - destruct (notify_cb ctx) as [[]|]; simpl.
    + apply good_on_ipv4_ready. now apply good_store_notifying.
    + now apply good_store_notifying.
  - destruct (notify_cb ctx) as [[]|]; simpl; now apply good_store_notifying.
  - exact H.
Qed.

Lemma good_dispatch (i : Input) (nm : NMEnv) (w : World) :
  good seed w -> good seed (dispatch std_sort i nm w).
Proof.
  intros H. destruct i as [path method|]; simpl.
  - now apply good_on_method_call.
  - now apply good_on_ipv4_ready.
Qed.

Lemma reachable_from_good (w0 w : World) :
  good seed w0 -> reachable_from std_sort w0 w -> good seed w.
Proof.
  intros H0. induction 1 as [|w i nm _ IH]; [exact H0 |].
  now apply good_dispatch.
Qed.

End CacheInvariant.

Lemma silent_emissions (p : string) (evs : list Event) :
  silent evs -> emissions_on p evs = [].
Proof.
  induction 1 as [|e evs He _ IH]; [reflexivity |].
  destruct e; simpl in *; [exact IH | destruct He | exact IH].
Qed.

(** The start-up world satisfies the invariant, with the payload of the
    state at export for seed. *)
Lemma startup_good (e0 e1 e2 : list NMEnv) (w0 : World) :
  startup e0 e1 e2 = Some w0 -> good (state_json (exported_state e0 e1)) w0.
Proof.
  intros H. destruct (startup_shape e0 e1 e2 w0 H) as (Hid & _ & _ & Hv & Ho & Hq).
  split; [exact Hid |]. split; [| split; [| exact Ho]].
  - unfold cache_inv. rewrite Hv, (silent_emissions _ _ Hq). reflexivity.
  - eapply Forall_impl; [exact Hq |]. intros [p v|p v|c] He; simpl in *; tauto.
Qed.

Section GoodWorlds.

Variable std_sort :
  (string * Z -> string * Z -> bool) -> list (string * Z) -> list (string * Z).

Lemma reachable_splits (w : World) :
  reachable std_sort w <->
  exists e0 e1 e2 w0, startup e0 e1 e2 = Some w0 /\ reachable_from std_sort w0 w.
Proof.
  split.
  - induction 1 as [w e0 e1 e2 Hstart | w i nm _ (e0 & e1 & e2 & w0 & Hs & Hr)].
    + exists e0, e1, e2, w. split; [exact Hstart | constructor].
    + exists e0, e1, e2, w0. split; [exact Hs | now constructor].
  - intros (e0 & e1 & e2 & w0 & Hs & Hr).
    induction Hr as [|w i nm _ IH]; [now apply (reachable_boot _ _ e0 e1 e2) |].
    now constructor.
Qed.

Lemma reachable_good (w : World) : reachable std_sort w -> exists seed, good seed w.
Proof.
  intros Hr. apply reachable_splits in Hr. destruct Hr as (e0 & e1 & e2 & w0 & Hs & Hr).
  exists (state_json (exported_state e0 e1)).
  eapply reachable_from_good; [| exact Hr]. now apply (startup_good e0 e1 e2).
Qed.

(** X8. In every world the dispatcher reaches the Value property of State
    reads as the payload of the last emission on State, or, before any
    emission, as the value the characteristic was exported with: the bare
    state payload of the state at that moment, which is CONNECTED when an
    IPv4-ready callback that ran before the export found an address on
    wlan0, and UNCONFIGURED otherwise. *)
Theorem state_value_is_last_emission (e0 e1 e2 : list NMEnv) (w0 w : World) :
  startup e0 e1 e2 = Some w0 ->
  reachable_from std_sort w0 w ->
  on_get_property CHR_STATE "Value" w =
    Some (PBytes (List.last (emissions_on CHR_STATE (trace w))
                    (state_json (exported_state e0 e1)))) /\
  exported_state e0 e1 =
    (if existsb finds_address (e0 ++ e1) then "CONNECTED" else "UNCONFIGURED").
Proof.
  intros Hs Hr. split; [| apply exported_state_cases].
  destruct (reachable_from_good std_sort _ w0 w (startup_good e0 e1 e2 w0 Hs) Hr)
    as (Hid & Hc & _).
  destruct (exported_state_char w Hid) as (ctx & Hctx & _).
  unfold on_get_property, cache_inv in *. rewrite Hctx in *. simpl in *.
  unfold char_get_property. simpl. now rewrite Hc.
Qed.

(** X9. Everything the daemon ever emits on the bus is an emission on State
    whose payload is a bare state payload for UNCONFIGURED, SCANNING,
    SCAN_COMPLETE or CONNECTING, an SSID list of at most 200 bytes, or a
    CONNECTED payload with ssid and ip. *)
Theorem bus_carries_known_payloads (w : World) (p : string) (v : ay) :
  reachable std_sort w ->
  In (EvPropertiesChanged p v) (trace w) ->
  p = CHR_STATE /\ known_payload v.
Proof.
  intros Hr Hin. destruct (reachable_good w Hr) as (seed & _ & _ & Ht & _).
  rewrite Forall_forall in Ht. apply (Ht (EvPropertiesChanged p v)).
  now apply list_elem_of_In.
Qed.

End GoodWorlds.

(** ** Reads, refusals and unknown commands *)

Lemma exported_devinfo_char (w : World) :
  identity_view w = identity_view boot_world ->
  exists ctx, g_chars w !! CHR_DEVINFO = Some ctx /\
    read_cb ctx = Some on_read_device_info_cb /\
    notify_cb ctx = None /\ write_cb ctx = None.
Proof.
  intros H. apply (f_equal (fun m => m !! CHR_DEVINFO)) in H.
  unfold identity_view at 1 in H. rewrite lookup_fmap in H.
  set (rhs := identity_view boot_world !! CHR_DEVINFO) in H.
  vm_compute in rhs. subst rhs.
  destruct (g_chars w !! CHR_DEVINFO) as [ctx|]; [| discriminate].
  exists ctx. split; [reflexivity |].
  destruct ctx. simpl in H. injection H as -> -> -> -> -> -> -> ->.
  repeat split; reflexivity.
Qed.

Section Refusals.

Variable std_sort :
  (string * Z -> string * Z -> bool) -> list (string * Z) -> list (string * Z).

(** X10. In every reachable world ReadValue on DeviceInfo returns the static
    JSON text, byte for byte, and changes nothing. *)
Theorem device_info_read (nm : NMEnv) (w : World) :
  reachable std_sort w ->
  on_method_call std_sort CHR_DEVINFO ReadValue nm w =
  (w, ReturnValue (list_ascii_of_string DEVICEINFO_JSON)).
Proof.
  intros Hr. destruct (reachable_ok std_sort w Hr) as (Hid & _).
  destruct (exported_devinfo_char w Hid) as (ctx & Hctx & Hrd & _).
  unfold on_method_call. rewrite Hctx, Hrd. reflexivity.
Qed.

(** X11. In every reachable world the operations a characteristic has no
    callback for are refused with [org.bluez.Error.Failed] and change
    nothing: reading Command, writing DeviceInfo, writing State; a method
    the interface does not have is refused as unknown. *)
Theorem unsupported_operations_refused (nm : NMEnv) (w : World) (value : ay)
    (name : string) :
  reachable std_sort w ->
  on_method_call std_sort CHR_COMMAND ReadValue nm w =
    (w, ReturnError "org.bluez.Error.Failed" "Read not supported") /\
  on_method_call std_sort CHR_DEVINFO (WriteValue value) nm w =
    (w, ReturnError "org.bluez.Error.Failed" "Write not supported") /\
  on_method_call std_sort CHR_STATE (WriteValue value) nm w =
    (w, ReturnError "org.bluez.Error.Failed" "Write not supported") /\
  on_method_call std_sort CHR_STATE (OtherMethod name) nm w =
    (w, ReturnError "org.freedesktop.DBus.Error.UnknownMethod" "Unknown method").
Proof.
  intros Hr. destruct (reachable_ok std_sort w Hr) as (Hid & _).
  destruct (exported_devinfo_char w Hid) as (cd & Hcd & _ & _ & Hwd).
  destruct (exported_state_char w Hid) as (cs & Hcs & _ & _ & _ & _ & Hws).
  destruct (exported_command_char w Hid) as (cc & Hcc & Hrc & _).
  unfold on_method_call. rewrite Hcd, Hcs, Hcc, Hwd, Hws, Hrc. repeat split.
Qed.

(** X12. In every reachable world a write to Command whose resolved op is
    neither wifi_scan nor wifi_connect (an empty payload, a missing op, an
    unknown op) is answered with success and changes nothing. *)
Theorem unknown_command_ignored (value : ay) (nm : NMEnv) (w : World) :
  reachable std_sort w ->
  resolve_op (ay_to_string value) <> "wifi_scan" ->
  resolve_op (ay_to_string value) <> "wifi_connect" ->
  on_method_call std_sort CHR_COMMAND (WriteValue value) nm w = (w, ReturnEmpty).
Proof.
  intros Hr Hscan Hconn. rewrite write_command_dispatch by exact Hr.
  f_equal. unfold on_write_command.
  destruct (is_empty (ay_to_string value)); [reflexivity |].
  apply String.eqb_neq in Hscan, Hconn. now rewrite Hscan, Hconn.
Qed.


End Refusals.

(** ** Subscription *)

Section Subscription.

Variable std_sort :
  (string * Z -> string * Z -> bool) -> list (string * Z) -> list (string * Z).

Lemma emissions_quiet (w : World) (v : ay) :
  subscribed CHR_STATE w = false -> emissions_on CHR_STATE (announce w v) = [].
Proof. intros H. now rewrite emissions_on_announce, H. Qed.

Lemma store_notifying_other (path : string) (b : bool) (w : World) :
  path <> CHR_STATE ->
  subscribed CHR_STATE (store_notifying path b w) = subscribed CHR_STATE w.
Proof.
  intros Hne. unfold subscribed, store_notifying. simpl.
  now rewrite lookup_alter_ne.
Qed.

Lemma store_notifying_off (w : World) :
  subscribed CHR_STATE (store_notifying CHR_STATE false w) = false.
Proof.
  unfold subscribed, store_notifying. simpl. rewrite lookup_alter_eq.
  destruct (g_chars w !! CHR_STATE); reflexivity.
Qed.

Lemma on_write_command_quiet (value : ay) (nm : NMEnv) (w : World) :
  identity_view w = identity_view boot_world ->
  subscribed CHR_STATE w = false ->
  let w' := on_write_command std_sort value nm w in
  emissions_on CHR_STATE (trace w') = emissions_on CHR_STATE (trace w) /\
  subscribed CHR_STATE w' = false.
Proof.
  intros Hid Hsub. unfold on_write_command.
  destruct (is_empty (ay_to_string value)); [split; [reflexivity | exact Hsub] |].
  destruct (String.eqb (resolve_op _) "wifi_scan").
  { destruct (handle_wifi_scan_request_trace std_sort nm w Hid)
      as (ssids & calls & _ & Hc & _ & Ht & _).
    split; [| now rewrite (subscribed_novalue _ _ _ Hc)].
    rewrite Ht, !emissions_on_app, emissions_on_nm, !emissions_quiet by exact Hsub.
    now rewrite !app_nil_r. }
  destruct (String.eqb (resolve_op _) "wifi_connect");
    [| split; [reflexivity | exact Hsub]].
  destruct (is_empty (Parser.json_get_string _ "ssid"));
    [split; [reflexivity | exact Hsub] |].
  destruct (handle_wifi_connect_request_trace
              (Parser.json_get_string (ay_to_string value) "ssid")
              (Parser.json_get_string (ay_to_string value) "psk") nm w Hid)
    as (calls & _ & Hc & _ & Ht).
  split; [| now rewrite (subscribed_novalue _ _ _ Hc)].
  rewrite Ht, !emissions_on_app, emissions_on_nm, emissions_quiet by exact Hsub.
  destruct (ConnectResult_eqb _ _); rewrite ?emissions_quiet by exact Hsub;
    now rewrite !app_nil_r.
Qed.

Lemma on_ipv4_ready_quiet (nm : NMEnv) (w : World) :
  identity_view w = identity_view boot_world ->
  subscribed CHR_STATE w = false ->
  let w' := on_ipv4_ready nm w in
  emissions_on CHR_STATE (trace w') = emissions_on CHR_STATE (trace w) /\
  subscribed CHR_STATE w' = false.
Proof.
  intros Hid Hsub.
  destruct (on_ipv4_ready_trace nm w Hid) as (calls & Hc & _ & Hlive).
  split; [| now rewrite (subscribed_novalue _ _ _ Hc)].
  destruct (live_wifi nm) as [[ssid ip]|]; destruct Hlive as [_ Ht]; rewrite Ht;
    rewrite !emissions_on_app, emissions_on_nm, ?emissions_quiet by exact Hsub;
    now rewrite !app_nil_r.
Qed.

(** X13. While no central is subscribed to State, no dispatcher callback
    other than StartNotify on State emits anything, and State stays
    unsubscribed. *)
Theorem unsubscribed_stays_silent (i : Input) (nm : NMEnv) (w : World) :
  reachable std_sort w ->
  subscribed CHR_STATE w = false ->
  i <> MethodCall CHR_STATE StartNotify ->
  let w' := dispatch std_sort i nm w in
  emissions_on CHR_STATE (trace w') = emissions_on CHR_STATE (trace w) /\
  subscribed CHR_STATE w' = false.
Proof.
  intros Hr Hsub Hi. destruct (reachable_ok std_sort w Hr) as (Hid & _).
  destruct i as [path method|]; simpl; [| now apply on_ipv4_ready_quiet].
  unfold on_method_call.
  destruct (g_chars w !! path) as [ctx|] eqn:Hctx; [| split; [reflexivity | exact Hsub]].
  destruct method as [|value| | |name]; simpl.
  - destruct (read_cb ctx); split; (reflexivity || exact Hsub).
  - destruct (write_cb ctx) as [[]|]; [| split; [reflexivity | exact Hsub]].
    simpl. now apply on_write_command_quiet.
  - assert (Hne : path <> CHR_STATE) by congruence.
    assert (Hsub1 : subscribed CHR_STATE (store_notifying path true w) = false).
    { now rewrite store_notifying_other. }
    destruct (notify_cb ctx) as [[]|]; simpl.
    + assert (Hid1 : identity_view (store_notifying path true w) =
                     identity_view boot_world).
      { rewrite store_notifying_identity. exact Hid. }
      exact (on_ipv4_ready_quiet nm _ Hid1 Hsub1).
    + split; [reflexivity | exact Hsub1].
  - assert (Hsub1 : subscribed CHR_STATE (store_notifying path false w) = false).
    { destruct (decide (path = CHR_STATE)) as [->|Hne].
      - apply store_notifying_off.
      - now rewrite store_notifying_other. }
    destruct (notify_cb ctx) as [[]|]; simpl; split; (reflexivity || exact Hsub1).
  - split; [reflexivity | exact Hsub].
Qed.

(** X14. StopNotify on State unsubscribes the central whatever the state of
    the world, emits nothing and leaves the provisioning state alone;
    StartNotify subscribes it again. *)
Theorem stop_notify_unsubscribes (nm nm' : NMEnv) (w : World) :
  reachable std_sort w ->
  let w1 := dispatch std_sort (MethodCall CHR_STATE StopNotify) nm w in
  let w2 := dispatch std_sort (MethodCall CHR_STATE StartNotify) nm' w1 in
  subscribed CHR_STATE w1 = false /\
  trace w1 = trace w /\
  g_state w1 = g_state w /\
  subscribed CHR_STATE w2 = true.
Proof.
  intros Hr. destruct (reachable_ok std_sort w Hr) as (Hid & _).
  destruct (exported_state_char w Hid) as (ctx & Hctx & _ & _ & _ & Hnf & _).
  assert (E1 : dispatch std_sort (MethodCall CHR_STATE StopNotify) nm w =
               store_notifying CHR_STATE false w).
  { simpl. unfold on_method_call. rewrite Hctx, Hnf. reflexivity. }
  lazy zeta. rewrite E1.
  split; [apply store_notifying_off |]. split; [reflexivity |]. split; [reflexivity |].
  assert (Hr1 : reachable std_sort (store_notifying CHR_STATE false w)).
  { rewrite <- E1. now apply reachable_step. }
  destruct (reachable_ok std_sort _ Hr1) as (Hid1 & _).
  simpl. rewrite start_notify_dispatch by exact Hr1. simpl.
  set (w1 := store_notifying CHR_STATE true (store_notifying CHR_STATE false w)).
  assert (H1 : identity_view w1 = identity_view boot_world).
  { unfold w1. rewrite store_notifying_identity. exact Hid1. }
  destruct (on_ipv4_ready_trace nm' w1 H1) as (calls & Hc & _).
  rewrite (subscribed_novalue _ _ _ Hc). now apply store_notifying_subscribed.
Qed.


End Subscription.

(** ** The scan, end to end *)

Section ScanEndToEnd.

Variable std_sort :
  (string * Z -> string * Z -> bool) -> list (string * Z) -> list (string * Z).

Lemma scan_ssids_outcome (nm : NMEnv) (w : World) :
  g_scan_busy w = false ->
  fst (scan_ssids std_sort nm w) = scan_outcome std_sort nm.
Proof.
  intros Hb. unfold scan_ssids, ScanBusyGuard_acquire, scan_body, scan_outcome.
  rewrite Hb. simpl.
  destruct (nm_client_new_ok nm); simpl; [| reflexivity].
  destruct (first_wifi_device _) as [wifi|]; simpl; [| reflexivity].
  destruct (dev_access_points wifi); reflexivity.
Qed.

(** X16. Between two dispatcher callbacks the scan flag is always free, so a
    scan started from a reachable world never takes the busy exit: its
    result is what NetworkManager's answers determine. *)
Theorem scan_flag_free_between_callbacks (nm : NMEnv) (w : World) :
  reachable std_sort w ->
  g_scan_busy w = false /\
  fst (scan_ssids std_sort nm w) = scan_outcome std_sort nm /\
  g_scan_busy (snd (scan_ssids std_sort nm w)) = false.
Proof.
  intros Hr. destruct (reachable_ok std_sort w Hr) as (_ & Hb & _).
  split; [exact Hb |]. split; [now apply scan_ssids_outcome |].
  destruct (scan_ssids_frame std_sort nm w) as (calls & _ & _ & Hb' & _).
  now rewrite Hb'.
Qed.

(** The notifications of the scan flow, with the list that was found. *)
Lemma handle_wifi_scan_request_found (nm : NMEnv) (w : World) :
  identity_view w = identity_view boot_world ->
  g_scan_busy w = false ->
  notifications_on CHR_STATE (trace (handle_wifi_scan_request std_sort nm w)) =
  notifications_on CHR_STATE (trace w) ++
  [state_json "SCANNING";
   make_ay_from_string (Payload.build_wifi_scan_payload (scan_outcome std_sort nm));
   state_json "SCAN_COMPLETE"].
Proof.
  intros Hid Hbusy. unfold handle_wifi_scan_request, notify_state.
  set (w1 := set_g_state "SCANNING" w).
  assert (H1 : identity_view w1 = identity_view boot_world) by exact Hid.
  pose proof (notify_state_char w1 (make_state_payload (g_state w1)) H1) as E2.
  set (w2 := notify_characteristic_value CHR_STATE _ w1) in *.
  assert (Hb2 : g_scan_busy w2 = false).
  { destruct E2 as (_ & _ & Hb & _). rewrite Hb. exact Hbusy. }
  destruct (scan_ssids_frame std_sort nm w2) as (calls & E3).
  pose proof (scan_ssids_outcome nm w2 Hb2) as Hfound.
  destruct (scan_ssids std_sort nm w2) as [found w3]. simpl in E3, Hfound. subst found.
  assert (H3 : identity_view w3 = identity_view boot_world).
  { rewrite (extends_by_identity _ _ _ E3), (extends_by_identity _ _ _ E2). exact H1. }
  pose proof (notify_state_char w3
                (make_ay_from_string
                   (Payload.build_wifi_scan_payload (scan_outcome std_sort nm))) H3) as E4.
  set (w4 := notify_characteristic_value CHR_STATE _ w3) in *.
  set (w5 := set_g_state "SCAN_COMPLETE" w4).
  assert (H5 : identity_view w5 = identity_view boot_world).
  { change (identity_view w5) with (identity_view w4).
    rewrite (extends_by_identity _ _ _ E4). exact H3. }
  destruct (notify_state_char w5 (make_state_payload (g_state w5)) H5)
    as (_ & _ & _ & Ht6).
  destruct (extends_by_trans _ _ _ _ _ (extends_by_trans _ _ _ _ _ E2 E3) E4)
    as (_ & _ & _ & Ht4).
  rewrite Ht6. change (trace w5) with (trace w4). rewrite Ht4.
  change (trace w1) with (trace w).
  rewrite !notifications_on_app, !notifications_on_announce, notifications_on_nm.
  change (make_state_payload (g_state w1)) with (state_json "SCANNING").
  change (make_state_payload (g_state w5)) with (state_json "SCAN_COMPLETE").
  rewrite <- !app_assoc. reflexivity.
Qed.

(** X17. The SSID list a wifi_scan write notifies is the payload built from
    the ranked access points NetworkManager reported at that moment. *)
Theorem wifi_scan_notifies_ranked_list (value : ay) (nm : NMEnv) (w : World)
    (wifi : NMDevice) (aps : list (option NMAccessPoint)) :
  reachable std_sort w ->
  Parser.json_get_string (ay_to_string value) "op" = "wifi_scan" ->
  nm_client_new_ok nm = true ->
  first_wifi_device (default [] (nm_devices nm)) = Some wifi ->
  dev_access_points wifi = Some aps ->
  let w' := dispatch std_sort (MethodCall CHR_COMMAND (WriteValue value)) nm w in
  notifications_on CHR_STATE (trace w') =
  notifications_on CHR_STATE (trace w) ++
  [state_json "SCANNING";
   list_ascii_of_string
     (Payload.build_wifi_scan_payload (rank_access_points std_sort aps));
   state_json "SCAN_COMPLETE"].
Proof.
  intros Hr Hop Hclient Hwifi Haps. simpl.
  rewrite write_command_dispatch by exact Hr. simpl.
  assert (Hres : resolve_op (ay_to_string value) = "wifi_scan").
  { rewrite resolve_op_primary; rewrite Hop; [reflexivity | discriminate]. }
  unfold on_write_command.
  rewrite resolve_op_nonempty_payload by (rewrite Hres; discriminate).
  rewrite Hres. change (String.eqb "wifi_scan" "wifi_scan") with true. cbv iota.
  destruct (reachable_ok std_sort w Hr) as (Hid & Hb & _).
  rewrite handle_wifi_scan_request_found by assumption.
  unfold scan_outcome. rewrite Hclient, Hwifi, Haps.
  destruct (PayloadFacts.build_wifi_scan_payload_shape
              (rank_access_points std_sort aps)) as (k & Hpay & _).
  unfold make_ay_from_string. rewrite Hpay, payload_with_nul_free. reflexivity.
Qed.

(** X18. When the scan cannot enumerate access points (NetworkManager is
    not reachable, there is no Wi-Fi device, or the device returns no list)
    a wifi_scan write still runs the whole flow, and the list it notifies is
    the empty one, [{"op":"wifi_scan","ssids":[]}]. *)
Theorem wifi_scan_failure_notifies_empty_list (value : ay) (nm : NMEnv) (w : World) :
  reachable std_sort w ->
  Parser.json_get_string (ay_to_string value) "op" = "wifi_scan" ->
  nm_client_new_ok nm = false \/
  first_wifi_device (default [] (nm_devices nm)) = None \/
  (exists wifi, first_wifi_device (default [] (nm_devices nm)) = Some wifi /\
                dev_access_points wifi = None) ->
  let w' := dispatch std_sort (MethodCall CHR_COMMAND (WriteValue value)) nm w in
  notifications_on CHR_STATE (trace w') =
  notifications_on CHR_STATE (trace w) ++
  [state_json "SCANNING";
   list_ascii_of_string (Payload.PAYLOAD_HEAD +:+ Payload.PAYLOAD_TAIL);
   state_json "SCAN_COMPLETE"] /\
  g_state w' = "SCAN_COMPLETE".
Proof.
  intros Hr Hop Hfail. simpl.
  rewrite write_command_dispatch by exact Hr. simpl.
  assert (Hres : resolve_op (ay_to_string value) = "wifi_scan").
  { rewrite resolve_op_primary; rewrite Hop; [reflexivity | discriminate]. }
  unfold on_write_command.
  rewrite resolve_op_nonempty_payload by (rewrite Hres; discriminate).
  rewrite Hres. change (String.eqb "wifi_scan" "wifi_scan") with true. cbv iota.
  destruct (reachable_ok std_sort w Hr) as (Hid & Hb & _).
  split.
  - rewrite handle_wifi_scan_request_found by assumption.
    assert (Hout : scan_outcome std_sort nm = []).
    { unfold scan_outcome.
      destruct Hfail as [->|[Hnone|(wifi & Hw & Haps)]]; [reflexivity | |].
      - destruct (nm_client_new_ok nm); [| reflexivity]. now rewrite Hnone.
      - destruct (nm_client_new_ok nm); [| reflexivity]. now rewrite Hw, Haps. }
    rewrite Hout. reflexivity.
  - destruct (handle_wifi_scan_request_trace std_sort nm w Hid)
      as (ssids & calls & Hs & _). exact Hs.
Qed.

End ScanEndToEnd.

(** ** Wi-Fi connect *)

Lemma nm_calls_app (a b : list Event) : nm_calls (a ++ b) = nm_calls a ++ nm_calls b.
Proof. apply omap_app. Qed.

(** X19. [connect] reports REQUESTED exactly when NetworkManager answers
    and has a Wi-Fi device, whatever the credentials are; it then submits
    exactly one add-and-activate request, for a WPA-PSK infrastructure
    profile with the given SSID bytes and automatic IPv4, and on FAILED it
    submits none.  It touches neither the provisioning state nor the
    characteristics. *)
Theorem connect_outcome (ssid psk : string) (nm : NMEnv) (w : World) :
  let result := fst (connect ssid psk nm w) in
  let w' := snd (connect ssid psk nm w) in
  let has_wifi := nm_client_new_ok nm &&
                  bool_decide (is_Some (first_wifi_device (default [] (nm_devices nm)))) in
  result = (if has_wifi then REQUESTED else FAILED) /\
  (exists calls,
     nm_calls (trace w') = nm_calls (trace w) ++ calls /\
     if has_wifi
     then calls = [NmClientNew; NmClientGetDevices;
                   NmClientAddAndActivateConnection2
                     {| con_id := c_str ssid; con_type := "802-11-wireless";
                        con_autoconnect := true; wifi_ssid := ssid;
                        wifi_mode := "infrastructure"; sec_key_mgmt := "wpa-psk";
                        sec_psk := c_str psk; ip4_method := "auto" |}]
     else forall profile, ~ In (NmClientAddAndActivateConnection2 profile) calls) /\
  g_state w' = g_state w /\ g_chars w' = g_chars w /\ g_scan_busy w' = g_scan_busy w.
Proof.
  unfold connect. lazy zeta.
  destruct (nm_client_new_ok nm); simpl.
  2:{ split; [reflexivity |]. split; [| auto].
      exists [NmClientNew]. rewrite nm_calls_app. split; [reflexivity |].
      intros profile [H|[]]. discriminate. }
  destruct (first_wifi_device _) as [wifi|]; simpl.
  - split; [reflexivity |]. split; [| auto].
    eexists. rewrite !nm_calls_app, <- !app_assoc. split; reflexivity.
  - split; [reflexivity |]. split; [| auto].
    exists [NmClientNew; NmClientGetDevices].
    rewrite !nm_calls_app, <- !app_assoc. split; [reflexivity |].
    intros profile [H|[H|[]]]; discriminate.
Qed.

(** ** C strings *)

(** X20. [make_ay_from_string] stops at the first NUL: its result holds no
    NUL byte and is a leading part of the bytes of the text, the whole of
    them exactly when the text holds no NUL. *)
Theorem make_ay_from_string_stops_at_nul (s : string) :
  ~ In NUL (make_ay_from_string s) /\
  (exists rest, list_ascii_of_string s = make_ay_from_string s ++ rest) /\
  (make_ay_from_string s = list_ascii_of_string s <-> ~ In NUL (list_ascii_of_string s)).
Proof.
  unfold make_ay_from_string.
  induction s as [|c s (IHn & (rest & IHp) & IHe)].
  - simpl. split; [tauto |]. split; [exists []; reflexivity | tauto].
  - simpl. destruct (Ascii.eqb c NUL) eqn:E.
    + apply Ascii.eqb_eq in E. subst c. simpl.
      split; [tauto |]. split; [eexists; reflexivity |].
      split; [discriminate | intros H; exfalso; apply H; now left].
    + apply Ascii.eqb_neq in E. simpl.
      split; [intros [H|H]; [congruence | tauto] |].
      split; [exists rest; now rewrite IHp at 1 |].
      split.
      * intros H. injection H as H. apply IHe in H. intros [H1|H1]; [congruence | tauto].
      * intros H. f_equal. apply IHe. intros H1. apply H. now right.
Qed.

(** X21. The payloads the state machine builds never hold a NUL byte, even
    when an SSID does, so they are handed to the bus whole. *)
Theorem payloads_sent_whole (ssids : list string) (ssid ip : string) :
  make_ay_from_string (Payload.build_wifi_scan_payload ssids) =
    list_ascii_of_string (Payload.build_wifi_scan_payload ssids) /\
  make_ay_from_string (connected_payload ssid ip) =
    list_ascii_of_string (connected_payload ssid ip).
Proof.
  unfold make_ay_from_string. split.
  - destruct (PayloadFacts.build_wifi_scan_payload_shape ssids) as (k & Hpay & _).
    now rewrite Hpay, payload_with_nul_free.
  - now rewrite connected_payload_nul_free.
Qed.

(** ** The advertised tree and the exported characteristics *)

Lemma om_agrees_identity (path : string) (ctx : CharContext) :
  om_agrees path (ctx_identity ctx) = om_agrees path ctx.
Proof. destruct ctx. reflexivity. Qed.

Lemma boot_tree_agrees :
  map_Forall (fun path ctx => om_agrees path ctx = true) (identity_view boot_world).
Proof.
  apply map_Forall_to_list.
  set (l := map_to_list (identity_view boot_world)). vm_compute in l. subst l.
  repeat constructor.
Qed.

Section Tree.

Variable std_sort :
  (string * Z -> string * Z -> bool) -> list (string * Z) -> list (string * Z).

(** X22. In every reachable world GetManagedObjects and the exported
    characteristics describe the same tree: each exported characteristic is
    listed under its path with the UUID, service path and flags its own
    property getter returns and with no descriptors, every listed path
    other than the service is an exported characteristic, and the service
    is listed with what its own property getter returns. *)
Theorem managed_objects_match_exports (w : World) :
  reachable std_sort w ->
  (forall path ctx,
     g_chars w !! path = Some ctx ->
     exists props,
       assoc path managed_objects = Some [(GATT_CHRC_IFACE, props)] /\
       assoc "UUID" props = char_get_property ctx "UUID" /\
       assoc "Service" props = char_get_property ctx "Service" /\
       assoc "Flags" props = char_get_property ctx "Flags" /\
       assoc "Descriptors" props = Some (PPathArray [])) /\
  (forall path ifaces,
     In (path, ifaces) managed_objects ->
     path = SERVICE_PATH \/ is_Some (g_chars w !! path)) /\
  (assoc SERVICE_PATH managed_objects = Some [(GATT_SERVICE_IFACE, make_service_props)] /\
   forall prop, assoc prop make_service_props = service_get_property prop) /\
  om_on_method_call "GetManagedObjects" = OMObjects managed_objects.
Proof.
  intros Hr. destruct (reachable_ok std_sort w Hr) as (Hid & _).
  split; [| split; [| split; [| reflexivity]]].
  3:{ split; [reflexivity |]. intros prop.
      unfold service_get_property, make_service_props. cbn [assoc].
      rewrite !(String.eqb_sym prop).
      destruct (String.eqb "UUID" prop); [reflexivity |].
      destruct (String.eqb "Primary" prop); [reflexivity |].
      destruct (String.eqb "Includes" prop); reflexivity. }
  - intros path ctx Hctx.
    assert (Hv : identity_view boot_world !! path = Some (ctx_identity ctx)).
    { rewrite <- Hid. unfold identity_view. now rewrite lookup_fmap, Hctx. }
    pose proof (boot_tree_agrees path _ Hv) as Hag. simpl in Hag.
    rewrite om_agrees_identity in Hag. unfold om_agrees in Hag.
    apply bool_decide_eq_true in Hag.
    eexists. split; [exact Hag |]. repeat split.
  - intros path ifaces Hin.
    destruct (exported_devinfo_char w Hid) as (cd & Hcd & _).
    destruct (exported_state_char w Hid) as (cs & Hcs & _).
    destruct (exported_command_char w Hid) as (cc & Hcc & _).
    simpl in Hin.
    destruct Hin as [H|[H|[H|[H|[]]]]]; injection H as <- _; eauto.
Qed.

End Tree.

(** ** Adapter discovery *)

Lemma select_adapter_first (objects : list (string * list (string * PropDict))) :
  (exists pre obj post,
     objects = pre ++ obj :: post /\
     Forall (fun o => is_adapter o = false) pre /\
     is_adapter obj = true /\
     select_adapter objects = fst obj) \/
  (Forall (fun o => is_adapter o = false) objects /\
   select_adapter objects = EmptyString).
Proof.
  induction objects as [|[p d] rest IH]; [right; split; [constructor | reflexivity] |].
  simpl. destruct (has_interface d GATT_MGR_IFACE && has_interface d ADV_MGR_IFACE) eqn:E.
  - left. exists [], (p, d), rest. repeat split; [constructor | exact E].
  - destruct IH as [(pre & obj & post & -> & Hpre & Hobj & Hsel)|[Hall Hsel]].
    + left. exists ((p, d) :: pre), obj, post. repeat split; auto.
    + right. split; [constructor; [exact E | exact Hall] | exact Hsel].
Qed.

(** X23. [find_adapter] selects the first object that exposes both
    GattManager1 and LEAdvertisingManager1, and never an object that lacks
    one of them; it throws when the bus is missing, when the call failed,
    and when no object qualifies. *)
Theorem find_adapter_selects_first (objects : list (string * list (string * PropDict))) :
  match find_adapter true (inr objects) with
  | Ok path =>
    path <> EmptyString /\
    exists pre ifaces post,
      objects = pre ++ (path, ifaces) :: post /\
      has_interface ifaces GATT_MGR_IFACE = true /\
      has_interface ifaces ADV_MGR_IFACE = true /\
      Forall (fun o => is_adapter o = false) pre
  | Throw message =>
    message = "No adapter found exposing GattManager1 and LEAdvertisingManager1"
  end /\
  (Forall (fun o => is_adapter o = false) objects ->
   find_adapter true (inr objects) =
   Throw "No adapter found exposing GattManager1 and LEAdvertisingManager1") /\
  (forall reply, find_adapter false reply = Throw "find_adapter: system_bus is null") /\
  (forall err, exists message, find_adapter true (inl err) = Throw message).
Proof.
  split; [| split; [| split]].
  - unfold find_adapter. simpl.
    destruct (is_empty (select_adapter objects)) eqn:He; [reflexivity |].
    apply is_empty_false in He. split; [exact He |].
    destruct (select_adapter_first objects)
      as [(pre & [p d] & post & -> & Hpre & Hobj & Hsel)|[_ Hsel]]; [| congruence].
    rewrite Hsel. simpl. exists pre, d, post.
    unfold is_adapter in Hobj. simpl in Hobj. apply andb_true_iff in Hobj.
    destruct Hobj. repeat split; auto.
  - intros Hall. unfold find_adapter. simpl.
    destruct (select_adapter_first objects)
      as [(pre & obj & post & -> & _ & Hobj & _)|[_ ->]]; [| reflexivity].
    apply Forall_app in Hall. destruct Hall as [_ Hall].
    apply Forall_cons in Hall. destruct Hall as [Hno _]. congruence.
  - intros reply. reflexivity.
  - intros err. eexists. reflexivity.
Qed.

(** ** The further properties at concrete inputs *)

Lemma scanned_world_reachable : reachable sample_sort scanned_world.
Proof. apply reachable_step, subscribed_world_reachable. Qed.

Lemma json_get_string_extracts_witness :
  Parser.json_get_string
    ("{" +:+ quoted "op" +:+ " " +:+ ":" +:+ " " +:+ quoted "wifi_scan" +:+ "}") "op"
  = "wifi_scan".
Proof.
  apply (ParserFacts.json_get_string_extracts "{" "op" " " " " "wifi_scan" "}").
  - intros pre' post' E. destruct pre' as [|c pre']; [discriminate | simpl; lia].
  - simpl. split; [discriminate | exact I].
  - simpl. split; [discriminate | exact I].
  - simpl. repeat split; discriminate.
  - discriminate.
Defined.

Lemma json_get_string_between_quotes_witness :
  exists pre post,
    ay_to_string sample_connect_write = pre +:+ quoted "HomeNet" +:+ post.
Proof.
  apply (proj2 (ParserFacts.json_get_string_between_quotes
                  (ay_to_string sample_connect_write) "ssid")).
  discriminate.
Defined.

Lemma json_get_string_absent_key_witness :
  Parser.json_get_string (ay_to_string sample_scan_write) "ssid" = EmptyString.
Proof.
  apply (ParserFacts.json_get_string_absent_key (ay_to_string sample_scan_write) "ssid").
  apply (ParserFacts.find_at_None _ _ 0). reflexivity.
Defined.

(** A start-up in which wlan0 has its address before State is exported:
    the daemon enters the main loop in state CONNECTED, and a read of the
    Value property of State gives the bare CONNECTED state payload. *)
Example early_start_exports_connected :
  startup [] [sample_nm] [] = Some early_world /\
  g_state early_world = "CONNECTED" /\
  on_get_property CHR_STATE "Value" early_world = Some (PBytes (state_json "CONNECTED")) /\
  emissions_on CHR_STATE (trace early_world) = [].
Proof. repeat split. Qed.

Lemma state_value_is_last_emission_witness :
  on_get_property CHR_STATE "Value" early_subscribed_world =
    Some (PBytes (List.last (emissions_on CHR_STATE (trace early_subscribed_world))
                    (state_json (exported_state [] [sample_nm])))) /\
  exported_state [] [sample_nm] = "CONNECTED".
Proof.
  apply (state_value_is_last_emission sample_sort [] [sample_nm] [] early_world
           early_subscribed_world).
  - reflexivity.
  - apply reachable_from_step, reachable_from_start.
Defined.

Lemma bus_carries_known_payloads_witness :
  CHR_STATE = CHR_STATE /\ known_payload (state_json "SCAN_COMPLETE").
Proof.
  apply (bus_carries_known_payloads sample_sort scanned_world CHR_STATE
           (state_json "SCAN_COMPLETE")).
  - exact scanned_world_reachable.
  - vm_compute. repeat (first [left; reflexivity | right]).
Defined.


Lemma device_info_read_witness :
  on_method_call sample_sort CHR_DEVINFO ReadValue sample_nm scanned_world =
  (scanned_world, ReturnValue (list_ascii_of_string DEVICEINFO_JSON)).
Proof.
  apply (device_info_read sample_sort sample_nm scanned_world).
  exact scanned_world_reachable.
Defined.

Lemma unsupported_operations_refused_witness :
  on_method_call sample_sort CHR_COMMAND ReadValue sample_nm boot_world =
    (boot_world, ReturnError "org.bluez.Error.Failed" "Read not supported") /\
  on_method_call sample_sort CHR_DEVINFO (WriteValue sample_scan_write) sample_nm boot_world =
    (boot_world, ReturnError "org.bluez.Error.Failed" "Write not supported") /\
  on_method_call sample_sort CHR_STATE (WriteValue sample_scan_write) sample_nm boot_world =
    (boot_world, ReturnError "org.bluez.Error.Failed" "Write not supported") /\
  on_method_call sample_sort CHR_STATE (OtherMethod "Confirm") sample_nm boot_world =
    (boot_world,
     ReturnError "org.freedesktop.DBus.Error.UnknownMethod" "Unknown method").
Proof.
  apply (unsupported_operations_refused sample_sort sample_nm boot_world
           sample_scan_write "Confirm").
  exact boot_world_reachable.
Defined.

Lemma unknown_command_ignored_witness :
  on_method_call sample_sort CHR_COMMAND (WriteValue sample_unknown_write) sample_nm
    subscribed_world = (subscribed_world, ReturnEmpty).
Proof.
  apply (unknown_command_ignored sample_sort sample_unknown_write sample_nm
           subscribed_world).
  - exact subscribed_world_reachable.
  - discriminate.
  - discriminate.
Defined.

Lemma unsubscribed_stays_silent_witness :
  let w' := dispatch sample_sort (MethodCall CHR_COMMAND (WriteValue sample_scan_write))
              sample_nm boot_world in
  emissions_on CHR_STATE (trace w') = emissions_on CHR_STATE (trace boot_world) /\
  subscribed CHR_STATE w' = false.
Proof.
  apply (unsubscribed_stays_silent sample_sort
           (MethodCall CHR_COMMAND (WriteValue sample_scan_write)) sample_nm boot_world).
  - exact boot_world_reachable.
  - reflexivity.
  - discriminate.
Defined.

Lemma stop_notify_unsubscribes_witness :
  let w1 := dispatch sample_sort (MethodCall CHR_STATE StopNotify) sample_nm
              subscribed_world in
  let w2 := dispatch sample_sort (MethodCall CHR_STATE StartNotify) sample_nm_down w1 in
  subscribed CHR_STATE w1 = false /\
  trace w1 = trace subscribed_world /\
  g_state w1 = g_state subscribed_world /\
  subscribed CHR_STATE w2 = true.
Proof.
  apply (stop_notify_unsubscribes sample_sort sample_nm sample_nm_down subscribed_world).
  exact subscribed_world_reachable.
Defined.


Lemma scan_flag_free_between_callbacks_witness :
  g_scan_busy scanned_world = false /\
  fst (scan_ssids sample_sort sample_nm scanned_world) =
    scan_outcome sample_sort sample_nm /\
  g_scan_busy (snd (scan_ssids sample_sort sample_nm scanned_world)) = false.
Proof.
  apply (scan_flag_free_between_callbacks sample_sort sample_nm scanned_world).
  exact scanned_world_reachable.
Defined.

Lemma wifi_scan_notifies_ranked_list_witness :
  let w' := dispatch sample_sort (MethodCall CHR_COMMAND (WriteValue sample_scan_write))
              sample_nm subscribed_world in
  notifications_on CHR_STATE (trace w') =
  notifications_on CHR_STATE (trace subscribed_world) ++
  [state_json "SCANNING";
   list_ascii_of_string
     (Payload.build_wifi_scan_payload (rank_access_points sample_sort sample_aps));
   state_json "SCAN_COMPLETE"].
Proof.
  apply (wifi_scan_notifies_ranked_list sample_sort sample_scan_write sample_nm
           subscribed_world sample_wlan0 sample_aps);
    [exact subscribed_world_reachable | reflexivity ..].
Defined.

Lemma wifi_scan_failure_notifies_empty_list_witness :
  let w' := dispatch sample_sort (MethodCall CHR_COMMAND (WriteValue sample_scan_write))
              sample_nm_down subscribed_world in
  notifications_on CHR_STATE (trace w') =
  notifications_on CHR_STATE (trace subscribed_world) ++
  [state_json "SCANNING";
   list_ascii_of_string (Payload.PAYLOAD_HEAD +:+ Payload.PAYLOAD_TAIL);
   state_json "SCAN_COMPLETE"] /\
  g_state w' = "SCAN_COMPLETE".
Proof.
  apply (wifi_scan_failure_notifies_empty_list sample_sort sample_scan_write
           sample_nm_down subscribed_world).
  - exact subscribed_world_reachable.
  - reflexivity.
  - left. reflexivity.
Defined.

Lemma managed_objects_match_exports_witness :
  (forall path ctx,
     g_chars scanned_world !! path = Some ctx ->
     exists props,
       assoc path managed_objects = Some [(GATT_CHRC_IFACE, props)] /\
       assoc "UUID" props = char_get_property ctx "UUID" /\
       assoc "Service" props = char_get_property ctx "Service" /\
       assoc "Flags" props = char_get_property ctx "Flags" /\
       assoc "Descriptors" props = Some (PPathArray [])) /\
  (forall path ifaces,
     In (path, ifaces) managed_objects ->
     path = SERVICE_PATH \/ is_Some (g_chars scanned_world !! path)) /\
  (assoc SERVICE_PATH managed_objects = Some [(GATT_SERVICE_IFACE, make_service_props)] /\
   forall prop, assoc prop make_service_props = service_get_property prop) /\
  om_on_method_call "GetManagedObjects" = OMObjects managed_objects.
Proof.
  apply (managed_objects_match_exports sample_sort scanned_world).
  exact scanned_world_reachable.
Defined.

Lemma find_adapter_selects_first_witness :
  find_adapter true (inr sample_bluez_objects) = Ok "/org/bluez/hci0" /\
  find_adapter true (inr [("/org/bluez", [("org.bluez.AgentManager1", [])])]) =
    Throw "No adapter found exposing GattManager1 and LEAdvertisingManager1".
Proof.
  split; [reflexivity |].
  apply (proj1 (proj2 (find_adapter_selects_first
                         [("/org/bluez", [("org.bluez.AgentManager1", [])])]))).
  repeat constructor.
Defined.

Lemma scan_threads_exclusive_witness :
  holders sample_threads_contended = Nat.b2n (g_scan_busy scanning_world) /\
  holders sample_threads_contended <= 1 /\
  (Forall (fun t => has_returned t = true) sample_threads_contended ->
   g_scan_busy scanning_world = false).
Proof.
  apply (scan_threads_exclusive sample_sort sample_threads sample_threads_contended
           boot_world scanning_world).
  - repeat constructor.
  - reflexivity.
  - apply (sys_run_step sample_sort _
             ([{| th_nm := sample_nm; th_phase := Scanning |};
               {| th_nm := sample_nm_down; th_phase := Entering |}], scanning_world)).
    + apply (sys_run_step sample_sort _ (sample_threads, boot_world));
        [apply sys_run_refl |].
      exact (sys_step_thread sample_sort sample_threads boot_world 0
               {| th_nm := sample_nm; th_phase := Entering |}
               {| th_nm := sample_nm; th_phase := Scanning |}
               scanning_world eq_refl eq_refl).
    + exact (sys_step_thread sample_sort
               [{| th_nm := sample_nm; th_phase := Scanning |};
                {| th_nm := sample_nm_down; th_phase := Entering |}]
               scanning_world 1
               {| th_nm := sample_nm_down; th_phase := Entering |}
               {| th_nm := sample_nm_down; th_phase := Leaving false [] |}
               scanning_world eq_refl eq_refl).
Defined.
